(** * TREN: bounded ledgers, broadcast drafts and fan-out delivery

    A shallow embedding of the parts of the coaching backend that carry
    state: the capped [AppError] and [Broadcast] collections, the broadcast
    draft machine of the Telegram bot with its album timer, the delivery
    loop, the guarded order routes of the admin and mini-app routers, the
    training goals, and the data URLs and sheet views of attachments. *)

From stdpp Require Import base option list sorting gmap strings pretty.
From Stdlib Require Import ZArith Lia Ascii.

Local Open Scope Z_scope.

(** ** JavaScript values and completions *)

Module Js.

(** What a [catch (error)] clause can bind: an instance of [Error] with
    its [message] and [stack]; a primitive, with the string [String(v)]
    gives for it; any other object, whose string conversion yields a
    string or throws (an object without a usable [toString], such as
    [Object.create(null)]). *)
Inductive value : Type :=
| VError (message : string) (stack : option string)
| VPrimitive (shown : string)
| VObject (converted : option string).

Definition TypeError (msg : string) : value := VError msg None.

(** Normal or abrupt completion of a statement list. *)
Inductive completion (A : Type) : Type :=
| Normal (a : A)
| Thrown (e : value).
Arguments Normal {A} a.
Arguments Thrown {A} e.

(** Truthiness of a string and of a number. *)
Definition truthy_string (s : string) : bool :=
  match s with EmptyString => false | _ => true end.

Definition truthy_number (n : Z) : bool := negb (n =? 0).

(** [String(v)] *)
Definition ToString (v : value) : completion string :=
  match v with
  | VError message _ =>
      Normal (if truthy_string message then "Error: " +:+ message else "Error")
  | VPrimitive shown => Normal shown
  | VObject (Some s) => Normal s
  | VObject None => Thrown (TypeError "Cannot convert object to primitive value")
  end.

(** [s.trim()], on the ASCII white space characters. *)
Fixpoint trimStart (s : string) : string :=
  match s with
  | EmptyString => EmptyString
  | String a rest => if Ascii.is_space a then trimStart rest else s
  end.

Definition trim (s : string) : string :=
  String.rev (trimStart (String.rev (trimStart s))).

(** [xs.join(sep)] *)
Fixpoint join (sep : string) (xs : list string) : string :=
  match xs with
  | [] => ""
  | [x] => x
  | x :: rest => x +:+ sep +:+ join sep rest
  end.

(** [a || b] on strings *)
Definition or_string (a b : string) : string :=
  if truthy_string a then a else b.

End Js.

(** ** A state monad with exceptions, for [async] bodies run to completion *)

Module Eff.
Import Js.

Definition M (S A : Type) : Type := S -> completion A * S.

Definition ret {S A} (a : A) : M S A := fun s => (Normal a, s).

Definition bind {S A B} (c : M S A) (k : A -> M S B) : M S B :=
  fun s =>
    match c s with
    | (Normal a, s') => k a s'
    | (Thrown e, s') => (Thrown e, s')
    end.

Definition throw {S A} (e : value) : M S A := fun s => (Thrown e, s).

Definition lift {S A} (c : completion A) : M S A := fun s => (c, s).

(** [try { body } catch { handler }] *)
Definition try_catch {S A} (body : M S A) (handler : value -> M S A) : M S A :=
  fun s =>
    match body s with
    | (Normal a, s') => (Normal a, s')
    | (Thrown e, s') => handler e s'
    end.

Definition gets {S A} (f : S -> A) : M S A := fun s => (Normal (f s), s).
Definition modify {S} (f : S -> S) : M S unit := fun s => (Normal tt, f s).

Definition when {S} (b : bool) (c : M S unit) : M S unit :=
  if b then c else ret tt.

End Eff.

Notation "'let*' x ':=' c 'in' k" := (Eff.bind c (fun x => k))
  (at level 10, x name, c at level 100, k at level 200).
Notation "c ';;' k" := (Eff.bind c (fun _ => k))
  (at level 100, k at level 200, right associativity).

(** ** Mongo collections *)

Module Mongo.
Import Js Eff.

Section Collection.
Context {P : Type}.

(** A stored document: [_id], the [createdAt] stamp that
    [timestamps: true] adds, and the schema's own fields. *)
Record Doc : Type := mkDoc { doc_id : nat; createdAt : Z; fields : P }.

Definition created_le (a b : Doc) : Prop := createdAt a <= createdAt b.

#[export] Instance created_le_dec : RelDecision created_le.
Proof. intros a b. unfold created_le. apply _. Defined.

(** [Model.create(payload)] *)
Definition insertOne (id : nat) (now : Z) (payload : P) (c : list Doc) : list Doc :=
  c ++ [mkDoc id now payload].

(** [Model.countDocuments()] *)
Definition countDocuments (c : list Doc) : nat := length c.

(** [Model.find().sort({ createdAt: 1 })] *)
Definition sortByCreatedAt (c : list Doc) : list Doc := merge_sort created_le c.

(** [Model.find().sort({ createdAt: 1 }).limit(n).select("_id").lean()] *)
Definition oldestIds (n : nat) (c : list Doc) : list nat :=
  doc_id <$> take n (sortByCreatedAt c).

(** [Model.deleteMany({ _id: { $in: ids } })] *)
Definition deleteManyIn (ids : list nat) (c : list Doc) : list Doc :=
  filter (fun d => doc_id d ∉ ids) c.

End Collection.
Arguments Doc P : clear implicits.

(** A collection, in its natural (insertion) order. *)
Abbreviation Coll P := (list (Doc P)).

End Mongo.

(** ** The database of the service: two capped ledgers *)

Module Ledger.
Import Js Eff Mongo.

(** [appErrorSchema] *)
Record AppErrorFields : Type := {
  ae_source : string;
  ae_message : string;
  ae_stack : option string;
  ae_path : option string;
  ae_method : option string;
  ae_status : option Z;
  ae_adminTelegramId : option Z
}.

(** [broadcastSchema] *)
Record BroadcastFields : Type := {
  bc_adminTelegramId : Z;
  bc_text : string;
  bc_photoFileIds : list string;
  bc_totalRecipients : nat;
  bc_successCount : nat;
  bc_failedCount : nat
}.

(** The two collections, and the supply of [_id] values: [create] gives
    each new document an identifier never used before. *)
Record Db : Type := {
  appErrors : Coll AppErrorFields;
  broadcasts : Coll BroadcastFields;
  nextId : nat
}.

(** A mongoose model: the collection it reads and writes. *)
Record Model (P : Type) : Type := {
  docs : Db -> Coll P;
  withDocs : Coll P -> Db -> Db
}.
Arguments docs {P} _ _.
Arguments withDocs {P} _ _ _.

Definition AppError : Model AppErrorFields := {|
  docs := appErrors;
  withDocs c db := {| appErrors := c; broadcasts := broadcasts db; nextId := nextId db |}
|}.

Definition Broadcast : Model BroadcastFields := {|
  docs := broadcasts;
  withDocs c db := {| appErrors := appErrors db; broadcasts := c; nextId := nextId db |}
|}.

Definition freshId (db : Db) : Db :=
  {| appErrors := appErrors db; broadcasts := broadcasts db; nextId := S (nextId db) |}.

(** The four persistence calls of an append-and-prune cycle.  Each may be
    rejected by the driver (connection loss, validation, ...); a rejected
    call leaves the collection as it was. *)
Inductive Call : Type := CallCreate | CallCount | CallFind | CallDelete.

#[export] Instance Call_eq_dec : EqDecision Call.
Proof. solve_decision. Defined.

(** The surroundings of one cycle: the clock reading that becomes
    [createdAt], and the calls the driver rejects. *)
Record Env : Type := { now : Z; fails : Call -> bool }.

Definition MongoError : value := VError "MongoError" None.

Definition attempt (env : Env) (c : Call) : M Db unit :=
  if fails env c then throw MongoError else ret tt.

Section ModelCalls.
Context {P : Type} (m : Model P) (env : Env).

(** [Model.create(payload)].  A payload the schema refuses (a required
    string that is blank) is a rejected call, [fails env CallCreate].
    The schema also trims the strings it stores; the payload is kept as
    handed over, and nothing below reads the stored text. *)
Definition create (payload : P) : M Db unit :=
  attempt env CallCreate ;;
  modify (fun db =>
    freshId (withDocs m (insertOne (nextId db) (now env) payload (docs m db)) db)).

Definition count : M Db nat :=
  attempt env CallCount ;;
  gets (fun db => countDocuments (docs m db)).

Definition findOldestIds (n : nat) : M Db (list nat) :=
  attempt env CallFind ;;
  gets (fun db => oldestIds n (docs m db)).

Definition deleteMany (ids : list nat) : M Db unit :=
  attempt env CallDelete ;;
  modify (fun db => withDocs m (deleteManyIn ids (docs m db)) db).
End ModelCalls.

(** [LogContext] *)
Record LogContext : Type := {
  source : string;
  path : option string;
  method : option string;
  status : option Z;
  adminTelegramId : option Z
}.

Definition truthy_opt (o : option string) : option string :=
  match o with
  | Some s => if truthy_string s then Some s else None
  | None => None
  end.

(** [error instanceof Error ? error.message : String(error)] *)
Definition messageOf (error : value) : completion string :=
  match error with
  | VError message _ => Normal message
  | _ => ToString error
  end.

(** [error instanceof Error ? error.stack : undefined] *)
Definition stackOf (error : value) : option string :=
  match error with
  | VError _ stack => stack
  | _ => None
  end.

Definition buildPayload (message : string) (stack : option string)
    (context : LogContext) : AppErrorFields := {|
  ae_source := source context;
  ae_message := message;
  ae_stack := truthy_opt stack;
  ae_path := truthy_opt (path context);
  ae_method := truthy_opt (method context);
  ae_status := status context;
  ae_adminTelegramId := adminTelegramId context
|}.

(** The capacity both ledgers are pruned to. *)
Definition capacity : nat := 500.

(** [logAppError(error, context)] *)
Definition logAppError (env : Env) (error : value) (context : LogContext) : M Db unit :=
  let* message := lift (messageOf error) in
  let stack := stackOf error in
  try_catch
    (let payload := buildPayload message stack context in
     create AppError env payload ;;
     let* total := count AppError env in
     when (bool_decide (500 < total)%nat)
       (let extra := (total - 500)%nat in
        let* oldIds := findOldestIds AppError env extra in
        when (negb (bool_decide (length oldIds = 0%nat)))
          (deleteMany AppError env oldIds)))
    (fun _ => ret tt).

(** Lines 470-490 of the [broadcast_send] action: the history record of a
    finished broadcast and the pruning of the history. *)
Definition recordBroadcast (env : Env) (entry : BroadcastFields) : M Db unit :=
  create Broadcast env entry ;;
  let* totalBroadcasts := count Broadcast env in
  when (bool_decide (500 < totalBroadcasts)%nat)
    (let extra := (totalBroadcasts - 500)%nat in
     let* oldIds := findOldestIds Broadcast env extra in
     when (negb (bool_decide (length oldIds = 0%nat)))
       (deleteMany Broadcast env oldIds)).

(** What a completed cycle leaves of a collection that already holds the
    new entry: the prune step as one function on the collection. *)
Definition pruned {P} (c : Coll P) : Coll P :=
  if bool_decide (capacity < length c)%nat
  then deleteManyIn (oldestIds (length c - capacity) c) c
  else c.

(** A sequence of [logAppError] calls, each with its own environment. *)
Record LogCall : Type := { lc_env : Env; lc_error : value; lc_context : LogContext }.

Definition runLog (db : Db) (c : LogCall) : Db :=
  (logAppError (lc_env c) (lc_error c) (lc_context c) db).2.

Definition runLogs (calls : list LogCall) (db : Db) : Db :=
  foldl runLog db calls.

(** No persistence call of the cycle is rejected. *)
Definition reliable (env : Env) : Prop := ∀ c, fails env c = false.

(** The cycle ran from [create] to the end of the prune step. *)
Definition completes (c : LogCall) : Prop :=
  reliable (lc_env c) ∧ ∃ m, messageOf (lc_error c) = Normal m.

(** Identifiers are unique and below the next one to be handed out. *)
Definition wf_coll {P} (next : nat) (c : Coll P) : Prop :=
  NoDup (doc_id <$> c) ∧ Forall (fun d => (doc_id d < next)%nat) c.

Definition wf (db : Db) : Prop :=
  wf_coll (nextId db) (appErrors db) ∧ wf_coll (nextId db) (broadcasts db).

Definition emptyDb : Db := {| appErrors := []; broadcasts := []; nextId := 0 |}.

(** Sample data: a quiet environment and a database whose error log holds
    [n] entries created at times [0 .. n-1]. *)
Definition quietEnv (t : Z) : Env := {| now := t; fails := fun _ => false |}.

Definition apiContext : LogContext := {|
  source := "api"; path := Some "/api/admin/errors"; method := Some "GET";
  status := Some 500; adminTelegramId := None
|}.

Definition sampleError : value := VError "connection reset" (Some "at fetch").

Definition sampleFields : AppErrorFields :=
  buildPayload "connection reset" (Some "at fetch") apiContext.

Definition filledDb (n : nat) : Db := {|
  appErrors := (fun i => mkDoc i (Z.of_nat i) sampleFields) <$> seq 0 n;
  broadcasts := [];
  nextId := n
|}.

Definition sampleBroadcast : BroadcastFields := {|
  bc_adminTelegramId := 7; bc_text := "hello"; bc_photoFileIds := ["p1"];
  bc_totalRecipients := 2; bc_successCount := 1; bc_failedCount := 1
|}.

(** Both ledgers at capacity: 500 errors and 500 broadcasts, each created
    at times [0 .. 499]. *)
Definition fullLedgers : Db := {|
  appErrors := (fun i => mkDoc i (Z.of_nat i) sampleFields) <$> seq 0 500;
  broadcasts := (fun i => mkDoc (500 + i) (Z.of_nat i) sampleBroadcast) <$> seq 0 500;
  nextId := 1000
|}.

End Ledger.

(** ** The Telegram bot: broadcast drafts, album timer, delivery *)

Module Bot.
Import Js Eff Mongo Ledger.

(** [BroadcastDraft.step] *)
Inductive Step : Type := await_photos | await_text | preview.

#[export] Instance Step_eq_dec : EqDecision Step.
Proof. solve_decision. Defined.

(** [BroadcastDraft]; [mediaGroupTimer] holds the handle [setTimeout]
    returned. *)
Record BroadcastDraft : Type := {
  step : Step;
  photoFileIds : list string;
  text : option string;
  mediaGroupId : option string;
  mediaGroupTimer : option nat
}.

Definition MAX_BROADCAST_PHOTOS : nat := 3.

(** The delay of the album timer, in milliseconds. *)
Definition ALBUM_DELAY : Z := 700.

(** What the bot sends back to a chat; the comment gives the source text. *)
Inductive Notice : Type :=
| NoBroadcastAccess        (* "У вас нет доступа к рассылке." *)
| SendPhotosPrompt         (* "Пришли до 3 фото одним сообщением (альбомом). ..." *)
| PhotoUnreadable          (* "Не удалось получить фото. Попробуй еще раз." *)
| PhotoLimitReached        (* "Можно отправить максимум 3 фото." *)
| TextPromptAfterAlbum     (* "Теперь пришли текст рассылки." *)
| TextPromptAfterPhoto     (* "Фото получено. Теперь пришли текст рассылки." *)
| PhotosFirst              (* "Сначала пришли фото (до 3)." *)
| TextEmpty                (* "Текст не может быть пустым." *)
| PreviewPhoto (photo caption : string)
| PreviewGroup (photos : list string) (caption : string)
| PreviewReady             (* "Предпросмотр готов. Отправить рассылку?" *)
| Cancelled                (* "Рассылка отменена." *)
| NothingToSend            (* answerCbQuery("Нет данных для рассылки.") *)
| Launching                (* "Рассылка запускается, это может занять время..." *)
| Summary (success failed total : nat) (deliveredPreview failedPreview : string)
| Report (reportText : string).

#[export] Instance Notice_eq_dec : EqDecision Notice.
Proof. solve_decision. Defined.

Record Reply : Type := { sentAt : Z; chat : Z; notice : Notice }.

(** A pending [setTimeout] callback of the photo handler: the closure keeps
    the draft object and the context it was created with. *)
Record Timer : Type := { handle : nat; due : Z; draftRef : nat; timerChat : Z }.

(** The process state of the bot.  Draft objects live in [heap] and are
    shared by reference between the [broadcastDrafts] map and the timer
    closures; [timers] lists the pending timeouts in the order they were
    armed, which is the order they come due, all delays being equal. *)
Record State : Type := {
  heap : gmap nat BroadcastDraft;
  broadcastDrafts : gmap Z nat;
  timers : list Timer;
  nextRef : nat;
  nextHandle : nat;
  replies : list Reply;
  db : Db
}.

Definition setHeap (h : gmap nat BroadcastDraft) (s : State) : State :=
  {| heap := h; broadcastDrafts := broadcastDrafts s; timers := timers s;
     nextRef := nextRef s; nextHandle := nextHandle s; replies := replies s;
     db := db s |}.

Definition setDrafts (m : gmap Z nat) (s : State) : State :=
  {| heap := heap s; broadcastDrafts := m; timers := timers s;
     nextRef := nextRef s; nextHandle := nextHandle s; replies := replies s;
     db := db s |}.

Definition setTimers (l : list Timer) (s : State) : State :=
  {| heap := heap s; broadcastDrafts := broadcastDrafts s; timers := l;
     nextRef := nextRef s; nextHandle := nextHandle s; replies := replies s;
     db := db s |}.

Definition setDb (d : Db) (s : State) : State :=
  {| heap := heap s; broadcastDrafts := broadcastDrafts s; timers := timers s;
     nextRef := nextRef s; nextHandle := nextHandle s; replies := replies s;
     db := d |}.

(** [ctx.reply(...)] and its siblings *)
Definition reply (now : Z) (to : Z) (n : Notice) (s : State) : State :=
  {| heap := heap s; broadcastDrafts := broadcastDrafts s; timers := timers s;
     nextRef := nextRef s; nextHandle := nextHandle s;
     replies := replies s ++ [{| sentAt := now; chat := to; notice := n |}];
     db := db s |}.

(** [clearTimeout(handle)] *)
Definition clearTimeout (h : nat) (s : State) : State :=
  setTimers (filter (fun tm => handle tm ≠ h) (timers s)) s.

(** [setTimeout(callback, 700)]: returns the handle *)
Definition setTimeout (now : Z) (ref : nat) (to : Z) (s : State) : nat * State :=
  (nextHandle s,
   {| heap := heap s; broadcastDrafts := broadcastDrafts s;
      timers := timers s ++ [{| handle := nextHandle s; due := now + ALBUM_DELAY;
                                draftRef := ref; timerChat := to |}];
      nextRef := nextRef s; nextHandle := S (nextHandle s);
      replies := replies s; db := db s |}).

(** [draft.field = ...] on the object behind [ref] *)
Definition updateDraft (ref : nat) (f : BroadcastDraft -> BroadcastDraft) (s : State) : State :=
  setHeap (alter f ref (heap s)) s.

Definition withStep (st : Step) (d : BroadcastDraft) : BroadcastDraft :=
  {| step := st; photoFileIds := photoFileIds d; text := text d;
     mediaGroupId := mediaGroupId d; mediaGroupTimer := mediaGroupTimer d |}.

Definition pushPhoto (photoId : string) (d : BroadcastDraft) : BroadcastDraft :=
  {| step := step d; photoFileIds := photoFileIds d ++ [photoId]; text := text d;
     mediaGroupId := mediaGroupId d; mediaGroupTimer := mediaGroupTimer d |}.

Definition withText (t : string) (d : BroadcastDraft) : BroadcastDraft :=
  {| step := step d; photoFileIds := photoFileIds d; text := Some t;
     mediaGroupId := mediaGroupId d; mediaGroupTimer := mediaGroupTimer d |}.

Definition withMediaGroupId (g : string) (d : BroadcastDraft) : BroadcastDraft :=
  {| step := step d; photoFileIds := photoFileIds d; text := text d;
     mediaGroupId := Some g; mediaGroupTimer := mediaGroupTimer d |}.

Definition withMediaGroupTimer (h : nat) (d : BroadcastDraft) : BroadcastDraft :=
  {| step := step d; photoFileIds := photoFileIds d; text := text d;
     mediaGroupId := mediaGroupId d; mediaGroupTimer := Some h |}.

(** [broadcastDrafts.get(telegramId)]: the draft object and its identity *)
Definition getDraft (telegramId : Z) (s : State) : option (nat * BroadcastDraft) :=
  match broadcastDrafts s !! telegramId with
  | Some ref =>
      match heap s !! ref with
      | Some d => Some (ref, d)
      | None => None
      end
  | None => None
  end.

(** [getLargestPhotoFileId(ctx)]: [photo] lists the [file_id] of each size *)
Definition getLargestPhotoFileId (photo : list string) : option string :=
  last photo.

(** [getMediaGroupId(ctx)] *)
Definition getMediaGroupId (media_group_id : option string) : option string :=
  media_group_id.

(** [clearDraft(telegramId)] *)
Definition clearDraft (telegramId : Z) (s : State) : State :=
  let s1 :=
    match getDraft telegramId s with
    | Some (_, draft) =>
        match mediaGroupTimer draft with
        | Some h => clearTimeout h s
        | None => s
        end
    | None => s
    end in
  setDrafts (delete telegramId (broadcastDrafts s1)) s1.

(** The callback armed by the photo handler, run when its timeout fires. *)
Definition albumTimerFired (tm : Timer) (s : State) : State :=
  match heap s !! draftRef tm with
  | Some draft =>
      if bool_decide (length (photoFileIds draft) = 0%nat) then s
      else reply (due tm) (timerChat tm) TextPromptAfterAlbum
             (updateDraft (draftRef tm) (withStep await_text) s)
  | None => s
  end.

(** The event loop reaches time [t]: every timeout due by then fires, in
    arming order, and is no longer pending. *)
Definition advance (t : Z) (s : State) : State :=
  let ready := filter (fun tm => due tm <= t) (timers s) in
  let waiting := filter (fun tm => ¬ due tm <= t) (timers s) in
  foldl (fun st tm => albumTimerFired tm st) (setTimers waiting s) ready.

(** [bot.hears([BROADCAST_COMMAND, "/text"], ...)]; [isAdmin] is the answer
    of [isAdminUser]. *)
Definition hears_text_command (now : Z) (from : option Z) (isAdmin : bool)
    (s : State) : State :=
  match from with
  | None => s
  | Some telegramUser =>
      if negb isAdmin then reply now telegramUser NoBroadcastAccess s
      else
        let s1 := clearDraft telegramUser s in
        let ref := nextRef s1 in
        let s2 :=
          {| heap := <[ref := {| step := await_photos; photoFileIds := [];
                                 text := None; mediaGroupId := None;
                                 mediaGroupTimer := None |}]> (heap s1);
             broadcastDrafts := <[telegramUser := ref]> (broadcastDrafts s1);
             timers := timers s1; nextRef := S ref; nextHandle := nextHandle s1;
             replies := replies s1; db := db s1 |} in
        reply now telegramUser SendPhotosPrompt s2
  end.

(** [bot.on("photo", ...)] *)
Definition on_photo (now : Z) (from : option Z) (photo : list string)
    (media_group_id : option string) (s : State) : State :=
  match from with
  | None => s
  | Some telegramUser =>
      match getDraft telegramUser s with
      | None => s
      | Some (ref, draft) =>
          if negb (bool_decide (step draft = await_photos)) then s
          else
            match getLargestPhotoFileId photo with
            | None => reply now telegramUser PhotoUnreadable s
            | Some photoId =>
                if negb (truthy_string photoId)
                then reply now telegramUser PhotoUnreadable s
                else if bool_decide (MAX_BROADCAST_PHOTOS ≤ length (photoFileIds draft))%nat
                then reply now telegramUser PhotoLimitReached s
                else
                  let s1 := updateDraft ref (pushPhoto photoId) s in
                  match getMediaGroupId media_group_id with
                  | Some mediaGroupId =>
                      if truthy_string mediaGroupId then
                        let s2 := updateDraft ref (withMediaGroupId mediaGroupId) s1 in
                        let s3 :=
                          match mediaGroupTimer draft with
                          | Some h => clearTimeout h s2
                          | None => s2
                          end in
                        let '(h, s4) := setTimeout now ref telegramUser s3 in
                        updateDraft ref (withMediaGroupTimer h) s4
                      else
                        reply now telegramUser TextPromptAfterPhoto
                          (updateDraft ref (withStep await_text) s1)
                  | None =>
                      reply now telegramUser TextPromptAfterPhoto
                        (updateDraft ref (withStep await_text) s1)
                  end
            end
      end
  end.

(** [sendBroadcastPreview(ctx, draft)] *)
Definition sendBroadcastPreview (now : Z) (to : Z) (draft : BroadcastDraft)
    (s : State) : State :=
  let text := or_string (default "" (text draft)) "" in
  let photos := photoFileIds draft in
  match photos with
  | [first] =>
      if negb (truthy_string first) then s
      else reply now to (PreviewPhoto first text) s
  | _ =>
      reply now to PreviewReady (reply now to (PreviewGroup photos text) s)
  end.

(** [bot.on("text", ...)] *)
Definition on_text (now : Z) (from : option Z) (message_text : option string)
    (s : State) : State :=
  match from with
  | None => s
  | Some telegramUser =>
      let text := or_string (default "" (trim <$> message_text)) "" in
      match getDraft telegramUser s with
      | None => s
      | Some (ref, draft) =>
          if bool_decide (step draft = await_photos)
          then reply now telegramUser PhotosFirst s
          else if negb (bool_decide (step draft = await_text)) then s
          else if negb (truthy_string text)
          then reply now telegramUser TextEmpty s
          else
            let s1 := updateDraft ref (withStep preview)
                        (updateDraft ref (withText text) s) in
            sendBroadcastPreview now telegramUser
              (withStep preview (withText text draft)) s1
      end
  end.

(** [bot.action("broadcast_cancel", ...)] *)
Definition broadcast_cancel (now : Z) (from : option Z) (s : State) : State :=
  match from with
  | None => s
  | Some telegramUser => reply now telegramUser Cancelled (clearDraft telegramUser s)
  end.

(** A row of the [User.find(...).select("chatId telegramId firstName
    lastName")] result. *)
Record Recipient : Type := {
  chatId : option Z;
  telegramId : option Z;
  firstName : option string;
  lastName : option string
}.

(** One turn of the delivery loop: the recipient and whether the Telegram
    call made for it is rejected. *)
Record Attempt : Type := { recipient : Recipient; rejected : bool }.

(** [formatUserName(user)] *)
Definition formatUserName (user : Recipient) : string :=
  let first := or_string (default "" (firstName user)) "" in
  let last := or_string (default "" (lastName user)) "" in
  let joined := trim (first +:+ " " +:+ last) in
  if truthy_string joined then joined
  else
    match telegramId user with
    | Some id => if truthy_number id then "User " +:+ pretty id else "User"
    | None => "User"
    end.

Definition TelegramError : value := VError "TelegramError" None.

(** [ctx.telegram.sendPhoto] and [ctx.telegram.sendMediaGroup] *)
Definition telegramCall (isRejected : bool) : completion unit :=
  if isRejected then Thrown TelegramError else Normal tt.

(** [sendBroadcastToChat(chatId, photoFileIds, text, ctx)] *)
Definition sendBroadcastToChat (chatId : Z) (photoFileIds : list string)
    (text : string) (isRejected : bool) : completion unit :=
  match photoFileIds with
  | [first] =>
      if negb (truthy_string first) then Normal tt
      else telegramCall isRejected
  | _ => telegramCall isRejected
  end.

(** The counters and name lists of the delivery loop. *)
Record Tally : Type := {
  successCount : nat;
  failedCount : nat;
  deliveredNames : list string;
  failedNames : list string
}.

Definition noTally : Tally :=
  {| successCount := 0; failedCount := 0; deliveredNames := []; failedNames := [] |}.

(** The body of [for (const user of users)]. *)
Definition deliverTo (photoFileIds : list string) (text : string)
    (t : Tally) (a : Attempt) : Tally :=
  let user := recipient a in
  match chatId user with
  | None => t
  | Some chatId =>
      if negb (truthy_number chatId) then t
      else
        match sendBroadcastToChat chatId photoFileIds text (rejected a) with
        | Normal _ =>
            {| successCount := successCount t + 1;
               failedCount := failedCount t;
               deliveredNames := deliveredNames t ++ [formatUserName user];
               failedNames := failedNames t |}
        | Thrown _ =>
            {| successCount := successCount t;
               failedCount := failedCount t + 1;
               deliveredNames := deliveredNames t;
               failedNames := failedNames t ++ [formatUserName user] |}
        end
  end.

Definition deliverAll (photoFileIds : list string) (text : string)
    (users : list Attempt) : Tally :=
  foldl (deliverTo photoFileIds text) noTally users.

(** The recipient has a destination: [if (!chatId) continue] lets it
    through. *)
Definition hasDestination (a : Attempt) : bool :=
  match chatId (recipient a) with
  | Some chatId => truthy_number chatId
  | None => false
  end.

(** Bookkeeping of two stretches of the loop, put end to end. *)
Definition tallyApp (a b : Tally) : Tally :=
  {| successCount := successCount a + successCount b;
     failedCount := failedCount a + failedCount b;
     deliveredNames := deliveredNames a ++ deliveredNames b;
     failedNames := failedNames a ++ failedNames b |}.

(** The bookkeeping of one rejected send. *)
Definition oneFailure (user : Recipient) : Tally :=
  {| successCount := 0; failedCount := 1;
     deliveredNames := []; failedNames := [formatUserName user] |}.

(** The document handed to [Broadcast.create]. *)
Definition historyEntry (admin : Z) (text : string) (photoFileIds : list string)
    (t : Tally) : BroadcastFields :=
  {| bc_adminTelegramId := admin;
     bc_text := text;
     bc_photoFileIds := photoFileIds;
     bc_totalRecipients := successCount t + failedCount t;
     bc_successCount := successCount t;
     bc_failedCount := failedCount t |}.

(** The closing message of the action. *)
Definition summaryOf (t : Tally) : Notice :=
  Summary (successCount t) (failedCount t) (successCount t + failedCount t)
    (or_string (join ", " (take 20 (deliveredNames t))) "нет")
    (or_string (join ", " (take 20 (failedNames t))) "нет").

Definition newline : string := String (Ascii.ascii_of_nat 10) EmptyString.

Definition reportOf (t : Tally) : Notice :=
  Report (join newline
    (["Delivered:"] ++ deliveredNames t ++ [""; "Failed:"] ++ failedNames t ++ [""])).

Definition liftDb {A} (c : M Db A) : M State A :=
  fun s => let '(r, d) := c (db s) in (r, setDb d s).

(** [bot.action("broadcast_send", ...)]; [users] is the answer of the
    [User.find] query with the outcome of each Telegram call, [env] the
    behaviour of the history collection. *)
Definition broadcast_send (now : Z) (env : Env) (from : option Z)
    (users : list Attempt) : M State unit :=
  match from with
  | None => ret tt
  | Some telegramUser =>
      let* found := gets (getDraft telegramUser) in
      let ready :=
        match found with
        | Some (_, draft) =>
            match step draft, text draft with
            | preview, Some text =>
                if truthy_string text then Some (draft, text) else None
            | _, _ => None
            end
        | None => None
        end in
      match ready with
      | None => modify (reply now telegramUser NothingToSend)
      | Some (draft, text) =>
          modify (reply now telegramUser Launching) ;;
          let tally := deliverAll (photoFileIds draft) text users in
          liftDb (recordBroadcast env
                    (historyEntry telegramUser text (photoFileIds draft) tally)) ;;
          modify (clearDraft telegramUser) ;;
          modify (reply now telegramUser (summaryOf tally)) ;;
          let hasOverflow :=
            bool_decide (20 < length (deliveredNames tally))%nat
            || bool_decide (20 < length (failedNames tally))%nat in
          when hasOverflow (modify (reply now telegramUser (reportOf tally)))
      end
  end.

(** An update delivered to the bot. *)
Inductive Update : Type :=
| TextCommand (from : option Z) (isAdmin : bool)
| Photo (from : option Z) (photo : list string) (media_group_id : option string)
| Text (from : option Z) (message_text : option string)
| CancelAction (from : option Z)
| SendAction (from : option Z) (env : Env) (users : list Attempt).

Definition dispatch (now : Z) (u : Update) (s : State) : State :=
  match u with
  | TextCommand from isAdmin => hears_text_command now from isAdmin s
  | Photo from photo media_group_id => on_photo now from photo media_group_id s
  | Text from message_text => on_text now from message_text s
  | CancelAction from => broadcast_cancel now from s
  | SendAction from env users => (broadcast_send now env from users s).2
  end.

(** The bot processes updates in arrival order; before an update that
    arrives at time [t] is handled, the timeouts due by [t] have fired. *)
Definition runTimeline (events : list (Z * Update)) (s : State) : State :=
  foldl (fun st ev => dispatch ev.1 ev.2 (advance ev.1 st)) s events.

Definition startState : State :=
  {| heap := ∅; broadcastDrafts := ∅; timers := []; nextRef := 0;
     nextHandle := 0; replies := []; db := emptyDb |}.

(** *** An album seen from its draft *)

(** The [file_id] the photo handler takes from a message. *)
Definition largest (photo : list string) : string :=
  default "" (getLargestPhotoFileId photo).

(** A burst of photo messages of operator [uid] in album [g]: arrival time
    and sizes of each. *)
Definition albumEvents (uid : Z) (g : string) (burst : list (Z * list string))
    : list (Z * Update) :=
  (fun e => (e.1, Photo (Some uid) e.2 (Some g))) <$> burst.

(** Each message arrives no earlier than the one before it and less than
    the timer delay after it. *)
Fixpoint closelySpaced (arrivals : list Z) : Prop :=
  match arrivals with
  | t :: (t' :: _) as rest => (t <= t' < t + ALBUM_DELAY) ∧ closelySpaced rest
  | _ => True
  end.

Definition isTextPrompt (n : Notice) : bool :=
  match n with
  | TextPromptAfterAlbum | TextPromptAfterPhoto => true
  | _ => false
  end.

(** The requests for text a chat has received.  Both places that set
    [draft.step = "await_text"] send one, so there is one per move of a
    draft of that chat to [await_text]. *)
Definition textPrompts (uid : Z) (s : State) : list Reply :=
  filter (fun rp => chat rp = uid ∧ isTextPrompt (notice rp) = true) (replies s).

Definition freshDraft : BroadcastDraft :=
  {| step := await_photos; photoFileIds := []; text := None;
     mediaGroupId := None; mediaGroupTimer := None |}.

(** The message carries a photo the handler can take. *)
Definition readable (e : Z * list string) : Prop :=
  truthy_string (largest e.2) = true.

Section AlbumView.
Context (uid : Z) (r : nat) (g : string) (base : list Reply).

(** A timer of another draft, replying to another chat. *)
Definition foreign (tm : Timer) : Prop := draftRef tm ≠ r ∧ timerChat tm ≠ uid.

Definition albumDraft (st : Step) (photos : list string) (h : nat) : BroadcastDraft :=
  {| step := st; photoFileIds := photos; text := None;
     mediaGroupId := Some g; mediaGroupTimer := Some h |}.

Definition albumTimer (h : nat) (d : Z) : Timer :=
  {| handle := h; due := d; draftRef := r; timerChat := uid |}.

(** The draft was just opened by the text command. *)
Definition opened (s : State) : Prop :=
  broadcastDrafts s !! uid = Some r
  ∧ heap s !! r = Some freshDraft
  ∧ Forall (fun tm => foreign tm ∧ (handle tm < nextHandle s)%nat) (timers s)
  ∧ textPrompts uid s = base.

(** The draft is collecting an album: its timer is pending, due at [d]. *)
Definition collecting (photos : list string) (d : Z) (s : State) : Prop :=
  photos ≠ []
  ∧ broadcastDrafts s !! uid = Some r
  ∧ ∃ h others,
      heap s !! r = Some (albumDraft await_photos photos h)
      ∧ timers s = others ++ [albumTimer h d]
      ∧ Forall (fun tm => foreign tm ∧ (handle tm < h)%nat) others
      ∧ (h < nextHandle s)%nat
      ∧ textPrompts uid s = base.

(** The timer fired at [d]: the draft awaits its text. *)
Definition settled (photos : list string) (d : Z) (s : State) : Prop :=
  broadcastDrafts s !! uid = Some r
  ∧ ∃ h,
      heap s !! r = Some (albumDraft await_text photos h)
      ∧ Forall foreign (timers s)
      ∧ textPrompts uid s
        = base ++ [{| sentAt := d; chat := uid; notice := TextPromptAfterAlbum |}].

(** What of the state matters to the draft, unchanged from [s] to [s']. *)
Definition untouched (s s' : State) : Prop :=
  broadcastDrafts s' = broadcastDrafts s
  ∧ heap s' !! r = heap s !! r
  ∧ timers s' = timers s
  ∧ nextHandle s' = nextHandle s
  ∧ textPrompts uid s' = textPrompts uid s.

End AlbumView.

(** Sample data: three recipients, and an operator (id 7) who opens a
    draft and sends an album. *)
Definition ann : Recipient :=
  {| chatId := Some 11; telegramId := Some 11; firstName := Some "Ann"; lastName := None |}.
Definition bob : Recipient :=
  {| chatId := Some 12; telegramId := Some 12; firstName := Some "Bob"; lastName := Some "Low" |}.
Definition cy : Recipient :=
  {| chatId := None; telegramId := Some 13; firstName := Some "Cy"; lastName := None |}.

Definition albumPhoto (t : Z) (fileId : string) : Z * Update :=
  (t, Photo (Some 7) ["small"; fileId] (Some "album-1")).

Definition albumOfThree : list (Z * Update) :=
  [(0, TextCommand (Some 7) true);
   albumPhoto 10 "a"; albumPhoto 110 "b"; albumPhoto 210 "c"].

Definition albumOfFour : list (Z * Update) :=
  albumOfThree ++ [albumPhoto 310 "d"].

(** The same albums as bursts, and the state the text command leaves. *)
Definition burstOfThree : list (Z * list string) :=
  [(10, ["small"; "a"]); (110, ["small"; "b"]); (210, ["small"; "c"])].

Definition burstOfFour : list (Z * list string) :=
  burstOfThree ++ [(310, ["small"; "d"])].

Definition openedState : State :=
  runTimeline [(0, TextCommand (Some 7) true)] startState.

End Bot.

(** ** Mini-app routes: the attachment views *)

Module Miniapp.
Import Js.

(** A value found in [req.query], [req.body] or a header. *)
Inductive Field : Type :=
| Absent
| NumberField (n : option Z)   (* [None]: [NaN] or an infinity *)
| StringField (s : string)
| OtherField.

(** What the routes read of a request.  [initDataId] is the answer of
    [resolveInitDataTelegramId] (the signed init data, checked with the bot
    token); [findRejected] tells whether [findById] throws. *)
Record Request : Type := {
  params_id : string;
  initDataId : option Z;
  query_telegramId : Field;
  body_telegramId : Field;
  header_telegramId : Field;
  findRejected : bool
}.

(** The columns the file routes select of an order. *)
Record OrderDoc : Type := {
  telegramUserId : Z;
  attachmentUrl : option string;
  attachmentFileName : option string
}.

(** [TrainingFileViewData] *)
Record ViewData : Type := {
  error : string;
  fileName : string;
  vd_attachmentUrl : string;
  sheetName : string;
  header : list string;
  rows : list (list string)
}.

(** What [fs.readFile] and [XLSX.read] make of a stored file. *)
Inductive Workbook : Type :=
| Unreadable
| NoSheet (name : option string)
| Sheet (name : string) (cells : list (list string)).

Record Response : Type := {
  status : Z;
  view : string;
  telegramId : option Z;
  locals : ViewData
}.

Section Routes.
(** [Number(s)] on a string ([None]: not a finite number),
    [path.basename], and the files under [public/uploads]. *)
Variable Number : string -> option Z.
Variable basename : string -> string.
Variable readWorkbook : string -> Workbook.

(** [parseTelegramId(value)] *)
Definition parseTelegramId (value : Field) : option Z :=
  match value with
  | NumberField n => n
  | StringField s => if truthy_string (trim s) then Number s else None
  | _ => None
  end.

(** [a ?? b] *)
Definition orElse {A} (a b : option A) : option A :=
  match a with Some _ => a | None => b end.

(** [resolveTelegramUserId(req)] *)
Definition resolveTelegramUserId (req : Request) : option Z :=
  match initDataId req with
  | Some initDataId =>
      if truthy_number initDataId then Some initDataId
      else orElse (parseTelegramId (query_telegramId req))
             (orElse (parseTelegramId (body_telegramId req))
                     (parseTelegramId (header_telegramId req)))
  | None =>
      orElse (parseTelegramId (query_telegramId req))
        (orElse (parseTelegramId (body_telegramId req))
                (parseTelegramId (header_telegramId req)))
  end.

Definition blankView (message : string) : ViewData :=
  {| error := message; fileName := ""; vd_attachmentUrl := "";
     sheetName := ""; header := []; rows := [] |}.

Definition padRow (width : nat) (row : list string) : list string :=
  if bool_decide (width ≤ length row)%nat then row
  else row ++ replicate (width - length row) "".

(** [buildTrainingFileViewData(order)] *)
Definition buildTrainingFileViewData (order : option OrderDoc) : ViewData :=
  match order with
  | None => blankView "Файл не найден."
  | Some order =>
      match attachmentUrl order with
      | None => blankView "Файл не найден."
      | Some url =>
          if negb (truthy_string url) then blankView "Файл не найден."
          else
            let storedName := basename url in
            let shownName :=
              or_string (default "" (attachmentFileName order)) storedName in
            match readWorkbook storedName with
            | Unreadable =>
                {| error := "Не удалось открыть файл."; fileName := shownName;
                   vd_attachmentUrl := url; sheetName := "";
                   header := []; rows := [] |}
            | NoSheet name =>
                {| error := "Лист Excel не найден."; fileName := shownName;
                   vd_attachmentUrl := url;
                   sheetName := or_string (default "" name) "";
                   header := []; rows := [] |}
            | Sheet name cells =>
                let maxColumns := foldl (fun m row => Nat.max m (length row)) 0%nat cells in
                let normalized := padRow maxColumns <$> cells in
                {| error := ""; fileName := shownName;
                   vd_attachmentUrl := url; sheetName := or_string name "";
                   header := default [] (head normalized);
                   rows := tail normalized |}
            end
      end
  end.

(** The body shared by [GET /miniapp/trainings/:id/file] and
    [GET /miniapp/nutrition/:id/file], which differ in the collection
    read and the template rendered. *)
Definition fileRoute (template : string) (orders : gmap string OrderDoc)
    (req : Request) : Response :=
  if findRejected req then
    {| status := 500; view := template;
       telegramId := resolveTelegramUserId req;
       locals := blankView "Не удалось открыть файл." |}
  else
    let telegramId := resolveTelegramUserId req in
    match orders !! params_id req with
    | None =>
        {| status := 404; view := template; telegramId := telegramId;
           locals := buildTrainingFileViewData None |}
    | Some order =>
        let denied :=
          match telegramId with
          | Some id => truthy_number id && negb (bool_decide (telegramUserId order = id))
          | None => false
          end in
        if denied then
          {| status := 403; view := template; telegramId := telegramId;
             locals := blankView "Нет доступа к этому файлу." |}
        else
          let viewData := buildTrainingFileViewData (Some order) in
          {| status := if truthy_string (error viewData) then 404 else 200;
             view := template; telegramId := telegramId; locals := viewData |}
    end.

(** [GET /miniapp/trainings/:id/file] *)
Definition trainings_file (Order : gmap string OrderDoc) (req : Request) : Response :=
  fileRoute "miniapp/training-file" Order req.

(** [GET /miniapp/nutrition/:id/file] *)
Definition nutrition_file (NutritionOrder : gmap string OrderDoc) (req : Request) : Response :=
  fileRoute "miniapp/nutrition-file" NutritionOrder req.

End Routes.

(** Sample data: decimal [Number], a one-sheet upload, an anonymous
    request and a request of user 42. *)
Definition sampleNumber (s : string) : option Z :=
  if bool_decide (s = "42") then Some 42
  else if bool_decide (s = "7") then Some 7 else None.

Definition sampleBasename (s : string) : string :=
  if bool_decide (s = "/uploads/plan.xlsx") then "plan.xlsx" else s.

Definition sampleWorkbook (s : string) : Workbook :=
  if bool_decide (s = "plan.xlsx") then Sheet "Week 1" [["Day"; "Load"]; ["Mon"]]
  else Unreadable.

Definition sampleOrders : gmap string OrderDoc :=
  {[ "o1" := {| telegramUserId := 7; attachmentUrl := Some "/uploads/plan.xlsx";
                attachmentFileName := Some "Plan.xlsx" |} ]}.

Definition anonymousRequest : Request :=
  {| params_id := "o1"; initDataId := None; query_telegramId := Absent;
     body_telegramId := Absent; header_telegramId := Absent; findRejected := false |}.

Definition strangerRequest : Request :=
  {| params_id := "o1"; initDataId := None; query_telegramId := StringField "42";
     body_telegramId := Absent; header_telegramId := Absent; findRejected := false |}.

End Miniapp.

(** ** Admin routes: order decisions and the user refresh *)

Module Admin.
Import Js.

(** The fields of an order that the decision routes read or write. *)
Record OrderDoc : Type := {
  _id : string;
  status : string;
  telegramUserId : Z;
  adminTelegramId : option Z;
  decisionAt : option Z;
  completedAt : option Z;
  trainingDate : option Z;
  attachmentUrl : option string;
  attachmentFileName : option string;
  attachmentMimeType : option string
}.

Record UserDoc : Type := { telegramId : Z; trainingStatus : string }.

Record Db : Type := { orders : list OrderDoc; users : list UserDoc }.

(** What [saveAttachment] returns. *)
Record Saved : Type := {
  savedUrl : string;
  savedFileName : string;
  savedMimeType : string
}.

(** What the routes read of a request, with the answers of the helpers
    they call: [resolveAdminTelegramId], [isExcelAttachment],
    [saveAttachment] (which throws on an empty or oversized file), and
    whether the [findOneAndUpdate] call and the [User.updateOne] call that
    follows it are rejected. *)
Record Request : Type := {
  params_id : string;
  resolvedAdminTelegramId : option Z;
  now : Z;
  body_trainingDate : option Z;
  attachmentData : string;
  excelAttachment : bool;
  saveAttachment : completion Saved;
  updateRejected : bool;
  userUpdateRejected : bool
}.

Record Response : Type := { code : Z; message : string }.

(** [Order.findOneAndUpdate(filter, update, { new: true })]: the first
    document the filter selects is updated and returned. *)
Fixpoint findOneAndUpdate (selects : OrderDoc -> bool) (update : OrderDoc -> OrderDoc)
    (docs : list OrderDoc) : option OrderDoc * list OrderDoc :=
  match docs with
  | [] => (None, [])
  | d :: rest =>
      if selects d then (Some (update d), update d :: rest)
      else
        let '(found, rest') := findOneAndUpdate selects update rest in
        (found, d :: rest')
  end.

(** The filter [{ _id: req.params.id, status: ... }] *)
Definition byIdAndStatus (id wanted : string) (d : OrderDoc) : bool :=
  bool_decide (_id d = id) && bool_decide (status d = wanted).

(** [User.updateOne({ telegramId }, { $set: { trainingStatus } })] *)
Fixpoint setTrainingStatus (id : Z) (value : string) (docs : list UserDoc) : list UserDoc :=
  match docs with
  | [] => []
  | u :: rest =>
      if bool_decide (telegramId u = id)
      then {| telegramId := telegramId u; trainingStatus := value |} :: rest
      else u :: setTrainingStatus id value rest
  end.

Definition truthy_id (o : option Z) : option Z :=
  match o with
  | Some id => if truthy_number id then Some id else None
  | None => None
  end.

Definition acceptUpdate (admin : Z) (req : Request) (saved : Saved) (d : OrderDoc) : OrderDoc :=
  {| _id := _id d; status := "accepted"; telegramUserId := telegramUserId d;
     adminTelegramId := Some admin; decisionAt := Some (now req);
     completedAt := completedAt d;
     trainingDate := match body_trainingDate req with
                     | Some date => Some date
                     | None => trainingDate d
                     end;
     attachmentUrl := Some (savedUrl saved);
     attachmentFileName := Some (savedFileName saved);
     attachmentMimeType := Some (savedMimeType saved) |}.

Definition declineUpdate (admin : Z) (req : Request) (d : OrderDoc) : OrderDoc :=
  {| _id := _id d; status := "declined"; telegramUserId := telegramUserId d;
     adminTelegramId := Some admin; decisionAt := Some (now req);
     completedAt := completedAt d; trainingDate := trainingDate d;
     attachmentUrl := attachmentUrl d;
     attachmentFileName := attachmentFileName d;
     attachmentMimeType := attachmentMimeType d |}.

Definition completeUpdate (admin : Z) (req : Request) (d : OrderDoc) : OrderDoc :=
  {| _id := _id d; status := "completed"; telegramUserId := telegramUserId d;
     adminTelegramId := Some admin; decisionAt := decisionAt d;
     completedAt := Some (now req); trainingDate := trainingDate d;
     attachmentUrl := attachmentUrl d;
     attachmentFileName := attachmentFileName d;
     attachmentMimeType := attachmentMimeType d |}.

(** The part the three routes share from [findOneAndUpdate] on: the
    guarded update, the 404 answer, the user's training status. *)
Definition decide_order (req : Request) (wanted : string)
    (update : OrderDoc -> OrderDoc) (userStatus answer notFound failure : string)
    (db : Db) : Response * Db :=
  if updateRejected req then ({| code := 500; message := failure |}, db)
  else
    match findOneAndUpdate (byIdAndStatus (params_id req) wanted) update (orders db) with
    | (None, _) => ({| code := 404; message := notFound |}, db)
    | (Some updated, orders') =>
        if userUpdateRejected req
        then ({| code := 500; message := failure |},
              {| orders := orders'; users := users db |})
        else
          ({| code := 200; message := answer |},
           {| orders := orders';
              users := setTrainingStatus (telegramUserId updated) userStatus (users db) |})
    end.

(** [POST /api/admin/requests/:id/accept] *)
Definition requests_accept (req : Request) (db : Db) : Response * Db :=
  match truthy_id (resolvedAdminTelegramId req) with
  | None => ({| code := 400; message := "adminTelegramId is required" |}, db)
  | Some admin =>
      if negb (truthy_string (attachmentData req))
      then ({| code := 400; message := "Excel file is required" |}, db)
      else if negb (excelAttachment req)
      then ({| code := 400; message := "Only .xls or .xlsx files are allowed" |}, db)
      else
        match saveAttachment req with
        | Thrown e =>
            ({| code := 500;
                message := match e with
                           | VError "Attachment too large" _ => "Attachment too large"
                           | _ => "Failed to accept request"
                           end |}, db)
        | Normal saved =>
            decide_order req "pending" (acceptUpdate admin req saved)
              "active" "accepted" "Request not found" "Failed to accept request" db
        end
  end.

(** [POST /api/admin/requests/:id/decline] *)
Definition requests_decline (req : Request) (db : Db) : Response * Db :=
  match truthy_id (resolvedAdminTelegramId req) with
  | None => ({| code := 400; message := "adminTelegramId is required" |}, db)
  | Some admin =>
      decide_order req "pending" (declineUpdate admin req)
        "declined" "declined" "Request not found" "Failed to decline request" db
  end.

(** [POST /api/admin/trainings/:id/complete] *)
Definition trainings_complete (req : Request) (db : Db) : Response * Db :=
  match truthy_id (resolvedAdminTelegramId req) with
  | None => ({| code := 400; message := "adminTelegramId is required" |}, db)
  | Some admin =>
      decide_order req "accepted" (completeUpdate admin req)
        "completed" "completed" "Training not found" "Failed to complete training" db
  end.

(** The three decision routes. *)
Inductive Decision : Type := Accept | Decline | Complete.

Definition route (d : Decision) : Request -> Db -> Response * Db :=
  match d with
  | Accept => requests_accept
  | Decline => requests_decline
  | Complete => trainings_complete
  end.

(** The status a route asks of the order, and the one it sets. *)
Definition wantedStatus (d : Decision) : string :=
  match d with Accept | Decline => "pending" | Complete => "accepted" end.

Definition newStatus (d : Decision) : string :=
  match d with Accept => "accepted" | Decline => "declined" | Complete => "completed" end.

(** The request gets as far as [findOneAndUpdate], and the call is not
    rejected. *)
Definition reachesUpdate (d : Decision) (req : Request) : Prop :=
  (∃ admin, truthy_id (resolvedAdminTelegramId req) = Some admin)
  ∧ updateRejected req = false
  ∧ (d = Accept →
       truthy_string (attachmentData req) = true ∧ excelAttachment req = true
       ∧ ∃ saved, saveAttachment req = Normal saved).

(** [POST /api/admin/users/refresh]: what happens to one user.  The chat
    lookup or the update may throw, or the lookup may come back without a
    result. *)
Inductive RefreshOutcome : Type := LookupThrows | LookupEmpty | UpdateThrows | Refreshed.

Record RefreshTurn : Type := { userTelegramId : option Z; outcome : RefreshOutcome }.

(** The body of the refresh loop on [(updatedCount, failedCount)]. *)
Definition refreshOne (counts : nat * nat) (u : RefreshTurn) : nat * nat :=
  match truthy_id (userTelegramId u) with
  | None => counts
  | Some _ =>
      match outcome u with
      | Refreshed => (S counts.1, counts.2)
      | _ => (counts.1, S counts.2)
      end
  end.

Record RefreshReport : Type := { processed : nat; updated : nat; failed : nat }.

Definition users_refresh (users : list RefreshTurn) : RefreshReport :=
  let counts := foldl refreshOne (0%nat, 0%nat) users in
  {| processed := length users; updated := counts.1; failed := counts.2 |}.

(** Sample data. *)
Definition pendingOrder : OrderDoc :=
  {| _id := "o1"; status := "pending"; telegramUserId := 7; adminTelegramId := None;
     decisionAt := None; completedAt := None; trainingDate := None;
     attachmentUrl := None; attachmentFileName := None; attachmentMimeType := None |}.

Definition sampleDb : Db :=
  {| orders := [pendingOrder]; users := [{| telegramId := 7; trainingStatus := "requested" |}] |}.

Definition sampleRequest (id : string) : Request :=
  {| params_id := id; resolvedAdminTelegramId := Some 1; now := 100;
     body_trainingDate := None; attachmentData := "data:application/vnd.ms-excel;base64,0M8R4A==";
     excelAttachment := true;
     saveAttachment := Normal {| savedUrl := "/uploads/training-1.xls";
                                 savedFileName := "plan.xls";
                                 savedMimeType := "application/vnd.ms-excel" |};
     updateRejected := false; userUpdateRejected := false |}.

End Admin.

Module LedgerViews.
Import Js Eff Mongo Ledger.

(** The document a [logAppError] call stores when its [create] goes
    through. *)
Definition loggedDoc (env : Env) (message : string) (error : value)
    (context : LogContext) (db : Db) : Doc AppErrorFields :=
  mkDoc (nextId db) (now env) (buildPayload message (stackOf error) context).

(** The last [n] elements of a list. *)
Definition lastN {A} (n : nat) (l : list A) : list A := drop (length l - n) l.

Definition created_lt {P} (a b : Doc P) : Prop := createdAt a < createdAt b.

Definition created_ge {P} (a b : Doc P) : Prop := createdAt b <= createdAt a.

#[export] Instance created_ge_dec {P} : RelDecision (@created_ge P).
Proof. intros a b. unfold created_ge. apply _. Defined.

(** [GET /api/admin/errors]:
    [AppError.find().sort({ createdAt: -1 }).limit(100).lean()] *)
Definition errors_items (db : Db) : Coll AppErrorFields :=
  take 100 (merge_sort created_ge (appErrors db)).

(** The text [logAppError] stores as the message of an error. *)
Definition messageText (error : value) : string :=
  match messageOf error with Normal m => m | Thrown _ => "" end.

(** The documents a run of calls stores, with identifiers from [next]
    on. *)
Fixpoint loggedDocs (next : nat) (calls : list LogCall) : Coll AppErrorFields :=
  match calls with
  | [] => []
  | c :: rest =>
      mkDoc next (now (lc_env c))
        (buildPayload (messageText (lc_error c)) (stackOf (lc_error c)) (lc_context c))
      :: loggedDocs (S next) rest
  end.

(** The clock readings of the stored documents and of the calls that
    follow, in order. *)
Definition stamps (db : Db) (calls : list LogCall) : list Z :=
  (createdAt <$> appErrors db) ++ ((fun c => now (lc_env c)) <$> calls).

End LedgerViews.


Module BotViews.
Import Js Eff Mongo Ledger Bot.

(** How the delivery loop fares with one recipient: [None] when it is
    skipped for want of a chat, otherwise whether the send went through. *)
Definition sendOutcome (photoFileIds : list string) (text : string)
    (a : Attempt) : option bool :=
  match chatId (recipient a) with
  | Some chatId =>
      if truthy_number chatId then
        Some (match sendBroadcastToChat chatId photoFileIds text (rejected a) with
              | Normal _ => true
              | Thrown _ => false
              end)
      else None
  | None => None
  end.

(** The test [broadcast_send] makes of a draft:
    [draft.step === "preview" && draft.text]. *)
Definition readyToSend (d : BroadcastDraft) : bool :=
  bool_decide (step d = preview)
  && match text d with Some t => truthy_string t | None => false end.

(** What every draft object satisfies: at most three photos, at least one
    once photos are no longer awaited, and a text once in preview. *)
Definition draftOk (d : BroadcastDraft) : Prop :=
  (length (photoFileIds d) ≤ MAX_BROADCAST_PHOTOS)%nat
  ∧ (step d ≠ await_photos → photoFileIds d ≠ [])
  ∧ (step d = preview → ∃ t, text d = Some t ∧ truthy_string t = true).

Definition draftsOk (s : State) : Prop :=
  ∀ ref d, heap s !! ref = Some d → draftOk d.

(** Every operator's draft is an object of its own, allocated earlier. *)
Definition refsOk (s : State) : Prop :=
  ∀ u r, broadcastDrafts s !! u = Some r →
    (r < nextRef s)%nat ∧ ∀ u', broadcastDrafts s !! u' = Some r → u' = u.

(** The operator an update comes from. *)
Definition sender (u : Update) : option Z :=
  match u with
  | TextCommand from _ | Photo from _ _ | Text from _
  | CancelAction from | SendAction from _ _ => from
  end.

(** From [s] to [s'] the drafts map is the same and no draft object other
    than [ref] was written. *)
Definition touchesOnly (ref : nat) (s s' : State) : Prop :=
  broadcastDrafts s' = broadcastDrafts s
  ∧ nextRef s' = nextRef s
  ∧ ∀ r, r ≠ ref → heap s' !! r = heap s !! r.

(** The draft of [uid] is the object [r], in step [st] with [photos] and
    [txt], and the timer of its album is still pending, due at [d]. *)
Definition timerPending (uid : Z) (r : nat) (g : string) (st : Step)
    (photos : list string) (txt : option string) (d : Z)
    (prompts : list Reply) (s : State) : Prop :=
  photos ≠ []
  ∧ broadcastDrafts s !! uid = Some r
  ∧ ∃ h others,
      heap s !! r = Some {| step := st; photoFileIds := photos; text := txt;
                            mediaGroupId := Some g; mediaGroupTimer := Some h |}
      ∧ timers s = others ++ [albumTimer uid r h d]
      ∧ Forall (foreign uid r) others
      ∧ textPrompts uid s = prompts.

(** Two photos of one album, after the command. *)
Definition albumOfTwo : list (Z * Update) :=
  [(0, TextCommand (Some 7) true); albumPhoto 10 "a"; albumPhoto 110 "b"].

End BotViews.


(** ** Data URLs of uploaded attachments *)

Module DataUrl.
Import Js.

(** [s.startsWith(p)] *)
Fixpoint startsWith (p s : string) : bool :=
  match p, s with
  | EmptyString, _ => true
  | String a p', String b s' => bool_decide (a = b) && startsWith p' s'
  | String _ _, EmptyString => false
  end.

(** [s.indexOf(c)] for a single character; [None] is [-1]. *)
Fixpoint indexOf (c : Ascii.ascii) (s : string) : option nat :=
  match s with
  | EmptyString => None
  | String a rest =>
      if bool_decide (a = c) then Some 0%nat else S <$> indexOf c rest
  end.

Fixpoint dropChars (n : nat) (s : string) : string :=
  match n, s with
  | O, _ => s
  | S n', String _ rest => dropChars n' rest
  | S _, EmptyString => EmptyString
  end.

Fixpoint takeChars (n : nat) (s : string) : string :=
  match n, s with
  | S n', String a rest => String a (takeChars n' rest)
  | _, _ => EmptyString
  end.

(** [s.slice(from, to)] and [s.slice(from)], on indices within [s]. *)
Definition slice (from to : nat) (s : string) : string :=
  takeChars (to - from) (dropChars from s).

Definition sliceFrom (from : nat) (s : string) : string := dropChars from s.

(** [s.split(c)] for a single character: the pieces between the
    separators, empty ones included. *)
Fixpoint split (c : Ascii.ascii) (s : string) : list string :=
  match s with
  | EmptyString => [EmptyString]
  | String a rest =>
      if bool_decide (a = c) then EmptyString :: split c rest
      else
        match split c rest with
        | piece :: pieces => String a piece :: pieces
        | [] => [String a EmptyString]
        end
  end.

Record Parsed : Type := { mimeType : option string; base64 : option string }.

(** [parseDataUrl(data)] *)
Definition parseDataUrl (data : option string) : Parsed :=
  match data with
  | None => {| mimeType := None; base64 := None |}
  | Some data =>
      if negb (truthy_string data) || negb (startsWith "data:" data)
      then {| mimeType := None; base64 := None |}
      else
        match indexOf ","%char data with
        | None => {| mimeType := None; base64 := None |}
        | Some commaIndex =>
            let meta := slice 5 commaIndex data in
            let base64 := sliceFrom (commaIndex + 1) data in
            let metaParts := filter (fun part => truthy_string part = true)
                               (split ";"%char meta) in
            let mimeType := head metaParts in
            let isBase64 := bool_decide ("base64" ∈ metaParts) in
            {| mimeType := match mimeType with
                           | Some m => if truthy_string m then Some m else None
                           | None => None
                           end;
               base64 := if isBase64 then Some base64 else None |}
        end
  end.

(** The characters of [s] are all other than [c]. *)
Fixpoint free (c : Ascii.ascii) (s : string) : Prop :=
  match s with
  | EmptyString => True
  | String a rest => a ≠ c ∧ free c rest
  end.

(** A data URL: [data:] and the [;]-separated parts of the meta section,
    a comma, the payload. *)
Definition dataUrl (parts : list string) (payload : string) : string :=
  "data:" +:+ join ";" parts +:+ "," +:+ payload.

End DataUrl.


Module MiniappViews.

(** [rows.reduce((max, row) => Math.max(max, row.length), 0)] *)
Definition maxColumns (cells : list (list string)) : nat :=
  foldl (fun m row => Nat.max m (length row)) 0%nat cells.

End MiniappViews.


Module AdminViews.
Import Js Admin.

(** The training status a route gives the user of the order. *)
Definition userStatus (d : Decision) : string :=
  match d with Accept => "active" | Decline => "declined" | Complete => "completed" end.

(** The orders with a given id. *)
Definition ordersWithId (id : string) (db : Db) : list OrderDoc :=
  filter (fun o => _id o = id) (orders db).

(** The users that carry a Telegram id and whose refresh ends in [o]. *)
Definition turnsEnding (ends : RefreshOutcome → bool) (users : list RefreshTurn) :
    list RefreshTurn :=
  filter (fun u => is_Some (truthy_id (userTelegramId u)) ∧ ends (outcome u) = true) users.

Definition isRefreshed (o : RefreshOutcome) : bool :=
  match o with Refreshed => true | _ => false end.

(** The sample request, with the user update failing. *)
Definition halfFailingRequest (id : string) : Request :=
  {| params_id := id; resolvedAdminTelegramId := Some 1; now := 100;
     body_trainingDate := None; attachmentData := "data:application/vnd.ms-excel;base64,0M8R4A==";
     excelAttachment := true;
     saveAttachment := Normal {| savedUrl := "/uploads/training-1.xls";
                                 savedFileName := "plan.xls";
                                 savedMimeType := "application/vnd.ms-excel" |};
     updateRejected := false; userUpdateRejected := true |}.

End AdminViews.


(** ** Admin routes: deleting a training *)

Module Trainings.
Import Js Admin.

(** The awaited calls of the route, in their order; one of them may be
    rejected. *)
Inductive DeleteStep : Type := FindOrder | DeleteOrder | FindRemaining | UpdateUser.

#[export] Instance DeleteStep_eq_dec : EqDecision DeleteStep.
Proof. solve_decision. Defined.

Record DeleteRequest : Type := {
  delete_id : string;
  delete_admin : option Z;            (* [resolveAdminTelegramId(req)] *)
  delete_rejected : option DeleteStep
}.

(** The filter [{ _id, $or: [{ adminTelegramId }, { adminTelegramId:
    { $exists: false } }, { adminTelegramId: null }] }] *)
Definition mayDelete (id : string) (admin : Z) (o : OrderDoc) : bool :=
  bool_decide (_id o = id)
  && match adminTelegramId o with
     | Some assigned => bool_decide (assigned = admin)
     | None => true
     end.

(** [Order.findOne(filter)] *)
Fixpoint findOne (selects : OrderDoc -> bool) (docs : list OrderDoc) : option OrderDoc :=
  match docs with
  | [] => None
  | d :: rest => if selects d then Some d else findOne selects rest
  end.

(** [Order.deleteOne({ _id })] *)
Fixpoint deleteOne (id : string) (docs : list OrderDoc) : list OrderDoc :=
  match docs with
  | [] => []
  | d :: rest => if bool_decide (_id d = id) then rest else d :: deleteOne id rest
  end.

(** [remaining.find((item) => item.status === wanted)?.status], as a
    condition *)
Definition hasStatus (wanted : string) (remaining : list OrderDoc) : bool :=
  match findOne (fun item => bool_decide (status item = wanted)) remaining with
  | Some item => truthy_string (status item)
  | None => false
  end.

Definition nextStatus (remaining : list OrderDoc) : string :=
  if hasStatus "accepted" remaining then "active"
  else if hasStatus "pending" remaining then "requested"
  else if hasStatus "completed" remaining then "completed"
  else if hasStatus "declined" remaining then "declined"
  else "none".

Definition deleteFailed : Response :=
  {| code := 500; message := "Failed to delete training" |}.

(** [POST /api/admin/trainings/:id/delete].  [removeAttachmentFile]
    unlinks the stored file and swallows what [unlink] throws; it reads
    and writes nothing of the two collections. *)
Definition trainings_delete (req : DeleteRequest) (db : Db) : Response * Db :=
  match truthy_id (delete_admin req) with
  | None => ({| code := 400; message := "adminTelegramId is required" |}, db)
  | Some admin =>
      if bool_decide (delete_rejected req = Some FindOrder) then (deleteFailed, db)
      else
        match findOne (mayDelete (delete_id req) admin) (orders db) with
        | None => ({| code := 404; message := "Training not found" |}, db)
        | Some order =>
            if bool_decide (delete_rejected req = Some DeleteOrder)
            then (deleteFailed, db)
            else
              let db1 := {| orders := deleteOne (delete_id req) (orders db);
                            users := users db |} in
              if bool_decide (delete_rejected req = Some FindRemaining)
              then (deleteFailed, db1)
              else
                let remaining :=
                  filter (fun o => telegramUserId o = telegramUserId order) (orders db1) in
                if bool_decide (delete_rejected req = Some UpdateUser)
                then (deleteFailed, db1)
                else
                  ({| code := 200; message := "deleted" |},
                   {| orders := orders db1;
                      users := setTrainingStatus (telegramUserId order)
                                 (nextStatus remaining) (users db1) |})
        end
  end.

(** Sample data: an order assigned to admin 1 beside a pending one. *)
Definition assignedOrder : OrderDoc :=
  {| _id := "o2"; status := "accepted"; telegramUserId := 8; adminTelegramId := Some 1;
     decisionAt := Some 50; completedAt := None; trainingDate := None;
     attachmentUrl := Some "/uploads/training-0.xls";
     attachmentFileName := Some "old.xls";
     attachmentMimeType := Some "application/vnd.ms-excel" |}.

Definition twoOrders : Db :=
  {| orders := [pendingOrder; assignedOrder];
     users := [{| telegramId := 7; trainingStatus := "requested" |};
               {| telegramId := 8; trainingStatus := "active" |}] |}.

Definition deleteBy (admin : Z) (id : string) : DeleteRequest :=
  {| delete_id := id; delete_admin := Some admin; delete_rejected := None |}.

End Trainings.


Module JsViews.

(** A string that does not begin with white space. *)
Definition headOk (s : string) : Prop :=
  match s with
  | EmptyString => True
  | String a _ => Ascii.is_space a = false
  end.

End JsViews.


(** ** Admin routes: training goals *)

Module Goals.
Import Js.

(** A [TrainingGoal] document.  The schema trims [title] and keeps it
    unique, and fills in [isActive: true] and [sortOrder: 0]. *)
Record GoalDoc : Type := {
  goal_id : nat;
  title : string;
  isActive : bool;
  sortOrder : Z;
  goalCreatedAt : Z
}.

Record GoalDb : Type := { goals : list GoalDoc; nextGoalId : nat }.

(** The awaited calls of the two routes; one of them may be rejected,
    with the [code] of the error if it has one. *)
Inductive GoalStep : Type := FindGoal | SaveGoal | CreateGoal.

#[export] Instance GoalStep_eq_dec : EqDecision GoalStep.
Proof. solve_decision. Defined.

Record Fault : Type := { failing : GoalStep; errorCode : option Z }.

Inductive Answer : Type :=
| Json (code : Z) (id : nat) (shown : string)
| Message (code : Z) (message : string)
| NoContent.

Definition rejectedAt (step : GoalStep) (fault : option Fault) : option Fault :=
  match fault with
  | Some f => if bool_decide (failing f = step) then Some f else None
  | None => None
  end.

(** [TrainingGoal.findOne({ title })] *)
Fixpoint findByTitle (wanted : string) (docs : list GoalDoc) : option GoalDoc :=
  match docs with
  | [] => None
  | g :: rest => if bool_decide (title g = wanted) then Some g else findByTitle wanted rest
  end.

(** [TrainingGoal.findById(id)] *)
Fixpoint findById (id : nat) (docs : list GoalDoc) : option GoalDoc :=
  match docs with
  | [] => None
  | g :: rest => if bool_decide (goal_id g = id) then Some g else findById id rest
  end.

Definition withActive (active : bool) (g : GoalDoc) : GoalDoc :=
  {| goal_id := goal_id g; title := title g; isActive := active;
     sortOrder := sortOrder g; goalCreatedAt := goalCreatedAt g |}.

(** [doc.save()] after [doc.isActive = active]: the stored document of
    that id takes the new flag. *)
Fixpoint saveActive (id : nat) (active : bool) (docs : list GoalDoc) : list GoalDoc :=
  match docs with
  | [] => []
  | g :: rest =>
      if bool_decide (goal_id g = id) then withActive active g :: rest
      else g :: saveActive id active rest
  end.

(** The [catch] clause of the POST route. *)
Definition createFailed (f : Fault) : Answer :=
  match errorCode f with
  | Some code =>
      if code =? 11000 then Message 409 "Goal already exists"
      else Message 500 "Failed to create goal"
  | None => Message 500 "Failed to create goal"
  end.

(** [POST /api/admin/goals]; [body_title] is [Some] for a string. *)
Definition goals_post (now : Z) (body_title : option string) (fault : option Fault)
    (db : GoalDb) : Answer * GoalDb :=
  let title_ := match body_title with Some t => trim t | None => "" end in
  if negb (truthy_string title_) then (Message 400 "Title is required", db)
  else
    match rejectedAt FindGoal fault with
    | Some f => (createFailed f, db)
    | None =>
        match findByTitle title_ (goals db) with
        | Some existing =>
            if isActive existing then (Message 409 "Goal already exists", db)
            else
              match rejectedAt SaveGoal fault with
              | Some f => (createFailed f, db)
              | None =>
                  (Json 200 (goal_id existing) title_,
                   {| goals := saveActive (goal_id existing) true (goals db);
                      nextGoalId := nextGoalId db |})
              end
        | None =>
            match rejectedAt CreateGoal fault with
            | Some f => (createFailed f, db)
            | None =>
                let created :=
                  {| goal_id := nextGoalId db; title := trim title_; isActive := true;
                     sortOrder := 0; goalCreatedAt := now |} in
                (Json 201 (goal_id created) (title created),
                 {| goals := goals db ++ [created]; nextGoalId := S (nextGoalId db) |})
            end
        end
    end.

(** [req.params.id] of the DELETE route: empty, not an ObjectId (on which
    [findById] throws a cast error), or an id. *)
Inductive GoalParam : Type := EmptyParam | Malformed | GoalId (id : nat).

(** [DELETE /api/admin/goals/:id] *)
Definition goals_delete (param : GoalParam) (fault : option Fault) (db : GoalDb) :
    Answer * GoalDb :=
  match param with
  | EmptyParam => (Message 400 "Goal id is required", db)
  | Malformed => (Message 500 "Failed to delete goal", db)
  | GoalId id =>
      match rejectedAt FindGoal fault with
      | Some _ => (Message 500 "Failed to delete goal", db)
      | None =>
          match findById id (goals db) with
          | None => (Message 404 "Goal not found", db)
          | Some goal =>
              match rejectedAt SaveGoal fault with
              | Some _ => (Message 500 "Failed to delete goal", db)
              | None =>
                  (NoContent,
                   {| goals := saveActive (goal_id goal) false (goals db);
                      nextGoalId := nextGoalId db |})
              end
          end
      end
  end.

(** The order [.sort({ sortOrder: 1, createdAt: 1 })] asks for. *)
Definition goal_le (a b : GoalDoc) : Prop :=
  sortOrder a < sortOrder b
  ∨ (sortOrder a = sortOrder b ∧ goalCreatedAt a <= goalCreatedAt b).

#[export] Instance goal_le_dec : RelDecision goal_le.
Proof. intros a b. unfold goal_le. apply _. Defined.

(** [GET /api/admin/goals]: the [items] of the answer. *)
Definition goals_list (db : GoalDb) : list (nat * string) :=
  (fun goal => (goal_id goal, title goal))
    <$> merge_sort goal_le (filter (fun g => isActive g = true) (goals db)).

(** The requests of the two writing routes, and a run of them. *)
Inductive GoalRequest : Type :=
| PostGoal (now : Z) (body_title : option string) (fault : option Fault)
| DeleteGoal (param : GoalParam) (fault : option Fault).

Definition goals_route (r : GoalRequest) (db : GoalDb) : Answer * GoalDb :=
  match r with
  | PostGoal now body_title fault => goals_post now body_title fault db
  | DeleteGoal param fault => goals_delete param fault db
  end.

Definition goals_run (rs : list GoalRequest) (db : GoalDb) : GoalDb :=
  foldl (fun db r => (goals_route r db).2) db rs.

Definition noGoals : GoalDb := {| goals := []; nextGoalId := 0 |}.

(** Titles and ids are unique, ids are below the next one, and titles
    are trimmed and not empty. *)
Definition goalsOk (db : GoalDb) : Prop :=
  NoDup (title <$> goals db)
  ∧ NoDup (goal_id <$> goals db)
  ∧ Forall (fun g => (goal_id g < nextGoalId db)%nat
                     ∧ truthy_string (title g) = true ∧ trim (title g) = title g)
      (goals db).

End Goals.


(** ** Mini-app routes: requesting a training *)

Module Orders.
Import Js Goals.

Section Numbers.
(** JavaScript numbers, with [a < b] on them and the numbers of the
    integer literals; [Number(s)] on a string, when the result is
    finite. *)
Context {num : Type}.
Variable below : num -> num -> bool.
Variable lit : Z -> num.
Variable Number : string -> option num.

(** A field of the body that the route reads as a number. *)
Inductive BodyValue : Type :=
| NumberValue (n : num)
| StringValue (s : string)
| OtherValue.

(** The fields read of [req.body]; a string field is [Some] when the
    value is a string.  [body_goal] is the ObjectId that [goalId] casts
    to in the goal query, [None] when the cast throws. *)
Record Body : Type := {
  body_fullName : option string;
  body_phoneNumber : option string;
  body_goal : option nat;
  body_age : BodyValue;
  body_heightCm : BodyValue;
  body_weightKg : BodyValue;
  body_medicalContraindications : option string
}.

Record UserDoc : Type := {
  telegramId : Z;
  isAdmin : bool;
  trainingStatus : option string;
  fullName : option string;
  phoneNumber : option string
}.

Record OrderDoc : Type := {
  order_id : nat;
  order_fullName : string;
  order_phoneNumber : string;
  telegramUserId : Z;
  goalId : nat;
  status : string;
  age : num;
  weightKg : num;
  heightCm : num;
  medicalContraindications : option string;
  createdAt : Z
}.

Record Db : Type := {
  orders : list OrderDoc;
  users : list UserDoc;
  trainingGoals : list GoalDoc;
  nextOrderId : nat
}.

(** The awaited calls of the route, in their order; one of them may be
    rejected. *)
Inductive OrderStep : Type := FindUser | FindGoal | CreateOrder | UpdateUser.

#[export] Instance OrderStep_eq_dec : EqDecision OrderStep.
Proof. solve_decision. Defined.

Inductive Answer : Type :=
| Created (id : nat)
| Message (code : Z) (message : string).

(** [User.findOne({ telegramId })] *)
Fixpoint findUser (id : Z) (docs : list UserDoc) : option UserDoc :=
  match docs with
  | [] => None
  | u :: rest => if bool_decide (telegramId u = id) then Some u else findUser id rest
  end.

(** [TrainingGoal.findOne({ _id: goalId, isActive: true })] *)
Fixpoint findActiveGoal (id : nat) (docs : list GoalDoc) : option GoalDoc :=
  match docs with
  | [] => None
  | g :: rest =>
      if bool_decide (goal_id g = id) && isActive g then Some g
      else findActiveGoal id rest
  end.

(** [User.updateOne({ telegramId }, { $set: { trainingStatus:
    "requested", fullName, phoneNumber } })]; the schema trims the two
    strings. *)
Fixpoint markRequested (id : Z) (name phone : string) (docs : list UserDoc) :
    list UserDoc :=
  match docs with
  | [] => []
  | u :: rest =>
      if bool_decide (telegramId u = id)
      then {| telegramId := telegramId u; isAdmin := isAdmin u;
              trainingStatus := Some "requested";
              fullName := Some (trim name); phoneNumber := Some (trim phone) |} :: rest
      else u :: markRequested id name phone rest
  end.

(** [s.replace(/\D/g, "")] *)
Definition isDigit (c : ascii) : bool :=
  (48 <=? nat_of_ascii c)%nat && (nat_of_ascii c <=? 57)%nat.

Fixpoint digits (s : string) : string :=
  match s with
  | EmptyString => EmptyString
  | String c rest => if isDigit c then String c (digits rest) else digits rest
  end.

(** The number the route reads of a field: a number as it is, a string
    that is not blank through [Number] if the result is finite. *)
Definition readNumber (v : BodyValue) : option num :=
  match v with
  | NumberValue n => Some n
  | StringValue s => if truthy_string (trim s) then Number s else None
  | OtherValue => None
  end.

(** The value that passes the test [value === undefined || value < low
    || value > high], if it does. *)
Definition inside (low high : Z) (value : option num) : option num :=
  match value with
  | None => None
  | Some n => if below n (lit low) || below (lit high) n then None else Some n
  end.

Definition orderFailed : Answer := Message 500 "Failed to create order".

(** [POST /api/miniapp/orders]; [resolved] is
    [resolveTelegramUserId(req)]. *)
Definition orders_post (now : Z) (resolved : option Z) (body : Body)
    (rejected : option OrderStep) (db : Db) : Answer * Db :=
  match resolved with
  | None => (Message 400 "telegramId is required", db)
  | Some telegramId_ =>
  if negb (truthy_number telegramId_) then (Message 400 "telegramId is required", db)
  else if bool_decide (rejected = Some FindUser) then (orderFailed, db)
  else
  match findUser telegramId_ (users db) with
  | None => (Message 404 "User not found", db)
  | Some user =>
  if isAdmin user then (Message 403 "Admins cannot create requests", db)
  else if bool_decide (trainingStatus user = Some "active")
          || bool_decide (trainingStatus user = Some "requested")
  then (Message 409 "User already has an open request", db)
  else
  let fullName_ := match body_fullName body with Some s => trim s | None => "" end in
  if negb (truthy_string fullName_) then (Message 400 "Name is required", db)
  else
  let phoneNumber_ := match body_phoneNumber body with Some s => trim s | None => "" end in
  let phoneDigits := digits phoneNumber_ in
  if negb (truthy_string phoneNumber_)
     || bool_decide (String.length phoneDigits < 6)%nat
     || bool_decide (15 < String.length phoneDigits)%nat
  then (Message 400 "Valid phone number is required", db)
  else if bool_decide (rejected = Some FindGoal) then (orderFailed, db)
  else
  match body_goal body with
  | None => (orderFailed, db)
  | Some goalId_ =>
  match findActiveGoal goalId_ (trainingGoals db) with
  | None => (Message 400 "Training goal is required", db)
  | Some _ =>
  match inside 1 120 (readNumber (body_age body)) with
  | None => (Message 400 "Valid age is required", db)
  | Some age_ =>
  match inside 50 250 (readNumber (body_heightCm body)) with
  | None => (Message 400 "Valid height is required", db)
  | Some heightCm_ =>
  match inside 20 300 (readNumber (body_weightKg body)) with
  | None => (Message 400 "Valid weight is required", db)
  | Some weightKg_ =>
      if bool_decide (rejected = Some CreateOrder) then (orderFailed, db)
      else
        let order :=
          {| order_id := nextOrderId db;
             order_fullName := trim fullName_;
             order_phoneNumber := trim phoneNumber_;
             telegramUserId := telegramId_;
             goalId := goalId_;
             status := "pending";
             age := age_; weightKg := weightKg_; heightCm := heightCm_;
             medicalContraindications :=
               match body_medicalContraindications body with
               | Some m => if truthy_string m then Some (trim m) else None
               | None => None
               end;
             createdAt := now |} in
        let db1 := {| orders := orders db ++ [order]; users := users db;
                      trainingGoals := trainingGoals db;
                      nextOrderId := S (nextOrderId db) |} in
        if bool_decide (rejected = Some UpdateUser) then (orderFailed, db1)
        else
          (Created (order_id order),
           {| orders := orders db1;
              users := markRequested telegramId_ fullName_ phoneNumber_ (users db1);
              trainingGoals := trainingGoals db1;
              nextOrderId := nextOrderId db1 |})
  end
  end
  end
  end
  end
  end
  end.

(** [GET /api/miniapp/goals]: the goals on offer. *)
Definition goalsOffered (db : Db) : list (nat * string) :=
  goals_list {| goals := trainingGoals db; nextGoalId := 0 |}.

(** The measures of an order are within the bounds the route checks. *)
Definition withinBounds (o : OrderDoc) : Prop :=
  below (age o) (lit 1) = false ∧ below (lit 120) (age o) = false
  ∧ below (heightCm o) (lit 50) = false ∧ below (lit 250) (heightCm o) = false
  ∧ below (weightKg o) (lit 20) = false ∧ below (lit 300) (weightKg o) = false.

(** The user may ask for a training: known, not an admin, without a
    request that is open. *)
Definition mayRequest (id : Z) (db : Db) : Prop :=
  ∃ user, findUser id (users db) = Some user
          ∧ isAdmin user = false
          ∧ trainingStatus user ≠ Some "active"
          ∧ trainingStatus user ≠ Some "requested".

End Numbers.

Arguments BodyValue : clear implicits.
Arguments Body : clear implicits.
Arguments OrderDoc : clear implicits.
Arguments Db : clear implicits.

(** Sample data on integers. *)
Definition sampleNumberOf (s : string) : option Z :=
  if bool_decide (s = "30") then Some 30 else None.

Definition sampleBody : Body Z :=
  {| body_fullName := Some " Ann Lee "; body_phoneNumber := Some "+1 (555) 010-99";
     body_goal := Some 0%nat; body_age := StringValue "30";
     body_heightCm := NumberValue 170; body_weightKg := NumberValue 65;
     body_medicalContraindications := None |}.

Definition sampleShop : Db Z :=
  {| orders := [];
     users := [{| telegramId := 7; isAdmin := false; trainingStatus := Some "none";
                  fullName := None; phoneNumber := None |}];
     trainingGoals := [{| goal_id := 0; title := "Strength"; isActive := true;
                          sortOrder := 0; goalCreatedAt := 5 |}];
     nextOrderId := 0 |}.

End Orders.


(* ===================================================================== *)
(** * Properties *)
(* ===================================================================== *)

(** ** Eviction on a single collection *)

Module MongoFacts.
Import Mongo.

Section CollectionFacts.
Context {P : Type}.
Implicit Types (c : Coll P) (d : Doc P).

#[local] Instance created_le_trans : Transitive (@created_le P).
Proof. intros a b d. unfold created_le. lia. Qed.

#[local] Instance created_le_total : Total (@created_le P).
Proof. intros a b. unfold created_le. lia. Qed.

Lemma sortByCreatedAt_perm c : sortByCreatedAt c ≡ₚ c.
Proof. apply merge_sort_Permutation. Qed.

Lemma sortByCreatedAt_sorted c : StronglySorted created_le (sortByCreatedAt c).
Proof. apply (StronglySorted_merge_sort _). Qed.

Lemma sortByCreatedAt_length c : length (sortByCreatedAt c) = length c.
Proof. by rewrite sortByCreatedAt_perm. Qed.

Lemma oldestIds_length n c : (n ≤ length c)%nat → length (oldestIds n c) = n.
Proof.
  intros Hn. unfold oldestIds.
  rewrite length_fmap, length_take, sortByCreatedAt_length. lia.
Qed.

(** Every document the query selected is gone after the delete. *)
Lemma deleteManyIn_selected ids (l : list (Doc P)) :
  (∀ d, d ∈ l → doc_id d ∈ ids) → deleteManyIn ids l = [].
Proof.
  intros Hall. unfold deleteManyIn.
  induction l as [|d l IH]; [done|].
  rewrite filter_cons_False.
  - apply IH. intros d' Hd'. apply Hall. by right.
  - intros Hnot. apply Hnot, Hall. by left.
Qed.

(** A document whose identifier was not selected stays. *)
Lemma deleteManyIn_others ids (l : list (Doc P)) :
  (∀ d, d ∈ l → doc_id d ∉ ids) → deleteManyIn ids l = l.
Proof.
  intros Hall. unfold deleteManyIn.
  induction l as [|d l IH]; [done|].
  rewrite filter_cons_True by (apply Hall; by left).
  f_equal. apply IH. intros d' Hd'. apply Hall. by right.
Qed.

Lemma deleteManyIn_split n c :
  deleteManyIn (oldestIds n c) c
    ≡ₚ deleteManyIn (oldestIds n c) (drop n (sortByCreatedAt c)).
Proof.
  set (ids := oldestIds n c).
  assert (Hsel : deleteManyIn ids (take n (sortByCreatedAt c)) = []).
  { apply deleteManyIn_selected. intros d Hd.
    unfold ids, oldestIds. by apply list_elem_of_fmap_2. }
  trans (deleteManyIn ids (sortByCreatedAt c)).
  { unfold deleteManyIn. by rewrite sortByCreatedAt_perm. }
  assert (Hcut : deleteManyIn ids (sortByCreatedAt c)
    = deleteManyIn ids (take n (sortByCreatedAt c))
        ++ deleteManyIn ids (drop n (sortByCreatedAt c))).
  { unfold deleteManyIn. by rewrite <- filter_app, take_drop. }
  by rewrite Hcut, Hsel.
Qed.

(** Whatever the identifiers, the delete removes at least the [n] selected
    documents. *)
Lemma deleteManyIn_oldest_bound n c :
  (length (deleteManyIn (oldestIds n c) c) ≤ length c - n)%nat.
Proof.
  rewrite deleteManyIn_split. unfold deleteManyIn.
  etrans; [apply length_filter|].
  by rewrite length_drop, sortByCreatedAt_length.
Qed.

(** With unique identifiers it removes exactly those: what is left is the
    tail of the creation order. *)
Lemma deleteManyIn_oldest_exact n c :
  NoDup (doc_id <$> c) →
  deleteManyIn (oldestIds n c) c ≡ₚ drop n (sortByCreatedAt c).
Proof.
  intros Hnd. rewrite deleteManyIn_split.
  rewrite deleteManyIn_others; [done|].
  intros d Hd Hin.
  rewrite <- (sortByCreatedAt_perm c) in Hnd.
  rewrite <- (take_drop n (sortByCreatedAt c)), fmap_app in Hnd.
  apply NoDup_app in Hnd as (_ & Hdisj & _).
  apply (Hdisj (doc_id d)); [done|]. by apply list_elem_of_fmap_2.
Qed.

(** The selected documents are no younger than any document left. *)
Lemma oldest_before_rest n c r k :
  r ∈ take n (sortByCreatedAt c) → k ∈ drop n (sortByCreatedAt c) →
  createdAt r <= createdAt k.
Proof.
  intros Hr Hk.
  pose proof (sortByCreatedAt_sorted c) as Hs.
  rewrite <- (take_drop n (sortByCreatedAt c)) in Hs.
  by apply (StronglySorted_app_1_elem_of _ _ _ r k) in Hs.
Qed.

Lemma oldest_strictly_before_rest n c r k :
  NoDup (createdAt <$> c) →
  r ∈ take n (sortByCreatedAt c) → k ∈ drop n (sortByCreatedAt c) →
  createdAt r < createdAt k.
Proof.
  intros Hnd Hr Hk.
  pose proof (oldest_before_rest n c r k Hr Hk) as Hle.
  rewrite <- (sortByCreatedAt_perm c) in Hnd.
  rewrite <- (take_drop n (sortByCreatedAt c)), fmap_app in Hnd.
  apply NoDup_app in Hnd as (_ & Hdisj & _).
  assert (createdAt r ≠ createdAt k); [|lia].
  intros Heq. apply (Hdisj (createdAt r)).
  - by apply list_elem_of_fmap_2.
  - rewrite Heq. by apply list_elem_of_fmap_2.
Qed.

End CollectionFacts.
End MongoFacts.


(** ** The two ledgers *)

Module LedgerFacts.
Import Js Eff Mongo MongoFacts Ledger.

Ltac run_calls Hrel :=
  unfold create, count, findOldestIds, deleteMany, attempt, when,
    bind, ret, gets, modify, throw;
  rewrite ?Hrel; cbn [fst snd docs withDocs AppError Broadcast freshId
    appErrors broadcasts nextId].

Lemma pruned_capacity {P} (c : Coll P) : (length (pruned c) ≤ capacity)%nat.
Proof.
  unfold pruned. case_bool_decide as Hover; [|lia].
  etrans; [apply deleteManyIn_oldest_bound|]. lia.
Qed.

Lemma pruned_small {P} (c : Coll P) : (length c ≤ capacity)%nat → pruned c = c.
Proof. intros Hle. unfold pruned. rewrite bool_decide_eq_false_2; [done|lia]. Qed.

Lemma oldestIds_nonempty {P} n (c : Coll P) :
  (0 < n ≤ length c)%nat → bool_decide (length (oldestIds n c) = 0%nat) = false.
Proof.
  intros Hn. rewrite oldestIds_length by lia.
  apply bool_decide_eq_false_2. lia.
Qed.

(** A cycle that no call aborts stores the new entry and prunes. *)
Lemma logAppError_reliable env error context db m :
  reliable env → messageOf error = Normal m →
  logAppError env error context db =
    (Normal tt,
     {| appErrors := pruned (insertOne (nextId db) (now env)
                       (buildPayload m (stackOf error) context) (appErrors db));
        broadcasts := broadcasts db;
        nextId := S (nextId db) |}).
Proof.
  intros Hrel Hm. unfold logAppError, lift, try_catch.
  unfold bind at 1. rewrite Hm.
  run_calls Hrel.
  unfold pruned, capacity, countDocuments.
  case_bool_decide as Hover; [|done].
  cbn [freshId appErrors broadcasts nextId].
  by rewrite oldestIds_nonempty by lia.
Qed.

Lemma recordBroadcast_reliable env entry db :
  reliable env →
  recordBroadcast env entry db =
    (Normal tt,
     {| appErrors := appErrors db;
        broadcasts := pruned (insertOne (nextId db) (now env) entry (broadcasts db));
        nextId := S (nextId db) |}).
Proof.
  intros Hrel. unfold recordBroadcast.
  run_calls Hrel.
  unfold pruned, capacity, countDocuments.
  case_bool_decide as Hover; [|done].
  cbn [freshId appErrors broadcasts nextId].
  by rewrite oldestIds_nonempty by lia.
Qed.

Lemma runLogs_snoc calls c db : runLogs (calls ++ [c]) db = runLog (runLogs calls db) c.
Proof. unfold runLogs. by rewrite foldl_app. Qed.

(** C1.  Whatever the error log held before and whatever calls came
    earlier, once a [logAppError] cycle has run through create, count and
    prune, the log holds at most 500 entries. *)
Theorem logAppError_within_capacity (calls : list LogCall) (c : LogCall) (db : Db) :
  completes c →
  (countDocuments (appErrors (runLogs (calls ++ [c]) db)) ≤ 500)%nat.
Proof.
  intros [Hrel [m Hm]]. rewrite runLogs_snoc. unfold runLog.
  rewrite (logAppError_reliable _ _ _ _ m Hrel Hm). cbn [snd appErrors].
  apply pruned_capacity.
Qed.

Lemma quietEnv_reliable t : reliable (quietEnv t).
Proof. by intros c. Qed.

Lemma sampleCall_completes t : completes {| lc_env := quietEnv t; lc_error := sampleError; lc_context := apiContext |}.
Proof. split; [apply quietEnv_reliable | by eexists]. Qed.

Lemma logAppError_within_capacity_witness :
  (countDocuments (appErrors (runLogs
     ([ {| lc_env := {| now := 600; fails := fun c => bool_decide (c = CallCount) |};
           lc_error := VPrimitive "boom"; lc_context := apiContext |} ]
      ++ [ {| lc_env := quietEnv 601; lc_error := sampleError; lc_context := apiContext |} ])
     (filledDb 502))) ≤ 500)%nat.
Proof. apply logAppError_within_capacity, sampleCall_completes. Defined.

Lemma wf_insertOne {P} next now (payload : P) (c : Coll P) :
  wf_coll next c → NoDup (doc_id <$> insertOne next now payload c).
Proof.
  intros [Hnd Hlt]. unfold insertOne. rewrite fmap_app.
  apply NoDup_app. split; [done|]. split; [|apply NoDup_singleton].
  intros i Hi Hnew. cbn in Hnew. apply list_elem_of_singleton in Hnew as ->.
  apply list_elem_of_fmap in Hi as (d & Hid & Hd).
  rewrite Forall_forall in Hlt. specialize (Hlt d Hd). lia.
Qed.

(** C2.  When the new entry takes the error log above 500, the prune step
    removes exactly [count - 500] entries, they are the first ones in
    creation order, and what stays is the 500 latest. *)
Theorem logAppError_evicts_oldest env error context db m :
  wf db → reliable env → messageOf error = Normal m →
  let stored := insertOne (nextId db) (now env)
                  (buildPayload m (stackOf error) context) (appErrors db) in
  let overflow := (countDocuments stored - 500)%nat in
  let removed := take overflow (sortByCreatedAt stored) in
  let kept := appErrors (logAppError env error context db).2 in
  (500 < countDocuments stored)%nat →
  length removed = overflow
  ∧ stored ≡ₚ removed ++ kept
  ∧ kept ≡ₚ drop overflow (sortByCreatedAt stored)
  ∧ countDocuments kept = 500%nat
  ∧ (∀ r k, r ∈ removed → k ∈ kept → createdAt r <= createdAt k)
  ∧ (NoDup (createdAt <$> stored) →
       ∀ r k, r ∈ removed → k ∈ kept → createdAt r < createdAt k).
Proof.
  intros [Hwf _] Hrel Hm stored overflow removed kept Hover.
  assert (Hkept : kept ≡ₚ drop overflow (sortByCreatedAt stored)).
  { unfold kept. rewrite (logAppError_reliable _ _ _ _ m Hrel Hm).
    cbn [snd appErrors]. fold stored. unfold pruned.
    rewrite bool_decide_eq_true_2 by done.
    apply deleteManyIn_oldest_exact, wf_insertOne, Hwf. }
  unfold countDocuments in *.
  split_and!.
  - unfold removed. rewrite length_take, sortByCreatedAt_length. lia.
  - rewrite Hkept. unfold removed.
    by rewrite take_drop, sortByCreatedAt_perm.
  - done.
  - rewrite Hkept, length_drop, sortByCreatedAt_length. lia.
  - intros r k Hr Hk. rewrite Hkept in Hk. by eapply oldest_before_rest.
  - intros Hnd r k Hr Hk. rewrite Hkept in Hk.
    by eapply oldest_strictly_before_rest.
Qed.

Lemma filledDb_wf n : wf (filledDb n).
Proof.
  split; split; cbn [filledDb appErrors broadcasts nextId fmap list_fmap];
    try constructor.
  - rewrite <- list_fmap_compose.
    apply NoDup_fmap_2_strong; [|apply NoDup_seq].
    by intros i j _ _ Heq.
  - apply Forall_fmap, Forall_forall. intros i Hi%elem_of_seq. cbn. lia.
Qed.

Lemma logAppError_evicts_oldest_witness :
  let stored := insertOne 500 500 sampleFields (appErrors (filledDb 500)) in
  let removed := take (countDocuments stored - 500) (sortByCreatedAt stored) in
  let kept := appErrors (logAppError (quietEnv 500) sampleError apiContext (filledDb 500)).2 in
  length removed = (countDocuments stored - 500)%nat
  ∧ stored ≡ₚ removed ++ kept
  ∧ kept ≡ₚ drop (countDocuments stored - 500) (sortByCreatedAt stored)
  ∧ countDocuments kept = 500%nat
  ∧ (∀ r k, r ∈ removed → k ∈ kept → createdAt r <= createdAt k)
  ∧ (NoDup (createdAt <$> stored) →
       ∀ r k, r ∈ removed → k ∈ kept → createdAt r < createdAt k).
Proof.
  apply (logAppError_evicts_oldest (quietEnv 500) sampleError apiContext
           (filledDb 500) "connection reset").
  - apply filledDb_wf.
  - apply quietEnv_reliable.
  - reflexivity.
  - unfold countDocuments, insertOne. rewrite length_app. cbn [filledDb appErrors].
    rewrite length_fmap, length_seq. cbn. lia.
Defined.

(** The scenario of the specification: a full log receives one entry and
    loses exactly its oldest one. *)
Example full_log_drops_its_oldest :
  doc_id <$> appErrors (logAppError (quietEnv 500) sampleError apiContext (filledDb 500)).2
  = seq 1 500.
Proof. vm_compute. reflexivity. Qed.

(** A cycle cut short after [create] leaves the entry unpruned; the next
    complete cycle removes the whole excess. *)
Example aborted_prune_is_caught_up :
  let env := {| now := 500; fails := fun c => bool_decide (c = CallCount) |} in
  let db1 := (logAppError env sampleError apiContext (filledDb 500)).2 in
  let db2 := (logAppError (quietEnv 501) sampleError apiContext db1).2 in
  countDocuments (appErrors db1) = 501%nat ∧ countDocuments (appErrors db2) = 500%nat.
Proof. vm_compute. done. Qed.

(** [logAppError] throws exactly when reading the message of the error
    does: every persistence failure is caught. *)
Lemma logAppError_completion env error context db :
  (logAppError env error context db).1
  = match messageOf error with Normal _ => Normal tt | Thrown e => Thrown e end.
Proof.
  unfold logAppError, lift, try_catch. unfold bind at 1.
  destruct (messageOf error) as [m|e]; [|done].
  match goal with |- (let (_, _) := ?body in _).1 = _ =>
    destruct body as [[[]|e] db'] end; done.
Qed.

(** C3, as the code has it.  If the message of the error value can be read
    (an [Error], a primitive, an object with a working string conversion),
    no rejection of [create], [countDocuments], [find] or [deleteMany]
    reaches the caller of [logAppError]. *)
Theorem logAppError_swallows_persistence_failures env error context db m :
  messageOf error = Normal m →
  (logAppError env error context db).1 = Normal tt.
Proof. intros Hm. by rewrite logAppError_completion, Hm. Qed.

Lemma logAppError_swallows_persistence_failures_witness :
  (logAppError {| now := 3; fails := fun _ => true |} sampleError apiContext
     (filledDb 2)).1 = Normal tt.
Proof.
  apply (logAppError_swallows_persistence_failures _ _ _ _ "connection reset").
  reflexivity.
Defined.

(** The message is read before the [try] block is entered: an error value
    whose string conversion throws makes [logAppError] throw, with a
    database that accepts every call. *)
Lemma logAppError_throws_on_unprintable_error :
  ¬ (∀ env error context db, (logAppError env error context db).1 = Normal tt).
Proof.
  intros Hall.
  specialize (Hall (quietEnv 0) (VObject None) apiContext emptyDb).
  vm_compute in Hall. discriminate Hall.
Qed.

(** Neither ledger is touched by an append to the other, whatever fails. *)
Lemma logAppError_frames_broadcasts env error context db :
  broadcasts (logAppError env error context db).2 = broadcasts db.
Proof.
  unfold logAppError, lift, try_catch. unfold bind at 1.
  destruct (messageOf error) as [m|e]; [|done].
  unfold create, count, findOldestIds, deleteMany, attempt, when,
    bind, ret, gets, modify, throw.
  repeat (match goal with
          | |- context [fails env ?c] => destruct (fails env c)
          | |- context [bool_decide ?p] => destruct (bool_decide p)
          end; cbn; try done).
Qed.

Lemma recordBroadcast_frames_appErrors env entry db :
  appErrors (recordBroadcast env entry db).2 = appErrors db.
Proof.
  unfold recordBroadcast.
  unfold create, count, findOldestIds, deleteMany, attempt, when,
    bind, ret, gets, modify, throw.
  repeat (match goal with
          | |- context [fails env ?c] => destruct (fails env c)
          | |- context [bool_decide ?p] => destruct (bool_decide p)
          end; cbn; try done).
Qed.

(** C4.  The error log and the broadcast history are separate collections
    pruned by the same rule: a completed append to either leaves it as
    [pruned] of the collection with the new entry, hence with at most 500
    entries, and leaves the other one as it was. *)
Theorem both_ledgers_capped_independently env entry error context db m :
  reliable env → messageOf error = Normal m →
  let logged := (logAppError env error context db).2 in
  let recorded := (recordBroadcast env entry db).2 in
  broadcasts recorded
    = pruned (insertOne (nextId db) (now env) entry (broadcasts db))
  ∧ appErrors logged
    = pruned (insertOne (nextId db) (now env)
                (buildPayload m (stackOf error) context) (appErrors db))
  ∧ (countDocuments (broadcasts recorded) ≤ 500)%nat
  ∧ (countDocuments (appErrors logged) ≤ 500)%nat
  ∧ appErrors recorded = appErrors db
  ∧ broadcasts logged = broadcasts db.
Proof.
  intros Hrel Hm logged recorded. unfold logged, recorded.
  rewrite (logAppError_reliable _ _ _ _ m Hrel Hm).
  rewrite (recordBroadcast_reliable _ _ _ Hrel).
  cbn [snd appErrors broadcasts].
  split_and!; try done; apply pruned_capacity.
Qed.

Lemma both_ledgers_capped_independently_witness :
  let logged := (logAppError (quietEnv 1000) sampleError apiContext fullLedgers).2 in
  let recorded := (recordBroadcast (quietEnv 1000) sampleBroadcast fullLedgers).2 in
  (countDocuments (appErrors fullLedgers) = 500%nat
   ∧ countDocuments (broadcasts fullLedgers) = 500%nat)
  ∧ (broadcasts recorded
       = pruned (insertOne 1000 1000 sampleBroadcast (broadcasts fullLedgers))
     ∧ appErrors logged
       = pruned (insertOne 1000 1000 sampleFields (appErrors fullLedgers))
     ∧ (countDocuments (broadcasts recorded) ≤ 500)%nat
     ∧ (countDocuments (appErrors logged) ≤ 500)%nat
     ∧ appErrors recorded = appErrors fullLedgers
     ∧ broadcasts logged = broadcasts fullLedgers)
  ∧ doc_id <$> broadcasts recorded = seq 501 499 ++ [1000%nat]
  ∧ doc_id <$> appErrors logged = seq 1 499 ++ [1000%nat].
Proof.
  split; [split; vm_compute; reflexivity|]. split.
  - apply (both_ledgers_capped_independently (quietEnv 1000) sampleBroadcast
             sampleError apiContext fullLedgers "connection reset").
    + apply quietEnv_reliable.
    + reflexivity.
  - split; vm_compute; reflexivity.
Defined.

End LedgerFacts.

(** ** Delivery loop and draft machine *)

Module BotFacts.
Import Js Eff Mongo Ledger Bot LedgerFacts.

Lemma tallyApp_noTally_r t : tallyApp t noTally = t.
Proof.
  destruct t. unfold tallyApp, noTally. cbn.
  by rewrite !Nat.add_0_r, !app_nil_r.
Qed.

Lemma tallyApp_assoc a b c : tallyApp (tallyApp a b) c = tallyApp a (tallyApp b c).
Proof.
  unfold tallyApp. cbn. by rewrite !Nat.add_assoc, <- !app_assoc.
Qed.

(** One turn of the loop adds the bookkeeping of its own recipient to what
    was there, and touches nothing else. *)
Lemma deliverTo_app photoFileIds text t a :
  deliverTo photoFileIds text t a
  = tallyApp t (deliverTo photoFileIds text noTally a).
Proof.
  unfold deliverTo.
  destruct (chatId (recipient a)) as [c|]; [|by rewrite tallyApp_noTally_r].
  destruct (truthy_number c); cbn [negb]; [|by rewrite tallyApp_noTally_r].
  destruct (sendBroadcastToChat c photoFileIds text (rejected a));
    destruct t; unfold tallyApp, noTally; cbn; by rewrite ?Nat.add_0_r, ?app_nil_r.
Qed.

Lemma foldl_deliverTo photoFileIds text t users :
  foldl (deliverTo photoFileIds text) t users
  = tallyApp t (deliverAll photoFileIds text users).
Proof.
  unfold deliverAll. revert t.
  induction users as [|a users IH] using rev_ind; intros t.
  - cbn. by rewrite tallyApp_noTally_r.
  - rewrite !foldl_app. cbn [foldl].
    rewrite (deliverTo_app _ _ (foldl _ t users)), IH.
    rewrite (deliverTo_app _ _ (foldl _ noTally users)).
    by rewrite tallyApp_assoc.
Qed.

Lemma deliverAll_app photoFileIds text before after :
  deliverAll photoFileIds text (before ++ after)
  = tallyApp (deliverAll photoFileIds text before)
             (deliverAll photoFileIds text after).
Proof. unfold deliverAll at 1. rewrite foldl_app. apply foldl_deliverTo. Qed.

Lemma deliverAll_cons photoFileIds text a after :
  deliverAll photoFileIds text (a :: after)
  = tallyApp (deliverTo photoFileIds text noTally a)
             (deliverAll photoFileIds text after).
Proof. unfold deliverAll at 1. cbn [foldl]. apply foldl_deliverTo. Qed.

Lemma deliverTo_skipped photoFileIds text a :
  hasDestination a = false → deliverTo photoFileIds text noTally a = noTally.
Proof.
  unfold hasDestination, deliverTo.
  destruct (chatId (recipient a)) as [c|]; [|done]. by intros ->.
Qed.

Lemma deliverTo_attempted photoFileIds text a :
  hasDestination a = true →
  let t := deliverTo photoFileIds text noTally a in
  (successCount t + failedCount t = 1)%nat
  ∧ length (deliveredNames t) = successCount t
  ∧ length (failedNames t) = failedCount t.
Proof.
  unfold hasDestination, deliverTo.
  destruct (chatId (recipient a)) as [c|]; [|done]. intros ->. cbn [negb].
  by destruct (sendBroadcastToChat c photoFileIds text (rejected a)).
Qed.

Lemma deliverAll_counts photoFileIds text users :
  let t := deliverAll photoFileIds text users in
  (successCount t + failedCount t)%nat
    = length (filter (fun a => hasDestination a = true) users)
  ∧ length (deliveredNames t) = successCount t
  ∧ length (failedNames t) = failedCount t.
Proof.
  induction users as [|a users IH]; [done|].
  cbn zeta in *. rewrite deliverAll_cons.
  destruct IH as (IHsum & IHd & IHf).
  rewrite filter_cons.
  destruct (hasDestination a) eqn:Hdest.
  - destruct (deliverTo_attempted photoFileIds text a Hdest) as (H1 & H2 & H3).
    rewrite decide_True by done.
    unfold tallyApp. cbn. rewrite !length_app. lia.
  - rewrite (deliverTo_skipped _ _ _ Hdest), decide_False by done.
    unfold tallyApp. cbn. lia.
Qed.

(** C5.  The history record and the closing message of a broadcast give
    the total as successes plus failures, and that total is the number of
    recipients that had a chat to send to; recipients skipped for want of
    one are in none of the three figures. *)
Theorem delivery_totals_add_up admin text photoFileIds users :
  let tally := deliverAll photoFileIds text users in
  let entry := historyEntry admin text photoFileIds tally in
  let deliverable := length (filter (fun a => hasDestination a = true) users) in
  bc_totalRecipients entry = (bc_successCount entry + bc_failedCount entry)%nat
  ∧ bc_totalRecipients entry = deliverable
  ∧ (∃ delivered failed,
       summaryOf tally
       = Summary (bc_successCount entry) (bc_failedCount entry) deliverable
           delivered failed)
  ∧ length (deliveredNames tally) = bc_successCount entry
  ∧ length (failedNames tally) = bc_failedCount entry.
Proof.
  intros tally entry deliverable.
  destruct (deliverAll_counts photoFileIds text users) as (Hsum & Hd & Hf).
  fold tally in Hsum, Hd, Hf. unfold entry, historyEntry, summaryOf. cbn.
  rewrite Hsum. split_and!; eauto.
Qed.

(** C6.  A send that throws costs the loop nothing but its own entry: the
    recipients before and after it are served and counted as they would be
    on their own, and the failure adds one to the failure count and its
    name to the failed list. *)
Theorem failed_send_is_local photoFileIds text before a after chat e :
  chatId (recipient a) = Some chat → truthy_number chat = true →
  sendBroadcastToChat chat photoFileIds text (rejected a) = Thrown e →
  deliverAll photoFileIds text (before ++ a :: after)
  = tallyApp (deliverAll photoFileIds text before)
      (tallyApp (oneFailure (recipient a))
                (deliverAll photoFileIds text after)).
Proof.
  intros Hchat Htruthy Hsend.
  rewrite deliverAll_app, deliverAll_cons. do 2 f_equal.
  unfold deliverTo. by rewrite Hchat, Htruthy, Hsend.
Qed.

Lemma failed_send_is_local_witness :
  deliverAll ["p1"] "hi"
    ([ {| recipient := ann; rejected := false |} ]
       ++ {| recipient := bob; rejected := true |}
       :: [ {| recipient := cy; rejected := false |};
            {| recipient := ann; rejected := false |} ])
  = tallyApp (deliverAll ["p1"] "hi" [ {| recipient := ann; rejected := false |} ])
      (tallyApp (oneFailure bob)
         (deliverAll ["p1"] "hi"
            [ {| recipient := cy; rejected := false |};
              {| recipient := ann; rejected := false |} ])).
Proof.
  apply (failed_send_is_local ["p1"] "hi" _
           {| recipient := bob; rejected := true |} _ 12 TelegramError);
    reflexivity.
Defined.

(** The scenario of the specification with 25 recipients, 22 served and 3
    not: the totals, and a report since more than 20 names were delivered. *)
Example twenty_five_recipients :
  let users := replicate 22 {| recipient := ann; rejected := false |}
               ++ replicate 3 {| recipient := bob; rejected := true |} in
  let t := deliverAll ["p1"; "p2"] "hi" users in
  (successCount t, failedCount t, length (deliveredNames t), failedNames t)
  = (22%nat, 3%nat, 22%nat, ["Bob Low"; "Bob Low"; "Bob Low"]).
Proof. vm_compute. reflexivity. Qed.

Lemma getDraft_reply now to n s uid : getDraft uid (reply now to n s) = getDraft uid s.
Proof. done. Qed.

Lemma clearDraft_db uid s : db (clearDraft uid s) = db s.
Proof.
  unfold clearDraft. destruct (getDraft uid s) as [[? d]|]; [|done].
  by destruct (mediaGroupTimer d).
Qed.

Lemma clearDraft_replies uid s : replies (clearDraft uid s) = replies s.
Proof.
  unfold clearDraft. destruct (getDraft uid s) as [[? d]|]; [|done].
  by destruct (mediaGroupTimer d).
Qed.

Lemma clearDraft_gone uid s : getDraft uid (clearDraft uid s) = None.
Proof.
  unfold clearDraft, getDraft at 1. cbn [broadcastDrafts setDrafts].
  by rewrite lookup_delete_eq.
Qed.

(** The whole [broadcast_send] action on a draft ready to go, with a
    history collection that accepts its calls. *)
Lemma broadcast_send_completes now env uid users s ref draft txt :
  getDraft uid s = Some (ref, draft) →
  step draft = preview → text draft = Some txt → truthy_string txt = true →
  reliable env →
  let tally := deliverAll (photoFileIds draft) txt users in
  let entry := historyEntry uid txt (photoFileIds draft) tally in
  let said n := {| sentAt := now; chat := uid; notice := n |} in
  ∃ s',
    broadcast_send now env (Some uid) users s = (Normal tt, s')
    ∧ broadcasts (db s')
      = pruned (insertOne (nextId (db s)) (Ledger.now env) entry (broadcasts (db s)))
    ∧ appErrors (db s') = appErrors (db s)
    ∧ getDraft uid s' = None
    ∧ replies s'
      = replies s ++ [said Launching; said (summaryOf tally)]
          ++ (if bool_decide (20 < length (deliveredNames tally))%nat
                 || bool_decide (20 < length (failedNames tally))%nat
              then [said (reportOf tally)] else []).
Proof.
  intros Hdraft Hstep Htext Htruthy Hrel tally entry said.
  unfold broadcast_send. unfold bind at 1, gets at 1.
  rewrite Hdraft, Hstep, Htext, Htruthy.
  unfold bind, modify, liftDb, when, ret.
  cbn [db reply setDb]. rewrite (recordBroadcast_reliable _ _ _ Hrel).
  fold tally. fold entry.
  destruct (bool_decide (20 < length (deliveredNames tally))%nat
            || bool_decide (20 < length (failedNames tally))%nat);
    (eexists; split; [reflexivity|]);
    rewrite ?getDraft_reply, clearDraft_gone;
    cbn [db reply replies]; rewrite clearDraft_db, clearDraft_replies;
    cbn [db setDb reply replies broadcasts appErrors];
    rewrite <- ?app_assoc; done.
Qed.

(** The scenario of the specification: a single photo outside any album
    moves the draft on at once and arms no timer. *)
Example single_photo_advances_at_once :
  let s := on_photo 5 (Some 7) ["small"; "a"] None openedState in
  (step <$> (snd <$> getDraft 7 s), timers s, notice <$> replies s)
  = (Some await_text, [], [SendPhotosPrompt; TextPromptAfterPhoto]).
Proof. vm_compute. reflexivity. Qed.

(** C8, as the code has it.  A photo sent to a draft that already holds
    three never changes the draft, the drafts map or the pending timer.
    While the draft is awaiting photos the sender is told that the limit
    is reached; once it has moved on, the photo is dropped without a
    word. *)
Theorem photo_beyond_limit_rejected now uid photo photoId media_group_id s ref draft :
  getDraft uid s = Some (ref, draft) →
  length (photoFileIds draft) = MAX_BROADCAST_PHOTOS →
  getLargestPhotoFileId photo = Some photoId → truthy_string photoId = true →
  let s' := on_photo now (Some uid) photo media_group_id s in
  getDraft uid s' = Some (ref, draft)
  ∧ heap s' = heap s ∧ broadcastDrafts s' = broadcastDrafts s
  ∧ timers s' = timers s
  ∧ (step draft = await_photos →
       s' = reply now uid PhotoLimitReached s)
  ∧ (step draft ≠ await_photos → s' = s).
Proof.
  intros Hdraft Hlen Hphoto Htruthy. unfold on_photo.
  rewrite Hdraft, Hphoto, Htruthy, Hlen. cbn [negb].
  rewrite (bool_decide_eq_true_2 (_ ≤ _)%nat) by done.
  case_bool_decide as Hstep; cbn [negb]; split_and!; try done.
Qed.

Lemma photo_beyond_limit_rejected_witness :
  let s := runTimeline albumOfThree startState in
  let draft := {| step := await_photos; photoFileIds := ["a"; "b"; "c"];
                  text := None; mediaGroupId := Some "album-1";
                  mediaGroupTimer := Some 2%nat |} in
  let s' := on_photo 310 (Some 7) ["small"; "d"] (Some "album-1") s in
  getDraft 7 s' = Some (0%nat, draft)
  ∧ heap s' = heap s ∧ broadcastDrafts s' = broadcastDrafts s
  ∧ timers s' = timers s
  ∧ (step draft = await_photos → s' = reply 310 7 PhotoLimitReached s)
  ∧ (step draft ≠ await_photos → s' = s).
Proof.
  apply (photo_beyond_limit_rejected 310 7 ["small"; "d"] "d"
           (Some "album-1") (runTimeline albumOfThree startState) 0%nat);
    vm_compute; reflexivity.
Defined.

(** Once the album has settled, the draft holds three photos and awaits
    its text: a further photo draws no notice at all. *)
Lemma settled_draft_ignores_photo_silently :
  ¬ (∀ now uid photo photoId media_group_id s ref draft,
       getDraft uid s = Some (ref, draft) →
       length (photoFileIds draft) = 3%nat →
       getLargestPhotoFileId photo = Some photoId → truthy_string photoId = true →
       replies (on_photo now (Some uid) photo media_group_id s)
       = replies s ++ [{| sentAt := now; chat := uid; notice := PhotoLimitReached |}]).
Proof.
  intros Hall.
  specialize (Hall 1000 7 ["small"; "d"] "d" (Some "album-1")
                (advance 1000 (runTimeline albumOfThree startState)) 0%nat
                {| step := await_text; photoFileIds := ["a"; "b"; "c"];
                   text := None; mediaGroupId := Some "album-1";
                   mediaGroupTimer := Some 2%nat |}).
  vm_compute in Hall.
  specialize (Hall eq_refl eq_refl eq_refl eq_refl). discriminate Hall.
Qed.

End BotFacts.

(** ** The album timer *)

Module AlbumFacts.
Import Js Eff Mongo Ledger Bot.

Section OneDraft.
Context (uid : Z) (r : nat) (g : string) (base : list Reply).

Abbreviation foreign := (foreign uid r).
Abbreviation untouched := (untouched uid r).
Abbreviation opened := (opened uid r base).
Abbreviation collecting := (collecting uid r g base).
Abbreviation settled := (settled uid r g base).

Lemma untouched_refl s : untouched s s.
Proof. done. Qed.

Lemma untouched_trans s1 s2 s3 : untouched s1 s2 → untouched s2 s3 → untouched s1 s3.
Proof.
  intros (?&?&?&?&?) (?&?&?&?&?). unfold Bot.untouched. split_and!; congruence.
Qed.

Lemma textPrompts_reply now to n s :
  textPrompts uid (reply now to n s)
  = textPrompts uid s
      ++ (if decide (to = uid ∧ isTextPrompt n = true)
          then [{| sentAt := now; chat := to; notice := n |}] else []).
Proof.
  unfold textPrompts. cbn [replies reply]. by rewrite filter_app.
Qed.

(** A timer of another draft leaves this one alone. *)
Lemma albumTimerFired_foreign tm s : foreign tm → untouched s (albumTimerFired tm s).
Proof.
  intros [Href Hchat]. unfold albumTimerFired.
  destruct (heap s !! draftRef tm) as [d|]; [|done].
  case_bool_decide; [done|].
  unfold Bot.untouched. rewrite textPrompts_reply.
  rewrite decide_False by (by intros [? _]). rewrite app_nil_r.
  cbn [reply updateDraft setHeap heap broadcastDrafts timers nextHandle].
  split_and!; try done. by rewrite lookup_alter_ne.
Qed.

Lemma fired_foreign l s :
  Forall foreign l → untouched s (foldl (fun st tm => albumTimerFired tm st) s l).
Proof.
  revert s. induction l as [|tm l IH]; intros s Hall; [done|].
  apply Forall_cons in Hall as [Htm Hl]. cbn [foldl].
  eapply untouched_trans; [by apply albumTimerFired_foreign|by apply IH].
Qed.

Lemma Forall_filter_weaken {A} (P Q : A → Prop) `{∀ x, Decision (Q x)} (l : list A) :
  Forall P l → Forall P (filter Q l).
Proof.
  rewrite !Forall_forall. intros Hall x [_ Hx]%list_elem_of_filter. by apply Hall.
Qed.

(** Time passes and only timers of other drafts come due. *)
Lemma advance_foreign t s :
  Forall foreign (filter (fun tm => due tm <= t) (timers s)) →
  let s' := advance t s in
  broadcastDrafts s' = broadcastDrafts s
  ∧ heap s' !! r = heap s !! r
  ∧ timers s' = filter (fun tm => ¬ due tm <= t) (timers s)
  ∧ nextHandle s' = nextHandle s
  ∧ textPrompts uid s' = textPrompts uid s.
Proof.
  intros Hready. unfold advance.
  by destruct (fired_foreign _
    (setTimers (filter (fun tm => ¬ due tm <= t) (timers s)) s) Hready)
    as (-> & -> & -> & -> & ->).
Qed.

Lemma advance_opened t s : opened s → opened (advance t s).
Proof.
  intros (Hmap & Hheap & Htimers & Hbase).
  destruct (advance_foreign t s) as (Hm & Hh & Ht & Hn & Hp).
  { apply Forall_filter_weaken. eapply Forall_impl; [done|]. by intros tm [? _]. }
  unfold Bot.opened. rewrite Hm, Hh, Ht, Hn, Hp.
  split_and!; try done. by apply Forall_filter_weaken.
Qed.

Lemma filter_timers_split (P : Timer → Prop) `{∀ x, Decision (P x)} others tm :
  filter P (others ++ [tm])
  = filter P others ++ (if decide (P tm) then [tm] else []).
Proof. by rewrite filter_app. Qed.

Lemma advance_collecting_early t photos d s :
  collecting photos d s → t < d → collecting photos d (advance t s).
Proof.
  intros (Hne & Hmap & h & others & Hheap & Htimers & Hothers & Hh & Hbase) Hearly.
  destruct (advance_foreign t s) as (Hm & Hhp & Ht & Hn & Hp).
  { rewrite Htimers, filter_timers_split. cbn [due albumTimer].
    rewrite decide_False by lia. rewrite app_nil_r.
    apply Forall_filter_weaken. eapply Forall_impl; [done|]. by intros tm [? _]. }
  unfold Bot.collecting. rewrite Hm, Hhp, Ht, Hn, Hp.
  split_and!; try done.
  exists h, (filter (fun tm => ¬ due tm <= t) others).
  split_and!; try done.
  - rewrite Htimers, filter_timers_split. cbn [due albumTimer].
    by rewrite decide_True by lia.
  - by apply Forall_filter_weaken.
Qed.

Lemma advance_collecting_due t photos d s :
  collecting photos d s → d <= t → settled photos d (advance t s).
Proof.
  intros (Hne & Hmap & h & others & Hheap & Htimers & Hothers & Hh & Hbase) Hdue.
  unfold advance. rewrite Htimers, !filter_timers_split. cbn [due albumTimer].
  rewrite (decide_True (P := d <= t)) by done.
  rewrite (decide_False (P := ¬ d <= t)) by (by intros Hnot).
  rewrite app_nil_r, foldl_app.
  cbn [foldl].
  set (waiting := filter (fun tm => ¬ due tm <= t) others).
  set (ready := filter (fun tm => due tm <= t) others).
  destruct (fired_foreign ready (setTimers waiting s)) as (Hm & Hhp & Ht & Hn & Hp).
  { apply Forall_filter_weaken. eapply Forall_impl; [done|]. by intros tm [? _]. }
  set (s1 := foldl _ _ ready) in *.
  cbn [setTimers broadcastDrafts heap timers nextHandle] in Hm, Hhp, Ht, Hn.
  change (textPrompts uid (setTimers waiting s)) with (textPrompts uid s) in Hp.
  unfold albumTimerFired. cbn [draftRef due timerChat albumTimer].
  rewrite Hhp, Hheap. cbn [photoFileIds albumDraft].
  rewrite bool_decide_eq_false_2 by (by destruct photos).
  unfold Bot.settled. rewrite textPrompts_reply, decide_True by done.
  change (textPrompts uid (updateDraft r (withStep await_text) s1))
    with (textPrompts uid s1).
  cbn [reply updateDraft setHeap heap broadcastDrafts timers].
  rewrite Hm, Ht, Hp, Hbase, lookup_alter_eq, Hhp, Hheap.
  split; [done|]. exists h. split_and!; try done.
  apply Forall_filter_weaken. eapply Forall_impl; [done|]. by intros tm [? _].
Qed.

Lemma advance_settled t photos d s : settled photos d s → settled photos d (advance t s).
Proof.
  intros (Hmap & h & Hheap & Htimers & Hbase).
  destruct (advance_foreign t s) as (Hm & Hhp & Ht & Hn & Hp).
  { by apply Forall_filter_weaken. }
  unfold Bot.settled. rewrite Hm, Hhp, Ht, Hp.
  split; [done|]. exists h. split_and!; try done. by apply Forall_filter_weaken.
Qed.

Lemma largest_readable photo :
  truthy_string (largest photo) = true →
  getLargestPhotoFileId photo = Some (largest photo).
Proof.
  unfold largest. by destruct (getLargestPhotoFileId photo).
Qed.

Lemma getDraft_lookup s d :
  broadcastDrafts s !! uid = Some r → heap s !! r = Some d →
  getDraft uid s = Some (r, d).
Proof. intros Hmap Hheap. unfold getDraft. by rewrite Hmap, Hheap. Qed.

Context (Hg : truthy_string g = true).

(** The first photo of the album arms the timer. *)
Lemma on_photo_opened now photo s :
  opened s → truthy_string (largest photo) = true →
  collecting [largest photo] (now + ALBUM_DELAY)
    (on_photo now (Some uid) photo (Some g) s).
Proof.
  intros (Hmap & Hheap & Htimers & Hbase) Hphoto.
  unfold on_photo.
  rewrite (getDraft_lookup _ _ Hmap Hheap), (largest_readable _ Hphoto), Hphoto.
  cbn [step freshDraft photoFileIds mediaGroupTimer getMediaGroupId negb length].
  rewrite bool_decide_eq_true_2 by done. cbn [negb].
  rewrite bool_decide_eq_false_2 by (unfold MAX_BROADCAST_PHOTOS; lia).
  rewrite Hg. cbn [setTimeout updateDraft setHeap heap broadcastDrafts timers
    nextHandle nextRef replies db].
  unfold Bot.collecting.
  cbn [updateDraft setHeap heap broadcastDrafts timers nextHandle].
  split; [done|]. split; [done|].
  exists (nextHandle s), (timers s).
  rewrite !lookup_alter_eq, Hheap. split_and!; try done. lia.
Qed.

(** A further photo, while there is room, is appended and re-arms the
    timer. *)
Lemma on_photo_collecting_room now photo photos d s :
  collecting photos d s → (length photos < MAX_BROADCAST_PHOTOS)%nat →
  truthy_string (largest photo) = true →
  collecting (photos ++ [largest photo]) (now + ALBUM_DELAY)
    (on_photo now (Some uid) photo (Some g) s).
Proof.
  intros (Hne & Hmap & h & others & Hheap & Htimers & Hothers & Hh & Hbase)
    Hroom Hphoto.
  unfold on_photo.
  rewrite (getDraft_lookup _ _ Hmap Hheap), (largest_readable _ Hphoto), Hphoto.
  cbn [step albumDraft photoFileIds mediaGroupTimer getMediaGroupId negb].
  rewrite bool_decide_eq_true_2 by done. cbn [negb].
  rewrite bool_decide_eq_false_2 by lia.
  rewrite Hg. unfold clearTimeout.
  cbn [setTimeout updateDraft setHeap setTimers heap broadcastDrafts timers
    nextHandle nextRef replies db].
  assert (Hcleared : filter (fun tm => handle tm ≠ h) (timers s) = others).
  { rewrite Htimers, filter_timers_split. cbn [handle albumTimer].
    rewrite decide_False by (by intros Hnot). rewrite app_nil_r.
    clear -Hothers. induction Hothers as [|tm l [_ Hlt] _ IH]; [done|].
    rewrite filter_cons_True by lia. by rewrite IH. }
  rewrite Hcleared.
  unfold Bot.collecting.
  cbn [updateDraft setHeap heap broadcastDrafts timers nextHandle].
  split; [by destruct photos|]. split; [done|].
  exists (nextHandle s), others.
  rewrite !lookup_alter_eq, Hheap. split_and!; try done; [|lia].
  eapply Forall_impl; [done|]. intros tm [? ?]. split; [done|lia].
Qed.

(** At three photos a further one is turned away: the draft and its timer
    stay as they are. *)
Lemma on_photo_collecting_full now photo photos d s :
  collecting photos d s → (MAX_BROADCAST_PHOTOS ≤ length photos)%nat →
  truthy_string (largest photo) = true →
  collecting photos d (on_photo now (Some uid) photo (Some g) s).
Proof.
  intros (Hne & Hmap & h & others & Hheap & Htimers & Hothers & Hh & Hbase)
    Hfull Hphoto.
  unfold on_photo.
  rewrite (getDraft_lookup _ _ Hmap Hheap), (largest_readable _ Hphoto), Hphoto.
  cbn [step albumDraft photoFileIds negb].
  rewrite bool_decide_eq_true_2 by done. cbn [negb].
  rewrite bool_decide_eq_true_2 by done.
  unfold Bot.collecting. rewrite textPrompts_reply.
  rewrite decide_False by (by intros [_ ?]). rewrite app_nil_r.
  cbn [reply heap broadcastDrafts timers nextHandle].
  split; [done|]. split; [done|]. by exists h, others.
Qed.

(** Once the draft awaits its text, photos are dropped. *)
Lemma on_photo_settled now photo photos d s :
  settled photos d s → on_photo now (Some uid) photo (Some g) s = s.
Proof.
  intros (Hmap & h & Hheap & _). unfold on_photo.
  by rewrite (getDraft_lookup _ _ Hmap Hheap).
Qed.

Lemma runTimeline_album_cons e burst s :
  runTimeline (albumEvents uid g (e :: burst)) s
  = runTimeline (albumEvents uid g burst)
      (on_photo e.1 (Some uid) e.2 (Some g) (advance e.1 s)).
Proof. done. Qed.

Lemma run_settled (burst : list (Z * list string)) photos d s :
  settled photos d s → settled photos d (runTimeline (albumEvents uid g burst) s).
Proof.
  revert s. induction burst as [|e burst IH]; intros s Hs; [done|].
  rewrite runTimeline_album_cons. apply IH.
  apply (advance_settled e.1) in Hs.
  by rewrite (on_photo_settled _ _ _ _ _ Hs).
Qed.

(** With three photos in, the rest of the burst changes nothing: the timer
    armed by the third photo stays, and fires when an arrival finds it
    due. *)
Lemma run_full (burst : list (Z * list string)) photos d s :
  collecting photos d s → (MAX_BROADCAST_PHOTOS ≤ length photos)%nat →
  Forall readable burst →
  let s' := runTimeline (albumEvents uid g burst) s in
  collecting photos d s' ∨ (settled photos d s' ∧ Exists (fun e => d <= e.1) burst).
Proof.
  intros Hs Hfull. revert s Hs.
  induction burst as [|e burst IH]; intros s Hs Hread; [by left|].
  apply Forall_cons in Hread as [He Hread].
  cbn zeta. rewrite runTimeline_album_cons.
  destruct (decide (d <= e.1)) as [Hdue|Hearly].
  - right. split; [|by left].
    apply run_settled.
    pose proof (advance_collecting_due e.1 _ _ _ Hs Hdue) as Hset.
    by rewrite (on_photo_settled _ _ _ _ _ Hset).
  - assert (Hnext : collecting photos d
              (on_photo e.1 (Some uid) e.2 (Some g) (advance e.1 s))).
    { apply on_photo_collecting_full; [|done..].
      apply advance_collecting_early; [done|lia]. }
    destruct (IH _ Hnext Hread) as [Hc|[Hset Hex]]; [by left|].
    right. split; [done|by right].
Qed.

(** What the draft looks like at a moment [T] after the burst. *)
Lemma album_outcome (burst : list (Z * list string)) photos d s :
  collecting photos d s ∨ (settled photos d s ∧ Exists (fun e => d <= e.1) burst) →
  (∀ T, Forall (fun e => e.1 <= T) burst → d <= T →
     (∃ h, getDraft uid (advance T s) = Some (r, albumDraft g await_text photos h))
     ∧ textPrompts uid (advance T s)
       = base ++ [{| sentAt := d; chat := uid; notice := TextPromptAfterAlbum |}])
  ∧ (∀ T, Forall (fun e => e.1 <= T) burst → T < d →
     (∃ h, getDraft uid (advance T s) = Some (r, albumDraft g await_photos photos h))
     ∧ textPrompts uid (advance T s) = base).
Proof.
  intros Hs. split; intros T Hpast HT.
  - assert (Hset : settled photos d (advance T s)).
    { destruct Hs as [Hc|[Hset _]];
        [by apply advance_collecting_due|by apply advance_settled]. }
    destruct Hset as (Hmap & h & Hheap & _ & Hprompts).
    split; [|done]. exists h. by apply getDraft_lookup.
  - destruct Hs as [Hc|[_ Hex]].
    + apply (advance_collecting_early T) in Hc; [|done].
      destruct Hc as (_ & Hmap & h & others & Hheap & _ & _ & _ & Hprompts).
      split; [|done]. exists h. by apply getDraft_lookup.
    + apply Exists_exists in Hex as (e & He & Hde).
      rewrite Forall_forall in Hpast. specialize (Hpast e He). lia.
Qed.

End OneDraft.

(** C7, as the code has it.  A burst of album photos, each arriving less
    than 700 ms after the one before, moves a freshly opened draft to
    [await_text] exactly once: 700 ms after the arrival of the last photo
    that was taken in, which is the last photo of the burst if the burst
    has at most three and the third one otherwise.  Until then the draft
    awaits photos and no request for text has gone out; from then on it
    holds the first three photos in arrival order, and the one request
    for text bears that instant. *)
Theorem album_settles_once_after_last_accepted
    uid r g base (burst : list (Z * list string)) s :
  truthy_string g = true →
  Forall readable burst → burst ≠ [] → closelySpaced burst.*1 →
  opened uid r base s →
  let accepted := take MAX_BROADCAST_PHOTOS burst in
  let photos := largest <$> accepted.*2 in
  let settle := default 0 (last accepted.*1) + ALBUM_DELAY in
  let after T := advance T (runTimeline (albumEvents uid g burst) s) in
  (∀ T, Forall (fun e => e.1 <= T) burst → settle <= T →
     (∃ h, getDraft uid (after T) = Some (r, albumDraft g await_text photos h))
     ∧ textPrompts uid (after T)
       = base ++ [{| sentAt := settle; chat := uid; notice := TextPromptAfterAlbum |}])
  ∧ (∀ T, Forall (fun e => e.1 <= T) burst → T < settle →
     (∃ h, getDraft uid (after T) = Some (r, albumDraft g await_photos photos h))
     ∧ textPrompts uid (after T) = base).
Proof.
  intros Hg Hread Hne Hclose Hopen.
  destruct burst as [|[t1 p1] rest]; [done|]. clear Hne.
  apply Forall_cons in Hread as [H1 Hread].
  rewrite runTimeline_album_cons.
  assert (Hs1 : collecting uid r g base [largest p1] (t1 + ALBUM_DELAY)
                  (on_photo t1 (Some uid) p1 (Some g) (advance t1 s))).
  { apply on_photo_opened; [done| |done]. by apply advance_opened. }
  destruct rest as [|[t2 p2] rest].
  { exact (album_outcome uid r g base [(t1, p1)] [largest p1] (t1 + ALBUM_DELAY)
             _ (or_introl Hs1)). }
  apply Forall_cons in Hread as [H2 Hread].
  destruct Hclose as [Hgap1 Hclose].
  rewrite runTimeline_album_cons.
  assert (Hs2 : collecting uid r g base [largest p1; largest p2] (t2 + ALBUM_DELAY)
                  (on_photo t2 (Some uid) p2 (Some g)
                     (advance t2 (on_photo t1 (Some uid) p1 (Some g) (advance t1 s))))).
  { apply (on_photo_collecting_room uid r g base Hg t2 p2 [largest p1]
             (t1 + ALBUM_DELAY));
      [|cbn; unfold MAX_BROADCAST_PHOTOS; lia|done].
    apply advance_collecting_early; [done|]. cbn in Hgap1. lia. }
  destruct rest as [|[t3 p3] rest].
  { exact (album_outcome uid r g base [(t1, p1); (t2, p2)]
             [largest p1; largest p2] (t2 + ALBUM_DELAY) _ (or_introl Hs2)). }
  apply Forall_cons in Hread as [H3 Hread].
  destruct Hclose as [Hgap2 Hclose].
  rewrite runTimeline_album_cons.
  assert (Hs3 : collecting uid r g base [largest p1; largest p2; largest p3]
                  (t3 + ALBUM_DELAY)
                  (on_photo t3 (Some uid) p3 (Some g)
                     (advance t3
                        (on_photo t2 (Some uid) p2 (Some g)
                           (advance t2
                              (on_photo t1 (Some uid) p1 (Some g) (advance t1 s))))))).
  { apply (on_photo_collecting_room uid r g base Hg t3 p3 [largest p1; largest p2]
             (t2 + ALBUM_DELAY));
      [|cbn; unfold MAX_BROADCAST_PHOTOS; lia|done].
    apply advance_collecting_early; [done|]. cbn in Hgap2. lia. }
  pose proof (run_full uid r g base rest _ _ _ Hs3 (Nat.le_refl _) Hread) as Hend.
  assert (Hfinal : collecting uid r g base [largest p1; largest p2; largest p3]
                     (t3 + ALBUM_DELAY) (runTimeline (albumEvents uid g rest)
                        (on_photo t3 (Some uid) p3 (Some g)
                           (advance t3
                              (on_photo t2 (Some uid) p2 (Some g)
                                 (advance t2
                                    (on_photo t1 (Some uid) p1 (Some g)
                                       (advance t1 s)))))))
                   ∨ (settled uid r g base [largest p1; largest p2; largest p3]
                        (t3 + ALBUM_DELAY) (runTimeline (albumEvents uid g rest)
                          (on_photo t3 (Some uid) p3 (Some g)
                             (advance t3
                                (on_photo t2 (Some uid) p2 (Some g)
                                   (advance t2
                                      (on_photo t1 (Some uid) p1 (Some g)
                                         (advance t1 s)))))))
                      ∧ Exists (fun e : Z * list string => t3 + ALBUM_DELAY <= e.1)
                          ((t1, p1) :: (t2, p2) :: (t3, p3) :: rest))).
  { destruct Hend as [Hc|[Hset Hex]]; [by left|].
    right. split; [done|]. by do 3 right. }
  exact (album_outcome uid r g base ((t1, p1) :: (t2, p2) :: (t3, p3) :: rest)
           [largest p1; largest p2; largest p3] (t3 + ALBUM_DELAY) _ Hfinal).
Qed.

Lemma openedState_opened : opened 7 0 [] openedState.
Proof.
  unfold opened. split_and!; [vm_compute; reflexivity..| |reflexivity].
  vm_compute. constructor.
Qed.

Lemma album_settles_once_after_last_accepted_witness :
  let after T := advance T (runTimeline (albumEvents 7 "album-1" burstOfThree) openedState) in
  (∀ T, Forall (fun e => e.1 <= T) burstOfThree → 210 + ALBUM_DELAY <= T →
     (∃ h, getDraft 7 (after T)
           = Some (0%nat, albumDraft "album-1" await_text ["a"; "b"; "c"] h))
     ∧ textPrompts 7 (after T)
       = [] ++ [{| sentAt := 210 + ALBUM_DELAY; chat := 7;
                   notice := TextPromptAfterAlbum |}])
  ∧ (∀ T, Forall (fun e => e.1 <= T) burstOfThree → T < 210 + ALBUM_DELAY →
     (∃ h, getDraft 7 (after T)
           = Some (0%nat, albumDraft "album-1" await_photos ["a"; "b"; "c"] h))
     ∧ textPrompts 7 (after T) = []).
Proof.
  apply (album_settles_once_after_last_accepted 7 0 "album-1" [] burstOfThree
           openedState).
  - reflexivity.
  - repeat constructor.
  - discriminate.
  - cbn. unfold ALBUM_DELAY. lia.
  - apply openedState_opened.
Defined.

(** The fourth photo of an album is turned away before the timer is
    touched, so the timer armed by the third photo runs out on its own:
    with photos at 10, 110, 210 and 310 ms the draft has moved on at
    950 ms, which is less than 700 ms after the last of them. *)
Lemma album_of_four_settles_early :
  ¬ (∀ uid r g base (burst : list (Z * list string)) s T,
       truthy_string g = true →
       Forall readable burst → burst ≠ [] → closelySpaced burst.*1 →
       opened uid r base s →
       Forall (fun e => e.1 <= T) burst →
       T < default 0 (last burst.*1) + ALBUM_DELAY →
       textPrompts uid (advance T (runTimeline (albumEvents uid g burst) s)) = base).
Proof.
  intros Hall.
  specialize (Hall 7 0%nat "album-1" [] burstOfFour openedState 950).
  assert (Hprompt : textPrompts 7
            (advance 950 (runTimeline (albumEvents 7 "album-1" burstOfFour) openedState))
          = [{| sentAt := 910; chat := 7; notice := TextPromptAfterAlbum |}]).
  { vm_compute. reflexivity. }
  rewrite Hprompt in Hall. discriminate Hall.
  - reflexivity.
  - repeat constructor.
  - discriminate.
  - cbn. unfold ALBUM_DELAY. lia.
  - apply openedState_opened.
  - repeat constructor; cbn; lia.
  - cbn. unfold ALBUM_DELAY. lia.
Qed.

End AlbumFacts.

(** ** Attachment views of the mini-app *)

Module MiniappFacts.
Import Js Miniapp.

Section RouteFacts.
Variable Number : string -> option Z.
Variable basename : string -> string.
Variable readWorkbook : string -> Workbook.

Abbreviation resolve := (resolveTelegramUserId Number).
Abbreviation build := (buildTrainingFileViewData basename readWorkbook).
Abbreviation serve := (fileRoute Number basename readWorkbook).

(** The answer is 403 exactly when the order exists and a nonzero id
    resolved from the request differs from the owner's. *)
Lemma fileRoute_403 template orders req :
  status (serve template orders req) = 403
  ↔ findRejected req = false
    ∧ ∃ order id, orders !! params_id req = Some order
        ∧ resolve req = Some id ∧ id ≠ 0 ∧ telegramUserId order ≠ id.
Proof.
  unfold fileRoute.
  destruct (findRejected req) eqn:Hfind; [by split; [|intros [? _]]|].
  destruct (orders !! params_id req) as [order|] eqn:Horder;
    [|by split; [|intros (_ & ? & ? & ? & _)]].
  destruct (resolve req) as [id|] eqn:Hres; cbn [andb];
    [|split; [by destruct (truthy_string _)|by intros (_ & ? & ? & _ & ? & _)]].
  unfold truthy_number.
  destruct (Z.eqb_spec id 0) as [->|Hid]; cbn [negb andb].
  { split; [by destruct (truthy_string _)|].
    intros (_ & ? & ? & _ & ? & ? & _). by simplify_eq. }
  case_bool_decide as Hown; cbn [negb].
  { split; [by destruct (truthy_string _)|].
    intros (_ & ? & ? & ? & ? & _ & ?). by simplify_eq. }
  split; [|done]. intros _. split; [done|]. by exists order, id.
Qed.

(** Without an id the order found is rendered, whoever it belongs to. *)
Lemma fileRoute_anonymous template orders req order :
  findRejected req = false → resolve req = None →
  orders !! params_id req = Some order →
  serve template orders req
  = {| status := if truthy_string (error (build (Some order))) then 404 else 200;
       view := template; telegramId := None; locals := build (Some order) |}.
Proof. intros Hfind Hres Horder. unfold fileRoute. by rewrite Hfind, Hres, Horder. Qed.

End RouteFacts.

(** C9.  On both file views a 403 means that a Telegram id was resolved
    from the request and is not the id the order carries; when none is
    resolved, the view data of the order found is rendered as is. *)
Theorem file_views_check_owner_only_when_known
    (Number : string → option Z) (basename : string → string)
    (readWorkbook : string → Workbook)
    (Order NutritionOrder : gmap string OrderDoc) (req : Request) :
  let resolved := resolveTelegramUserId Number req in
  let build := buildTrainingFileViewData basename readWorkbook in
  let training := trainings_file Number basename readWorkbook Order req in
  let nutrition := nutrition_file Number basename readWorkbook NutritionOrder req in
  (status training = 403 →
     ∃ order id, Order !! params_id req = Some order
       ∧ resolved = Some id ∧ telegramUserId order ≠ id)
  ∧ (status nutrition = 403 →
     ∃ order id, NutritionOrder !! params_id req = Some order
       ∧ resolved = Some id ∧ telegramUserId order ≠ id)
  ∧ (resolved = None → findRejected req = false →
     (∀ order, Order !! params_id req = Some order →
        status training ≠ 403 ∧ locals training = build (Some order)
        ∧ telegramId training = None
        ∧ status training = (if truthy_string (error (build (Some order))) then 404 else 200))
     ∧ (∀ order, NutritionOrder !! params_id req = Some order →
        status nutrition ≠ 403 ∧ locals nutrition = build (Some order)
        ∧ telegramId nutrition = None
        ∧ status nutrition = (if truthy_string (error (build (Some order))) then 404 else 200))).
Proof.
  intros resolved build training nutrition. split_and!.
  - intros (_ & order & id & ? & ? & _ & ?)%fileRoute_403. eauto.
  - intros (_ & order & id & ? & ? & _ & ?)%fileRoute_403. eauto.
  - intros Hres Hfind. split; intros order Horder.
    + unfold training, trainings_file.
      rewrite (fileRoute_anonymous _ _ _ _ _ _ order Hfind Hres Horder). cbn.
      by destruct (truthy_string _).
    + unfold nutrition, nutrition_file.
      rewrite (fileRoute_anonymous _ _ _ _ _ _ order Hfind Hres Horder). cbn.
      by destruct (truthy_string _).
Qed.

Lemma file_views_check_owner_only_when_known_witness :
  status (trainings_file sampleNumber sampleBasename sampleWorkbook sampleOrders
            strangerRequest) = 403
  ∧ status (trainings_file sampleNumber sampleBasename sampleWorkbook sampleOrders
              anonymousRequest) = 200
  ∧ fileName (locals (nutrition_file sampleNumber sampleBasename sampleWorkbook
                        sampleOrders anonymousRequest)) = "Plan.xlsx".
Proof.
  pose proof (file_views_check_owner_only_when_known sampleNumber sampleBasename
                sampleWorkbook sampleOrders sampleOrders anonymousRequest)
    as (_ & _ & Hanon).
  destruct (Hanon eq_refl eq_refl) as [Htr Hnu].
  destruct (Htr _ eq_refl) as (_ & _ & _ & Hstatus).
  destruct (Hnu _ eq_refl) as (_ & Hlocals & _).
  split_and!.
  - reflexivity.
  - exact Hstatus.
  - rewrite Hlocals. reflexivity.
Defined.

End MiniappFacts.

(** ** Order decisions and the user refresh *)

Module AdminFacts.
Import Js Admin.

(** [findOneAndUpdate] changes the first document its filter selects and
    no other; without such a document it changes nothing. *)
Lemma findOneAndUpdate_spec selects update docs :
  (findOneAndUpdate selects update docs = (None, docs)
   ∧ ∀ d, d ∈ docs → selects d = false)
  ∨ (∃ before d after,
       docs = before ++ d :: after ∧ selects d = true
       ∧ (∀ x, x ∈ before → selects x = false)
       ∧ findOneAndUpdate selects update docs
         = (Some (update d), before ++ update d :: after)).
Proof.
  induction docs as [|d rest IH]; cbn.
  - left. split; [done|]. by intros d Hd%elem_of_nil.
  - destruct (selects d) eqn:Hsel.
    + right. exists [], d, rest. split_and!; try done.
      by intros x Hx%elem_of_nil.
    + destruct IH as [[Hnone Hall]|(before & o & after & -> & Ho & Hbefore & Hfound)].
      * left. rewrite Hnone. split; [done|].
        intros x [->|Hx]%elem_of_cons; auto.
      * right. exists (d :: before), o, after. rewrite Hfound.
        split_and!; try done.
        intros x [->|Hx]%elem_of_cons; auto.
Qed.

Lemma byIdAndStatus_true id wanted d :
  byIdAndStatus id wanted d = true ↔ _id d = id ∧ status d = wanted.
Proof.
  unfold byIdAndStatus.
  rewrite andb_true_iff, !bool_decide_eq_true. done.
Qed.

(** The shared tail of the three routes. *)
Lemma decide_order_guarded req wanted update userStatus answer notFound failure db :
  let '(resp, db') :=
    decide_order req wanted update userStatus answer notFound failure db in
  (db' = db
   ∧ (updateRejected req = false →
        code resp = 404
        ∧ ∀ d, d ∈ orders db → ¬ (_id d = params_id req ∧ status d = wanted)))
  ∨ (∃ before d after,
       orders db = before ++ d :: after
       ∧ _id d = params_id req ∧ status d = wanted
       ∧ orders db' = before ++ update d :: after).
Proof.
  unfold decide_order.
  destruct (updateRejected req); [by left|].
  destruct (findOneAndUpdate_spec (byIdAndStatus (params_id req) wanted) update (orders db))
    as [[-> Hall]|(before & d & after & Hdocs & Hsel & _ & ->)].
  - left. split; [done|]. intros _. split; [done|].
    intros d Hd Hmatch%byIdAndStatus_true. by rewrite (Hall d Hd) in Hmatch.
  - apply byIdAndStatus_true in Hsel as [Hid Hst].
    destruct (userUpdateRejected req); right; by exists before, d, after.
Qed.

(** C10.  Accept and decline change an order only if its status is
    "pending", complete only if it is "accepted"; the order changed is the
    one named in the request and gets the new status, every other order
    stays as it is.  When no order with that id has the status asked for,
    the database is left untouched, and a request that reaches the update
    is answered 404. *)
Theorem decisions_guarded_by_status (d : Decision) (req : Request) (db : Db) :
  let resp := (route d req db).1 in
  let db' := (route d req db).2 in
  (db' = db
   ∨ ∃ before o o' after,
       orders db = before ++ o :: after
       ∧ _id o = params_id req ∧ status o = wantedStatus d
       ∧ orders db' = before ++ o' :: after
       ∧ _id o' = _id o ∧ status o' = newStatus d)
  ∧ ((∀ o, o ∈ orders db → ¬ (_id o = params_id req ∧ status o = wantedStatus d)) →
       db' = db ∧ (reachesUpdate d req → code resp = 404)).
Proof.
  assert (Hdisj : ∀ before (o : OrderDoc) after,
            orders db = before ++ o :: after → _id o = params_id req →
            status o = wantedStatus d →
            (∀ x, x ∈ orders db → ¬ (_id x = params_id req ∧ status x = wantedStatus d)) →
            False).
  { intros before o after Hdocs Hid Hst Hnone.
    apply (Hnone o); [|done]. rewrite Hdocs. apply elem_of_app. right. by left. }
  destruct d; cbn [route wantedStatus newStatus];
    unfold requests_accept, requests_decline, trainings_complete, reachesUpdate;
    (destruct (truthy_id (resolvedAdminTelegramId req)) as [admin|];
       [|cbn; split; [by left|]; intros _; split; [done|];
         by intros [[? [=]] _]]).
  - destruct (truthy_string (attachmentData req)); cbn [negb];
      [|cbn; split; [by left|]; intros _; split; [done|];
        by intros (_ & _ & Hacc); destruct (Hacc eq_refl) as [[=] _]].
    destruct (excelAttachment req); cbn [negb];
      [|cbn; split; [by left|]; intros _; split; [done|];
        by intros (_ & _ & Hacc); destruct (Hacc eq_refl) as (_ & [=] & _)].
    destruct (saveAttachment req) as [saved|e];
      [|cbn; split; [by left|]; intros _; split; [done|];
        by intros (_ & _ & Hacc); destruct (Hacc eq_refl) as (_ & _ & ? & [=])].
    pose proof (decide_order_guarded req "pending" (acceptUpdate admin req saved)
      "active" "accepted" "Request not found" "Failed to accept request" db) as H.
    destruct (decide_order _ _ _ _ _ _ _ _) as [resp db']. cbn [fst snd].
    destruct H as [[-> H404]|(before & o & after & Hdocs & Hid & Hst & Hnew)].
    + split; [by left|]. intros _. split; [done|].
      intros (_ & Hrej & _). by apply H404.
    + split; [right; by exists before, o, (acceptUpdate admin req saved o), after|].
      intros Hnone. by destruct (Hdisj before o after).
  - pose proof (decide_order_guarded req "pending" (declineUpdate admin req)
      "declined" "declined" "Request not found" "Failed to decline request" db) as H.
    destruct (decide_order _ _ _ _ _ _ _ _) as [resp db']. cbn [fst snd].
    destruct H as [[-> H404]|(before & o & after & Hdocs & Hid & Hst & Hnew)].
    + split; [by left|]. intros _. split; [done|].
      intros (_ & Hrej & _). by apply H404.
    + split; [right; by exists before, o, (declineUpdate admin req o), after|].
      intros Hnone. by destruct (Hdisj before o after).
  - pose proof (decide_order_guarded req "accepted" (completeUpdate admin req)
      "completed" "completed" "Training not found" "Failed to complete training" db) as H.
    destruct (decide_order _ _ _ _ _ _ _ _) as [resp db']. cbn [fst snd].
    destruct H as [[-> H404]|(before & o & after & Hdocs & Hid & Hst & Hnew)].
    + split; [by left|]. intros _. split; [done|].
      intros (_ & Hrej & _). by apply H404.
    + split; [right; by exists before, o, (completeUpdate admin req o), after|].
      intros Hnone. by destruct (Hdisj before o after).
Qed.

Lemma decisions_guarded_by_status_witness :
  (route Decline (sampleRequest "o9") sampleDb).2 = sampleDb
  ∧ code (route Decline (sampleRequest "o9") sampleDb).1 = 404.
Proof.
  destruct (decisions_guarded_by_status Decline (sampleRequest "o9") sampleDb)
    as [_ Hnone].
  destruct Hnone as [Hdb H404].
  - intros o Ho%list_elem_of_singleton [Hid _]. subst o. discriminate Hid.
  - split; [exact Hdb|]. apply H404. split_and!.
    + by exists 1.
    + reflexivity.
    + intros [=].
Defined.

Example accept_pending_order :
  let '(resp, db') := route Accept (sampleRequest "o1") sampleDb in
  code resp = 200 ∧ status <$> orders db' = ["accepted"]
  ∧ trainingStatus <$> users db' = ["active"].
Proof. vm_compute. done. Qed.

Example complete_needs_accepted_order :
  route Complete (sampleRequest "o1") sampleDb
  = ({| code := 404; message := "Training not found" |}, sampleDb).
Proof. vm_compute. reflexivity. Qed.

(** The refresh loop keeps the same discipline as the delivery loop: a
    user whose lookup or update throws is counted as failed and the loop
    goes on.  [updated + failed] counts the users that carry a Telegram
    id; [processed] is the number of users read, with or without one. *)
Lemma foldl_refreshOne counts users :
  let r := foldl refreshOne counts users in
  (r.1 + r.2
   = counts.1 + counts.2
     + length (filter (fun u => is_Some (truthy_id (userTelegramId u))) users))%nat.
Proof.
  revert counts. induction users as [|u users IH]; intros counts; cbn [foldl].
  - cbn. lia.
  - cbn zeta in *. rewrite IH, filter_cons. unfold refreshOne.
    destruct (truthy_id (userTelegramId u)) as [id|].
    + rewrite decide_True by eauto. destruct (outcome u); cbn; lia.
    + rewrite decide_False by (by intros [? [=]]). lia.
Qed.

Lemma users_refresh_counts users :
  let report := users_refresh users in
  (updated report + failed report
   = length (filter (fun u => is_Some (truthy_id (userTelegramId u))) users))%nat
  ∧ (updated report + failed report ≤ processed report)%nat
  ∧ processed report = length users.
Proof.
  unfold users_refresh. cbn.
  pose proof (foldl_refreshOne (0%nat, 0%nat) users) as H. cbn in H.
  rewrite H. split_and!; [done| |done]. apply length_filter.
Qed.

End AdminFacts.

Module LedgerMoreFacts.
Import Js Eff Mongo MongoFacts Ledger LedgerFacts LedgerViews.

(** Whatever the driver rejects, [logAppError] leaves the database in one
    of three shapes: untouched, with the new document, or with the new
    document and the oldest ones removed. *)
Lemma logAppError_outcomes env error context db :
  let db' := (logAppError env error context db).2 in
  db' = db
  ∨ ∃ m, messageOf error = Normal m
      ∧ let stored := appErrors db ++ [loggedDoc env m error context db] in
        broadcasts db' = broadcasts db ∧ nextId db' = S (nextId db)
        ∧ (appErrors db' = stored
           ∨ ((500 < length stored)%nat
              ∧ appErrors db'
                = deleteManyIn (oldestIds (length stored - 500) stored) stored)).
Proof.
  unfold logAppError, lift, try_catch. unfold bind at 1.
  destruct (messageOf error) as [m|e] eqn:Hm; [|by left].
  unfold create, count, findOldestIds, deleteMany, attempt, when,
    bind, ret, gets, modify, throw.
  destruct (fails env CallCreate); [by left|].
  right. exists m. split; [done|].
  cbn [fst snd docs withDocs AppError freshId appErrors broadcasts nextId].
  destruct (fails env CallCount); [cbn; by auto|].
  unfold countDocuments, insertOne, loggedDoc.
  case_bool_decide as Hover; [|cbn; by auto].
  destruct (fails env CallFind); [cbn; by auto|].
  cbn [fst snd docs withDocs AppError freshId appErrors broadcasts nextId].
  destruct (bool_decide (length _ = 0%nat)); cbn [negb]; [cbn; by auto|].
  destruct (fails env CallDelete); cbn; auto.
Qed.

Lemma wf_coll_filter {P} next (keep : Doc P → Prop) `{∀ d, Decision (keep d)}
    (c : Coll P) :
  wf_coll next c → wf_coll next (filter keep c).
Proof.
  intros [Hnd Hlt]. split.
  - eapply sublist_NoDup; [done|]. apply fmap_sublist, sublist_filter.
  - rewrite Forall_forall in *. intros d [_ Hd]%list_elem_of_filter. auto.
Qed.

Lemma wf_coll_mono {P} next (c : Coll P) : wf_coll next c → wf_coll (S next) c.
Proof.
  intros [Hnd Hlt]. split; [done|].
  eapply Forall_impl; [done|]. cbn. lia.
Qed.

Lemma wf_coll_insertOne {P} next t (payload : P) (c : Coll P) :
  wf_coll next c → wf_coll (S next) (c ++ [mkDoc next t payload]).
Proof.
  intros Hwf. split.
  - by apply (wf_insertOne next t payload c).
  - apply Forall_app. split; [by apply wf_coll_mono|].
    apply Forall_singleton. cbn. lia.
Qed.

(** The identifiers in both collections stay unique, and below the next
    one to be handed out, through a [logAppError] call. *)
Lemma logAppError_wf env error context db :
  wf db → wf (logAppError env error context db).2.
Proof.
  intros [Herr Hbc].
  destruct (logAppError_outcomes env error context db)
    as [->|(m & _ & Hb & Hn & Hshape)]; [done|].
  unfold wf. rewrite Hb, Hn. split; [|by apply wf_coll_mono].
  destruct Hshape as [->|[_ ->]].
  - by apply wf_coll_insertOne.
  - unfold deleteManyIn. by apply wf_coll_filter, wf_coll_insertOne.
Qed.

(** X2.  Whatever is rejected, what the error log holds after a call is a
    sublist of what it held before followed by the one new document: a
    stored document is never rewritten, moved or duplicated, and an error
    whose message cannot be read stores nothing. *)
Theorem logAppError_only_appends_and_drops env error context db :
  appErrors (logAppError env error context db).2
    `sublist_of`
  appErrors db ++ match messageOf error with
                  | Normal m => [loggedDoc env m error context db]
                  | Thrown _ => []
                  end.
Proof.
  destruct (logAppError_outcomes env error context db)
    as [->|(m & -> & _ & _ & Hshape)].
  - by apply sublist_inserts_r.
  - destruct Hshape as [->|[_ ->]]; [done|]. apply sublist_filter.
Qed.

(** Below the capacity nothing is evicted: a completed call adds its
    document at the end and leaves the rest as it was. *)
Lemma logAppError_appends_below_capacity env error context db m :
  reliable env → messageOf error = Normal m →
  (length (appErrors db) < 500)%nat →
  (logAppError env error context db).2
  = {| appErrors := appErrors db ++ [loggedDoc env m error context db];
       broadcasts := broadcasts db; nextId := S (nextId db) |}.
Proof.
  intros Hrel Hm Hroom.
  rewrite (logAppError_reliable _ _ _ _ m Hrel Hm). cbn [snd].
  rewrite pruned_small; [done|].
  unfold insertOne, capacity. rewrite length_app. cbn. lia.
Qed.

Lemma strictly_sorted_inj {P} (c : Coll P) x y :
  StronglySorted created_lt c → x ∈ c → y ∈ c → createdAt x = createdAt y → x = y.
Proof.
  induction 1 as [|d c Hc IH Hd]; [by intros ?%elem_of_nil|].
  rewrite Forall_forall in Hd. unfold created_lt in Hd.
  intros [->|Hx]%elem_of_cons [->|Hy]%elem_of_cons Heq; auto.
  - specialize (Hd y Hy). lia.
  - specialize (Hd x Hx). lia.
Qed.

Lemma strictly_sorted_sorted {P} (c : Coll P) :
  StronglySorted created_lt c → StronglySorted created_le c.
Proof.
  induction 1 as [|d c Hc IH Hd]; constructor; [done|].
  eapply Forall_impl; [done|]. unfold created_lt, created_le. intros; lia.
Qed.

(** Sorting a collection that is in strict creation order changes
    nothing. *)
Lemma sortByCreatedAt_sorted_id {P} (c : Coll P) :
  StronglySorted created_lt c → sortByCreatedAt c = c.
Proof.
  intros Hc. apply (StronglySorted_unique_strong created_le).
  - intros x y Hx Hy Hxy Hyx. rewrite sortByCreatedAt_perm in Hx.
    apply (strictly_sorted_inj c); [done..|]. unfold created_le in *. lia.
  - apply sortByCreatedAt_sorted.
  - by apply strictly_sorted_sorted.
  - apply sortByCreatedAt_perm.
Qed.

Lemma pruned_of_sorted {P} (c : Coll P) :
  NoDup (doc_id <$> c) → StronglySorted created_lt c → pruned c = lastN 500 c.
Proof.
  intros Hnd Hc. unfold pruned, lastN, capacity.
  case_bool_decide as Hover.
  - unfold oldestIds. rewrite (sortByCreatedAt_sorted_id c Hc).
    set (k := (length c - 500)%nat).
    rewrite <- (take_drop k c) at 2. unfold deleteManyIn. rewrite filter_app.
    fold (deleteManyIn (doc_id <$> take k c) (take k c)).
    fold (deleteManyIn (doc_id <$> take k c) (drop k c)).
    rewrite deleteManyIn_selected by (intros d Hd; by apply list_elem_of_fmap_2).
    rewrite deleteManyIn_others; [done|].
    intros d Hd Hin. rewrite <- (take_drop k c), fmap_app in Hnd.
    apply NoDup_app in Hnd as (_ & Hdisj & _).
    apply (Hdisj (doc_id d)); [done|]. by apply list_elem_of_fmap_2.
  - replace (length c - 500)%nat with 0%nat by lia. done.
Qed.

Lemma lastN_app_lastN {A} n (l k : list A) :
  lastN n (lastN n l ++ k) = lastN n (l ++ k).
Proof.
  unfold lastN. rewrite !length_app, length_drop.
  destruct (decide (length l ≤ n)%nat) as [Hle|Hgt].
  - replace (length l - n)%nat with 0%nat by lia. rewrite drop_0.
    f_equal. lia.
  - rewrite <- (drop_app_le l k (length l - n)) by lia.
    rewrite drop_drop. f_equal. lia.
Qed.

Lemma lastN_sublist {A} n (l : list A) : lastN n l `sublist_of` l.
Proof. apply sublist_drop. Qed.

Lemma strictly_sorted_of_stamps {P} (c : Coll P) :
  StronglySorted Z.lt (createdAt <$> c) → StronglySorted created_lt c.
Proof.
  induction c as [|d c IH]; [constructor|].
  rewrite fmap_cons. intros [Hd Hc]%StronglySorted_cons.
  constructor; [by apply IH|]. by rewrite Forall_fmap in Hd.
Qed.

(** One call on a log in strict creation order, with a clock reading
    later than every stored one. *)
Lemma logAppError_window_step env error context db m :
  wf db → reliable env → messageOf error = Normal m →
  StronglySorted Z.lt ((createdAt <$> appErrors db) ++ [now env]) →
  appErrors (logAppError env error context db).2
  = lastN 500 (appErrors db ++ [loggedDoc env m error context db]).
Proof.
  intros [Hwf _] Hrel Hm Hsorted.
  rewrite (logAppError_reliable _ _ _ _ m Hrel Hm). cbn [snd appErrors].
  apply pruned_of_sorted.
  - by apply wf_insertOne.
  - apply strictly_sorted_of_stamps. unfold insertOne. by rewrite fmap_app.
Qed.

Lemma StronglySorted_sublist {A} (R : relation A) (l k : list A) :
  l `sublist_of` k → StronglySorted R k → StronglySorted R l.
Proof.
  induction 1 as [|x l k Hsub IH|x l k Hsub IH]; [done|..];
    intros [Hx Hk]%StronglySorted_cons; [|by apply IH].
  constructor; [by apply IH|].
  rewrite Forall_forall in *. intros y Hy. apply Hx.
  by eapply sublist_subseteq.
Qed.

Lemma lastN_length_le {A} n (l : list A) : (length (lastN n l) ≤ n)%nat.
Proof. unfold lastN. rewrite length_drop. lia. Qed.

(** X3.  With a clock that reads later at every call, the error log is a
    sliding window: after any run of completed calls it holds the last 500
    of the documents it held and was given since, in the order they were
    stored. *)
Theorem error_log_is_sliding_window calls db :
  wf db → (length (appErrors db) ≤ 500)%nat →
  Forall completes calls →
  StronglySorted Z.lt (stamps db calls) →
  appErrors (runLogs calls db)
  = lastN 500 (appErrors db ++ loggedDocs (nextId db) calls).
Proof.
  revert db. induction calls as [|c calls IH]; intros db Hwf Hlen Hcalls Hsorted.
  - cbn. rewrite app_nil_r. unfold lastN.
    replace (length (appErrors db) - 500)%nat with 0%nat by lia. done.
  - apply Forall_cons in Hcalls as [[Hrel [m Hm]] Hcalls].
    change (runLogs (c :: calls) db) with (runLogs calls (runLog db c)).
    assert (Hstep : appErrors (runLog db c)
              = lastN 500 (appErrors db ++ [loggedDoc (lc_env c) m (lc_error c)
                                              (lc_context c) db])).
    { apply logAppError_window_step; [done..|].
      eapply StronglySorted_sublist; [|exact Hsorted].
      unfold stamps. apply sublist_app; [done|]. cbn.
      apply sublist_skip, sublist_nil_l. }
    assert (Hnext : nextId (runLog db c) = S (nextId db)).
    { unfold runLog. by rewrite (logAppError_reliable _ _ _ _ m Hrel Hm). }
    rewrite IH.
    + rewrite Hstep, Hnext, lastN_app_lastN, <- app_assoc. cbn [app loggedDocs].
      unfold loggedDoc, messageText. by rewrite Hm.
    + by apply logAppError_wf.
    + rewrite Hstep. apply lastN_length_le.
    + done.
    + eapply StronglySorted_sublist; [|exact Hsorted].
      unfold stamps. rewrite Hstep. cbn [fmap list_fmap].
      change (now (lc_env c) :: ((fun c0 => now (lc_env c0)) <$> calls))
        with ([now (lc_env c)] ++ ((fun c0 => now (lc_env c0)) <$> calls)).
      rewrite app_assoc. apply sublist_app; [|done].
      etrans; [apply fmap_sublist, lastN_sublist|]. by rewrite fmap_app.
Qed.

Lemma error_log_is_sliding_window_witness :
  appErrors (runLogs
    [ {| lc_env := quietEnv 500; lc_error := sampleError; lc_context := apiContext |};
      {| lc_env := quietEnv 501; lc_error := VPrimitive "boom"; lc_context := apiContext |} ]
    (filledDb 499))
  = lastN 500 (appErrors (filledDb 499) ++ loggedDocs 499
      [ {| lc_env := quietEnv 500; lc_error := sampleError; lc_context := apiContext |};
        {| lc_env := quietEnv 501; lc_error := VPrimitive "boom"; lc_context := apiContext |} ]).
Proof.
  apply (error_log_is_sliding_window _ (filledDb 499)).
  - apply filledDb_wf.
  - cbn [filledDb appErrors]. rewrite length_fmap, length_seq. lia.
  - repeat constructor; try (by eexists); intros []; reflexivity.
  - apply (bool_decide_unpack _). vm_compute. exact I.
Defined.

#[local] Instance created_ge_trans {P} : Transitive (@created_ge P).
Proof. intros a b d. unfold created_ge. lia. Qed.

#[local] Instance created_ge_total {P} : Total (@created_ge P).
Proof. intros a b. unfold created_ge. lia. Qed.

(** X4.  The error page shows at most 100 entries, the latest first; every
    entry it leaves out is at least as old as every entry it shows. *)
Theorem errors_route_lists_newest db :
  let items := errors_items db in
  length items = Nat.min 100 (length (appErrors db))
  ∧ StronglySorted created_ge items
  ∧ ∃ hidden,
      appErrors db ≡ₚ items ++ hidden
      ∧ ∀ shown old, shown ∈ items → old ∈ hidden →
          createdAt old <= createdAt shown.
Proof.
  cbn zeta. unfold errors_items.
  set (sorted := merge_sort created_ge (appErrors db)).
  assert (Hperm : sorted ≡ₚ appErrors db) by apply merge_sort_Permutation.
  assert (Hsorted : StronglySorted created_ge sorted)
    by apply (StronglySorted_merge_sort _).
  split_and!.
  - by rewrite length_take, Hperm.
  - eapply StronglySorted_sublist; [apply sublist_take|done].
  - exists (drop 100 sorted). split; [by rewrite take_drop|].
    intros shown old Hshown Hold.
    rewrite <- (take_drop 100 sorted) in Hsorted.
    by apply (StronglySorted_app_1_elem_of _ _ _ shown old) in Hsorted.
Qed.

End LedgerMoreFacts.


Module BotMoreFacts.
Import Js Eff Mongo Ledger Bot LedgerFacts BotFacts AlbumFacts BotViews.

(** X5.  The name lists of a delivery are the names of the recipients
    served and of those whose send threw, each in the order of the
    recipient list; a recipient without a chat is in neither. *)
Theorem delivery_name_lists photoFileIds text users :
  let t := deliverAll photoFileIds text users in
  deliveredNames t
  = (fun a => formatUserName (recipient a))
      <$> filter (fun a => sendOutcome photoFileIds text a = Some true) users
  ∧ failedNames t
  = (fun a => formatUserName (recipient a))
      <$> filter (fun a => sendOutcome photoFileIds text a = Some false) users.
Proof.
  induction users as [|a users [IHd IHf]]; [done|].
  cbn zeta in *. rewrite deliverAll_cons, !filter_cons.
  unfold tallyApp. cbn [deliveredNames failedNames]. rewrite IHd, IHf.
  unfold deliverTo, sendOutcome.
  destruct (chatId (recipient a)) as [c|]; [|done].
  destruct (truthy_number c); cbn [negb]; [|done].
  by destruct (sendBroadcastToChat c photoFileIds text (rejected a)).
Qed.

(** [formatUserName] never gives an empty name. *)
Lemma formatUserName_not_empty user : truthy_string (formatUserName user) = true.
Proof.
  unfold formatUserName.
  destruct (truthy_string (trim _)) eqn:Hjoined; [done|].
  destruct (telegramId user) as [id|]; [|done].
  by destruct (truthy_number id).
Qed.

(** X6.  Unless the operator's draft is in preview with a text, the send
    action answers that there is nothing to send and does nothing else:
    no message goes out, no history record is written, the draft stays. *)
Theorem broadcast_send_needs_preview now env uid users s :
  (∀ ref d, getDraft uid s = Some (ref, d) → readyToSend d = false) →
  broadcast_send now env (Some uid) users s
  = (Normal tt, reply now uid NothingToSend s).
Proof.
  intros Hnot. unfold broadcast_send. unfold bind at 1, gets at 1.
  destruct (getDraft uid s) as [[ref d]|]; [|done].
  specialize (Hnot ref d eq_refl). unfold readyToSend in Hnot.
  destruct (step d); try done.
  destruct (text d) as [t|]; [|done].
  rewrite bool_decide_eq_true_2 in Hnot by done. cbn in Hnot. by rewrite Hnot.
Qed.

Lemma broadcast_send_needs_preview_witness :
  broadcast_send 5 (quietEnv 5) (Some 7)
    [ {| recipient := ann; rejected := false |} ] openedState
  = (Normal tt, reply 5 7 NothingToSend openedState).
Proof.
  apply broadcast_send_needs_preview.
  intros ref d Hd. vm_compute in Hd. by simplify_eq.
Defined.

(** X7.  The history record is written outside any [try]: when a call on
    the [Broadcast] collection is rejected after the delivery, the action
    throws, no summary is sent and the draft is left in preview. *)
Theorem broadcast_send_aborted_by_history now env uid users s ref draft txt e :
  getDraft uid s = Some (ref, draft) →
  step draft = preview → text draft = Some txt → truthy_string txt = true →
  (recordBroadcast env
     (historyEntry uid txt (photoFileIds draft)
        (deliverAll (photoFileIds draft) txt users)) (db s)).1 = Thrown e →
  let s' := (broadcast_send now env (Some uid) users s).2 in
  (broadcast_send now env (Some uid) users s).1 = Thrown e
  ∧ getDraft uid s' = Some (ref, draft)
  ∧ replies s' = replies s ++ [{| sentAt := now; chat := uid; notice := Launching |}].
Proof.
  intros Hdraft Hstep Htext Htruthy Hthrown.
  assert (Hrun : ∃ db', broadcast_send now env (Some uid) users s
                 = (Thrown e, setDb db' (reply now uid Launching s))).
  { unfold broadcast_send. unfold bind at 1, gets at 1.
    rewrite Hdraft, Hstep, Htext, Htruthy.
    unfold bind, modify, liftDb. cbn [db reply].
    destruct (recordBroadcast _ _ _) as [[[]|e'] db']; cbn in Hthrown; [done|].
    simplify_eq. by exists db'. }
  destruct Hrun as [db' ->]. cbn zeta. cbn [fst snd]. by split_and!.
Qed.

Lemma broadcast_send_aborted_by_history_witness :
  let s := on_text 20 (Some 7) (Some " hello ")
             (on_photo 10 (Some 7) ["a"] None openedState) in
  let env := {| now := 30; fails := fun c => bool_decide (c = CallCreate) |} in
  let s' := (broadcast_send 30 env (Some 7) [] s).2 in
  (broadcast_send 30 env (Some 7) [] s).1 = Thrown MongoError
  ∧ getDraft 7 s'
    = Some (0%nat, {| step := preview; photoFileIds := ["a"]; text := Some "hello";
                      mediaGroupId := None; mediaGroupTimer := None |})
  ∧ replies s' = replies s ++ [{| sentAt := 30; chat := 7; notice := Launching |}].
Proof.
  apply (broadcast_send_aborted_by_history 30 _ 7 [] _ 0%nat _ "hello" MongoError);
    vm_compute; reflexivity.
Defined.

Lemma draftsOk_heap s s' : heap s' = heap s → draftsOk s → draftsOk s'.
Proof. intros Hheap Hs ref d. rewrite Hheap. apply Hs. Qed.

Lemma draftsOk_update ref f s :
  draftsOk s → (∀ d, heap s !! ref = Some d → draftOk (f d)) →
  draftsOk (updateDraft ref f s).
Proof.
  intros Hs Hf ref' d'. cbn [updateDraft setHeap heap].
  destruct (decide (ref = ref')) as [<-|Hne].
  - rewrite lookup_alter_eq. destruct (heap s !! ref) as [d|]; [|done].
    intros [= <-]. by apply Hf.
  - rewrite lookup_alter_ne by done. apply Hs.
Qed.

Lemma clearDraft_heap uid s : heap (clearDraft uid s) = heap s.
Proof.
  unfold clearDraft. destruct (getDraft uid s) as [[? d]|]; [|done].
  by destruct (mediaGroupTimer d).
Qed.

Lemma albumTimerFired_ok tm s : draftsOk s → draftsOk (albumTimerFired tm s).
Proof.
  intros Hs. unfold albumTimerFired.
  destruct (heap s !! draftRef tm) as [d|] eqn:Hd; [|done].
  case_bool_decide as Hlen; [done|].
  eapply draftsOk_heap; [reflexivity|]. apply draftsOk_update; [done|].
  intros d' Hd'. rewrite Hd in Hd'. injection Hd' as <-.
  destruct (Hs _ _ Hd) as (Hmax & _ & _).
  split_and!; cbn; [done| |done]. intros _ Hnil. by rewrite Hnil in Hlen.
Qed.

Lemma advance_ok t s : draftsOk s → draftsOk (advance t s).
Proof.
  intros Hs. unfold advance.
  generalize (filter (fun tm => due tm <= t) (timers s)). intros ready.
  assert (Hs' : draftsOk (setTimers (filter (fun tm => ¬ due tm <= t) (timers s)) s))
    by done.
  revert Hs'. generalize (setTimers (filter (fun tm => ¬ due tm <= t) (timers s)) s).
  induction ready as [|tm ready IH]; intros st Hst; [done|].
  cbn [foldl]. by apply IH, albumTimerFired_ok.
Qed.

Lemma hears_text_command_ok now from isAdmin s :
  draftsOk s → draftsOk (hears_text_command now from isAdmin s).
Proof.
  intros Hs. unfold hears_text_command. destruct from as [uid|]; [|done].
  destruct isAdmin; cbn [negb]; [|done].
  intros ref d. cbn [reply heap]. rewrite clearDraft_heap.
  destruct (decide (nextRef (clearDraft uid s) = ref)) as [<-|Hne].
  - rewrite lookup_insert_eq. intros [= <-].
    split_and!; cbn; [unfold MAX_BROADCAST_PHOTOS; lia|done|done].
  - rewrite lookup_insert_ne by done. apply Hs.
Qed.

Lemma getDraft_heap uid s ref d : getDraft uid s = Some (ref, d) → heap s !! ref = Some d.
Proof.
  unfold getDraft. destruct (broadcastDrafts s !! uid) as [r|]; [|done].
  destruct (heap s !! r) as [d'|] eqn:Hd; [|done]. by intros [= <- <-].
Qed.

Lemma on_photo_ok now from photo media_group_id s :
  draftsOk s → draftsOk (on_photo now from photo media_group_id s).
Proof.
  intros Hs. unfold on_photo. destruct from as [uid|]; [|done].
  destruct (getDraft uid s) as [[ref d]|] eqn:Hdraft; [|done].
  apply getDraft_heap in Hdraft.
  case_bool_decide as Hstep; cbn [negb]; [|done].
  destruct (getLargestPhotoFileId photo) as [photoId|]; [|done].
  destruct (truthy_string photoId); cbn [negb]; [|done].
  case_bool_decide as Hfull; [done|].
  destruct (Hs _ _ Hdraft) as (Hmax & Hne & Hprev).
  assert (Hpushed : draftsOk (updateDraft ref (pushPhoto photoId) s)).
  { apply draftsOk_update; [done|]. intros d' Hd'.
    rewrite Hdraft in Hd'. injection Hd' as <-.
    split_and!; cbn; [rewrite length_app; cbn; lia|by destruct (photoFileIds d)|].
    intros Hp. by rewrite Hp in Hstep. }
  assert (Hmoved : draftsOk (reply now uid TextPromptAfterPhoto
            (updateDraft ref (withStep await_text)
               (updateDraft ref (pushPhoto photoId) s)))).
  { eapply draftsOk_heap; [reflexivity|]. apply draftsOk_update; [done|].
    intros d' Hd'. cbn [updateDraft setHeap heap] in Hd'.
    rewrite lookup_alter_eq, Hdraft in Hd'. injection Hd' as <-.
    split_and!; cbn; [rewrite length_app; cbn; lia|by destruct (photoFileIds d)|done]. }
  destruct (getMediaGroupId media_group_id) as [g|]; [|done].
  destruct (truthy_string g); [|done].
  set (s2 := updateDraft ref (withMediaGroupId g) (updateDraft ref (pushPhoto photoId) s)).
  assert (Hs2 : draftsOk s2).
  { apply draftsOk_update; [done|]. intros d' Hd'. by apply (Hpushed ref d'). }
  set (s3 := match mediaGroupTimer d with Some h => clearTimeout h s2 | None => s2 end).
  assert (Hs3 : draftsOk s3).
  { unfold s3. by destruct (mediaGroupTimer d). }
  cbn [setTimeout]. apply draftsOk_update.
  - eapply draftsOk_heap; [|exact Hs3]. done.
  - intros d' Hd'. by apply (Hs3 ref d').
Qed.

Lemma on_text_ok now from message_text s :
  draftsOk s → draftsOk (on_text now from message_text s).
Proof.
  intros Hs. unfold on_text. destruct from as [uid|]; [|done].
  destruct (getDraft uid s) as [[ref d]|] eqn:Hdraft; [|done].
  apply getDraft_heap in Hdraft.
  case_bool_decide as Hphotos; [done|].
  case_bool_decide as Htext; cbn [negb]; [|done].
  destruct (truthy_string _) eqn:Htruthy; cbn [negb]; [|done].
  eapply draftsOk_heap with (s := updateDraft ref (withStep preview)
                                 (updateDraft ref (withText _) s)).
  { unfold sendBroadcastPreview. cbn [photoFileIds withStep withText].
    destruct (photoFileIds d) as [|p [|]]; try done.
    by destruct (truthy_string p). }
  destruct (Hs _ _ Hdraft) as (Hmax & Hne & _).
  apply draftsOk_update.
  - apply draftsOk_update; [done|]. intros d' Hd'.
    rewrite Hdraft in Hd'. injection Hd' as <-.
    split_and!; cbn; [done|done|]. intros Hp. by rewrite Hp in Htext.
  - intros d' Hd'. cbn [updateDraft setHeap heap] in Hd'.
    rewrite lookup_alter_eq, Hdraft in Hd'. injection Hd' as <-.
    split_and!; cbn; [done| |by eauto]. intros _. apply Hne. by rewrite Htext.
Qed.

(** Nothing in the send action writes to a draft object. *)
Lemma broadcast_send_heap now env from users s :
  heap (broadcast_send now env from users s).2 = heap s.
Proof.
  unfold broadcast_send. destruct from as [uid|]; [|done].
  unfold bind at 1, gets at 1.
  destruct (getDraft uid s) as [[ref d]|]; [|done].
  destruct (step d); try done.
  destruct (text d) as [t|]; [|done].
  destruct (truthy_string t); [|done].
  unfold bind, modify, liftDb, when, ret. cbn [db reply].
  destruct (recordBroadcast _ _ _) as [[[]|e] db']; [|done].
  destruct (_ || _); cbn [snd reply heap]; by rewrite clearDraft_heap.
Qed.

Lemma dispatch_ok t u s : draftsOk s → draftsOk (dispatch t u s).
Proof.
  intros Hs. destruct u; cbn [dispatch].
  - by apply hears_text_command_ok.
  - by apply on_photo_ok.
  - by apply on_text_ok.
  - unfold broadcast_cancel. destruct from; [|done].
    eapply draftsOk_heap; [|done]. cbn. apply clearDraft_heap.
  - eapply draftsOk_heap; [|done]. apply broadcast_send_heap.
Qed.

(** X8.  In every state the bot can reach, every draft holds at most three
    photos, holds at least one once it no longer awaits photos, and has a
    non-empty text once it is in preview. *)
Theorem drafts_stay_well_formed (events : list (Z * Update)) :
  draftsOk (runTimeline events startState).
Proof.
  unfold runTimeline.
  assert (Hstart : draftsOk startState).
  { intros ref d Hd. cbn in Hd. by rewrite lookup_empty in Hd. }
  revert Hstart. generalize startState.
  induction events as [|[t u] events IH]; intros s Hs; [done|].
  cbn [foldl]. by apply IH, dispatch_ok, advance_ok.
Qed.

(** Clearing the draft of an album in progress removes its timer and no
    other. *)
Lemma clearDraft_collecting uid r g base photos d s :
  collecting uid r g base photos d s →
  ∃ others,
    timers (clearDraft uid s) = others
    ∧ Forall (fun tm => foreign uid r tm ∧ (handle tm < nextHandle s)%nat) others
    ∧ (∀ tm, tm ∈ others → tm ∈ timers s)
    ∧ broadcastDrafts (clearDraft uid s) = delete uid (broadcastDrafts s)
    ∧ heap (clearDraft uid s) = heap s
    ∧ nextRef (clearDraft uid s) = nextRef s
    ∧ nextHandle (clearDraft uid s) = nextHandle s
    ∧ replies (clearDraft uid s) = replies s.
Proof.
  intros (Hne & Hmap & h & others & Hheap & Htimers & Hothers & Hh & Hbase).
  exists others. unfold clearDraft.
  rewrite (getDraft_lookup uid r s _ Hmap Hheap). cbn [mediaGroupTimer albumDraft].
  unfold clearTimeout.
  cbn [setDrafts setTimers timers broadcastDrafts heap nextRef nextHandle replies].
  assert (Hcleared : filter (fun tm => handle tm ≠ h) (timers s) = others).
  { rewrite Htimers, filter_timers_split. cbn [handle albumTimer].
    rewrite decide_False by (by intros Hnot). rewrite app_nil_r.
    clear -Hothers. induction Hothers as [|tm l [_ Hlt] _ IH]; [done|].
    rewrite filter_cons_True by lia. by rewrite IH. }
  rewrite Hcleared. split_and!; try done.
  - eapply Forall_impl; [done|]. intros tm [? ?]. split; [done|lia].
  - intros tm Htm. rewrite Htimers. apply elem_of_app. by left.
Qed.

(** X9.  Cancelling a draft while its album timer is pending disarms the
    timer: however much time passes afterwards, the operator has no draft
    and is never asked for a text. *)
Theorem cancel_disarms_album_timer uid r g base photos d s now T :
  collecting uid r g base photos d s →
  let s' := advance T (broadcast_cancel now (Some uid) s) in
  getDraft uid s' = None
  ∧ textPrompts uid s' = base
  ∧ heap s' !! r = heap s !! r
  ∧ ∀ tm, tm ∈ timers s' → draftRef tm ≠ r.
Proof.
  intros Hs.
  pose proof Hs as (_ & _ & _ & _ & _ & _ & _ & _ & Hbase).
  destruct (clearDraft_collecting _ _ _ _ _ _ _ Hs)
    as (others & Ht & Hforeign' & _ & Hm & Hh & _ & _ & Hr).
  assert (Hforeign : Forall (foreign uid r) others).
  { eapply Forall_impl; [done|]. by intros tm [? _]. }
  cbn zeta. unfold broadcast_cancel.
  set (s1 := reply now uid Cancelled (clearDraft uid s)).
  assert (Ht1 : timers s1 = others) by done.
  destruct (advance_foreign uid r T s1) as (Hm' & Hh' & Ht' & _ & Hp').
  { rewrite Ht1. by apply Forall_filter_weaken. }
  split_and!.
  - unfold getDraft. rewrite Hm'. cbn [s1 reply broadcastDrafts].
    by rewrite Hm, lookup_delete_eq.
  - rewrite Hp'. unfold s1. rewrite textPrompts_reply.
    rewrite decide_False by (by intros [_ ?]). rewrite app_nil_r.
    unfold textPrompts. by rewrite Hr.
  - rewrite Hh'. cbn [s1 reply heap]. by rewrite Hh.
  - intros tm Htm. rewrite Ht', Ht1 in Htm.
    apply list_elem_of_filter in Htm as [_ Htm].
    rewrite Forall_forall in Hforeign. by destruct (Hforeign tm Htm).
Qed.

Lemma albumOfThree_collecting :
  collecting 7 0 "album-1" [] ["a"; "b"; "c"] 910 (runTimeline albumOfThree startState).
Proof.
  split; [done|]. split; [vm_compute; reflexivity|].
  exists 2%nat, []. split_and!; try (vm_compute; reflexivity).
  all: first [by constructor | vm_compute; lia].
Qed.

Lemma cancel_disarms_album_timer_witness :
  let s := runTimeline albumOfThree startState in
  let s' := advance 5000 (broadcast_cancel 300 (Some 7) s) in
  getDraft 7 s' = None
  ∧ textPrompts 7 s' = []
  ∧ heap s' !! 0%nat = heap s !! 0%nat
  ∧ ∀ tm, tm ∈ timers s' → draftRef tm ≠ 0%nat.
Proof.
  apply (cancel_disarms_album_timer 7 0 "album-1" [] ["a"; "b"; "c"] 910).
  apply albumOfThree_collecting.
Defined.

(** X10.  Starting a new draft while the album timer of the old one is
    pending disarms that timer: the operator gets a freshly opened draft,
    and the timers still pending are those of other drafts. *)
Theorem recompose_disarms_album_timer uid r g base photos d s now :
  collecting uid r g base photos d s →
  Forall (fun tm => draftRef tm ≠ nextRef s) (timers s) →
  opened uid (nextRef s) base (hears_text_command now (Some uid) true s).
Proof.
  intros Hs Hrefs.
  pose proof Hs as (_ & _ & _ & _ & _ & _ & _ & _ & Hbase).
  destruct (clearDraft_collecting _ _ _ _ _ _ _ Hs)
    as (others & Ht & Hforeign & Hsub & Hm & Hh & Hnr & Hnh & Hr).
  unfold hears_text_command. cbn [negb]. rewrite Hnr.
  unfold opened. rewrite textPrompts_reply.
  rewrite decide_False by (by intros [_ ?]). rewrite app_nil_r.
  cbn [reply heap broadcastDrafts timers nextHandle].
  rewrite !lookup_insert_eq, Ht, Hnh. split_and!; try done.
  - rewrite Forall_forall in *. intros tm Htm.
    destruct (Hforeign tm Htm) as [[_ Hchat] Hlt].
    split; [|done]. split; [|done]. apply Hrefs. by apply Hsub.
  - unfold textPrompts. cbn [replies]. by rewrite Hr.
Qed.

Lemma recompose_disarms_album_timer_witness :
  opened 7 (nextRef (runTimeline albumOfThree startState)) []
    (hears_text_command 300 (Some 7) true (runTimeline albumOfThree startState)).
Proof.
  apply (recompose_disarms_album_timer 7 0 "album-1" [] ["a"; "b"; "c"] 910).
  - apply albumOfThree_collecting.
  - vm_compute. repeat constructor. lia.
Defined.

Lemma getDraft_map uid s ref d :
  getDraft uid s = Some (ref, d) → broadcastDrafts s !! uid = Some ref.
Proof.
  unfold getDraft. destruct (broadcastDrafts s !! uid) as [r|]; [|done].
  destruct (heap s !! r); [|done]. by intros [= <- _].
Qed.

Ltac frame_heap :=
  unfold touchesOnly;
  cbn [reply updateDraft setHeap setTimers clearTimeout setTimeout
       heap broadcastDrafts nextRef fst snd negb];
  split_and!; try done;
  intros ? ?; by rewrite ?lookup_alter_ne.

Lemma on_photo_touches now uid photo media_group_id s ref d :
  getDraft uid s = Some (ref, d) →
  touchesOnly ref s (on_photo now (Some uid) photo media_group_id s).
Proof.
  intros Hdraft. unfold on_photo. rewrite Hdraft.
  destruct (bool_decide (step d = await_photos)); cbn [negb]; [|frame_heap].
  destruct (getLargestPhotoFileId photo) as [photoId|]; [|frame_heap].
  destruct (truthy_string photoId); cbn [negb]; [|frame_heap].
  destruct (bool_decide _); [frame_heap|].
  destruct (getMediaGroupId media_group_id) as [g|]; [|frame_heap].
  destruct (truthy_string g); [|frame_heap].
  destruct (mediaGroupTimer d); frame_heap.
Qed.

Lemma on_text_touches now uid message_text s ref d :
  getDraft uid s = Some (ref, d) →
  touchesOnly ref s (on_text now (Some uid) message_text s).
Proof.
  intros Hdraft. unfold on_text. rewrite Hdraft.
  destruct (bool_decide (step d = await_photos)); [frame_heap|].
  destruct (bool_decide (step d = await_text)); cbn [negb]; [|frame_heap].
  destruct (truthy_string _); cbn [negb]; [|frame_heap].
  unfold sendBroadcastPreview. cbn [photoFileIds withStep withText].
  destruct (photoFileIds d) as [|p [|]]; try frame_heap.
  destruct (truthy_string p); frame_heap.
Qed.

Lemma clearDraft_map uid s :
  broadcastDrafts (clearDraft uid s) = delete uid (broadcastDrafts s)
  ∧ nextRef (clearDraft uid s) = nextRef s.
Proof.
  unfold clearDraft. destruct (getDraft uid s) as [[? d]|]; [|done].
  by destruct (mediaGroupTimer d).
Qed.

(** The send action leaves the drafts map as it is or removes the
    sender's entry. *)
Lemma broadcast_send_map now env uid users s :
  let s' := (broadcast_send now env (Some uid) users s).2 in
  nextRef s' = nextRef s
  ∧ (broadcastDrafts s' = broadcastDrafts s
     ∨ broadcastDrafts s' = delete uid (broadcastDrafts s)).
Proof.
  cbn zeta. generalize (eq_refl (broadcast_send now env (Some uid) users s).2).
  generalize (broadcast_send now env (Some uid) users s).2 at 1 3 4 5.
  intros s' Hs'. unfold broadcast_send in Hs'. unfold bind at 1, gets at 1 in Hs'.
  destruct (getDraft uid s) as [[ref d]|]; [|by subst s'; split; [|left]].
  destruct (step d); try (by subst s'; split; [|left]).
  destruct (text d) as [t|]; [|by subst s'; split; [|left]].
  destruct (truthy_string t); [|by subst s'; split; [|left]].
  unfold bind, modify, liftDb, when, ret in Hs'. cbn [db reply] in Hs'.
  destruct (recordBroadcast _ _ _) as [[[]|e] db']; [|by subst s'; split; [|left]].
  destruct (clearDraft_map uid (setDb db' (reply now uid Launching s)))
    as [Hm Hn].
  destruct (_ || _); subst s'; cbn [snd reply broadcastDrafts nextRef];
    rewrite Hm, Hn; by split; [|right].
Qed.

Lemma advance_map t s :
  broadcastDrafts (advance t s) = broadcastDrafts s
  ∧ nextRef (advance t s) = nextRef s.
Proof.
  unfold advance. generalize (filter (fun tm => due tm <= t) (timers s)).
  intros ready.
  change (broadcastDrafts s) with
    (broadcastDrafts (setTimers (filter (fun tm => ¬ due tm <= t) (timers s)) s)).
  change (nextRef s) with
    (nextRef (setTimers (filter (fun tm => ¬ due tm <= t) (timers s)) s)).
  generalize (setTimers (filter (fun tm => ¬ due tm <= t) (timers s)) s).
  induction ready as [|tm ready IH]; intros st; [done|].
  cbn [foldl]. destruct (IH (albumTimerFired tm st)) as [-> ->].
  unfold albumTimerFired. destruct (heap st !! draftRef tm) as [d|]; [|done].
  by destruct (bool_decide _).
Qed.

Lemma refsOk_same s s' :
  broadcastDrafts s' = broadcastDrafts s → nextRef s' = nextRef s →
  refsOk s → refsOk s'.
Proof. intros Hm Hn Hs u r. rewrite Hm, Hn. apply Hs. Qed.

Lemma refsOk_delete uid s s' :
  broadcastDrafts s' = delete uid (broadcastDrafts s) → nextRef s' = nextRef s →
  refsOk s → refsOk s'.
Proof.
  intros Hm Hn Hs u r. rewrite Hm, Hn.
  intros [Hne Hu]%lookup_delete_Some. destruct (Hs u r Hu) as [Hlt Hinj].
  split; [done|]. intros u' [_ Hu']%lookup_delete_Some. by apply Hinj.
Qed.

Lemma dispatch_refsOk t u s : refsOk s → refsOk (dispatch t u s).
Proof.
  intros Hs. destruct u as [from isAdmin|from photo g|from txt|from|from env users];
    cbn [dispatch]; (destruct from as [uid|]; [|done]).
  - unfold hears_text_command. destruct isAdmin; cbn [negb]; [|done].
    destruct (clearDraft_map uid s) as [Hm Hn].
    intros u r. cbn [reply broadcastDrafts nextRef]. rewrite Hm, Hn.
    destruct (decide (uid = u)) as [<-|Hne].
    + rewrite lookup_insert_eq. intros [= <-]. split; [lia|].
      intros u'. destruct (decide (uid = u')) as [|Hne']; [done|].
      rewrite lookup_insert_ne by done. intros [_ Hu']%lookup_delete_Some.
      destruct (Hs _ _ Hu') as [Hlt _]. lia.
    + rewrite lookup_insert_ne by done. intros [_ Hu]%lookup_delete_Some.
      destruct (Hs _ _ Hu) as [Hlt Hinj]. split; [lia|].
      intros u'. destruct (decide (uid = u')) as [<-|Hne'].
      * rewrite lookup_insert_eq. intros [= Heq]. lia.
      * rewrite lookup_insert_ne by done. intros [_ Hu']%lookup_delete_Some.
        by apply Hinj.
  - destruct (getDraft uid s) as [[ref d]|] eqn:Hdraft.
    + destruct (on_photo_touches t uid photo g s ref d Hdraft) as (Hm & Hn & _).
      by eapply refsOk_same.
    + unfold on_photo. by rewrite Hdraft.
  - destruct (getDraft uid s) as [[ref d]|] eqn:Hdraft.
    + destruct (on_text_touches t uid txt s ref d Hdraft) as (Hm & Hn & _).
      by eapply refsOk_same.
    + unfold on_text. by rewrite Hdraft.
  - unfold broadcast_cancel. destruct (clearDraft_map uid s) as [Hm Hn].
    by eapply (refsOk_delete uid s).
  - destruct (broadcast_send_map t env uid users s) as [Hn [Hm|Hm]].
    + by eapply refsOk_same.
    + by eapply (refsOk_delete uid s).
Qed.

Lemma reachable_refsOk (events : list (Z * Update)) :
  refsOk (runTimeline events startState).
Proof.
  unfold runTimeline.
  assert (Hstart : refsOk startState).
  { intros u r Hu. cbn in Hu. by rewrite lookup_empty in Hu. }
  revert Hstart. generalize startState.
  induction events as [|[t u] events IH]; intros s Hs; [done|].
  cbn [foldl]. apply IH, dispatch_refsOk.
  destruct (advance_map t s) as [Hm Hn]. by eapply refsOk_same.
Qed.

Lemma getDraft_frame b s s' :
  broadcastDrafts s' !! b = broadcastDrafts s !! b →
  (∀ rb, broadcastDrafts s !! b = Some rb → heap s' !! rb = heap s !! rb) →
  getDraft b s' = getDraft b s.
Proof.
  intros Hm Hh. unfold getDraft. rewrite Hm.
  destruct (broadcastDrafts s !! b) as [rb|]; [|done]. by rewrite Hh.
Qed.

Lemma dispatch_frame t u s a b :
  refsOk s → sender u = Some a → a ≠ b →
  getDraft b (dispatch t u s) = getDraft b s.
Proof.
  intros Hs Hfrom Hab.
  destruct u as [from isAdmin|from photo g|from txt|from|from env users];
    cbn [sender] in Hfrom; subst from; cbn [dispatch].
  - unfold hears_text_command. destruct isAdmin; cbn [negb]; [|done].
    destruct (clearDraft_map a s) as [Hm Hn].
    apply getDraft_frame; cbn [reply broadcastDrafts heap].
    + by rewrite lookup_insert_ne, Hm, lookup_delete_ne.
    + intros rb Hb. rewrite Hn, clearDraft_heap.
      destruct (Hs _ _ Hb) as [Hlt _]. rewrite lookup_insert_ne; [done|lia].
  - destruct (getDraft a s) as [[ra d]|] eqn:Hdraft.
    + destruct (on_photo_touches t a photo g s ra d Hdraft) as (Hm & _ & Hh).
      apply getDraft_frame; [by rewrite Hm|].
      intros rb Hb. apply Hh. intros ->.
      destruct (Hs _ _ Hb) as [_ Hinj]. apply Hab.
      by apply Hinj, (getDraft_map _ _ _ d).
    + unfold on_photo. by rewrite Hdraft.
  - destruct (getDraft a s) as [[ra d]|] eqn:Hdraft.
    + destruct (on_text_touches t a txt s ra d Hdraft) as (Hm & _ & Hh).
      apply getDraft_frame; [by rewrite Hm|].
      intros rb Hb. apply Hh. intros ->.
      destruct (Hs _ _ Hb) as [_ Hinj]. apply Hab.
      by apply Hinj, (getDraft_map _ _ _ d).
    + unfold on_text. by rewrite Hdraft.
  - unfold broadcast_cancel. destruct (clearDraft_map a s) as [Hm _].
    apply getDraft_frame; cbn [reply broadcastDrafts heap].
    + by rewrite Hm, lookup_delete_ne.
    + intros rb _. by rewrite clearDraft_heap.
  - destruct (broadcast_send_map t env a users s) as [_ Hm].
    apply getDraft_frame.
    + destruct Hm as [->| ->]; [done|by rewrite lookup_delete_ne].
    + intros rb _. by rewrite broadcast_send_heap.
Qed.

(** X11.  In every state the bot can reach, an update from one operator
    leaves the draft of every other operator exactly as it was. *)
Theorem operators_do_not_interfere (events : list (Z * Update)) t u a b :
  sender u = Some a → a ≠ b →
  getDraft b (dispatch t u (runTimeline events startState))
  = getDraft b (runTimeline events startState).
Proof.
  intros Hfrom Hab. apply (dispatch_frame t u _ a b); [|done..].
  apply reachable_refsOk.
Qed.

Lemma operators_do_not_interfere_witness :
  getDraft 7 (dispatch 300 (TextCommand (Some 8) true)
                (runTimeline albumOfThree startState))
  = getDraft 7 (runTimeline albumOfThree startState).
Proof. by apply (operators_do_not_interfere albumOfThree 300 _ 8 7). Defined.

Lemma collecting_timerPending uid r g base photos d s :
  collecting uid r g base photos d s →
  timerPending uid r g await_photos photos None d base s.
Proof.
  intros (Hne & Hmap & h & others & Hheap & Htimers & Hothers & _ & Hbase).
  split; [done|]. split; [done|]. exists h, others. split_and!; try done.
  eapply Forall_impl; [done|]. by intros tm [? _].
Qed.

Lemma advance_timerPending_early uid r g st photos txt d prompts t s :
  timerPending uid r g st photos txt d prompts s → t < d →
  timerPending uid r g st photos txt d prompts (advance t s).
Proof.
  intros (Hne & Hmap & h & others & Hheap & Htimers & Hothers & Hp) Hearly.
  destruct (advance_foreign uid r t s) as (Hm & Hhp & Ht & _ & Hp').
  { rewrite Htimers, filter_timers_split. cbn [due albumTimer].
    rewrite decide_False by lia. rewrite app_nil_r.
    by apply Forall_filter_weaken. }
  unfold timerPending. rewrite Hm, Hhp, Ht, Hp'.
  split; [done|]. split; [done|].
  exists h, (filter (fun tm => ¬ due tm <= t) others). split_and!; try done.
  - rewrite Htimers, filter_timers_split. cbn [due albumTimer].
    by rewrite decide_True by lia.
  - by apply Forall_filter_weaken.
Qed.

(** When the timer comes due it sets the draft to [await_text], whatever
    step the draft is in by then. *)
Lemma advance_timerPending_due uid r g st photos txt d prompts t s :
  timerPending uid r g st photos txt d prompts s → d <= t →
  broadcastDrafts (advance t s) !! uid = Some r
  ∧ (∃ h, heap (advance t s) !! r
          = Some {| step := await_text; photoFileIds := photos; text := txt;
                    mediaGroupId := Some g; mediaGroupTimer := Some h |})
  ∧ textPrompts uid (advance t s)
    = prompts ++ [{| sentAt := d; chat := uid; notice := TextPromptAfterAlbum |}].
Proof.
  intros (Hne & Hmap & h & others & Hheap & Htimers & Hothers & Hp) Hdue.
  unfold advance. rewrite Htimers, !filter_timers_split. cbn [due albumTimer].
  rewrite (decide_True (P := d <= t)) by done.
  rewrite (decide_False (P := ¬ d <= t)) by (by intros Hnot).
  rewrite app_nil_r, foldl_app. cbn [foldl].
  set (waiting := filter (fun tm => ¬ due tm <= t) others).
  set (ready := filter (fun tm => due tm <= t) others).
  destruct (fired_foreign uid r ready (setTimers waiting s)) as (Hm & Hhp & _ & _ & Hp').
  { by apply Forall_filter_weaken. }
  set (s1 := foldl _ _ ready) in *.
  cbn [setTimers broadcastDrafts heap] in Hm, Hhp.
  change (textPrompts uid (setTimers waiting s)) with (textPrompts uid s) in Hp'.
  unfold albumTimerFired. cbn [draftRef due timerChat albumTimer].
  rewrite Hhp, Hheap. cbn [photoFileIds].
  rewrite bool_decide_eq_false_2 by (by destruct photos).
  rewrite textPrompts_reply, decide_True by done.
  change (textPrompts uid (updateDraft r (withStep await_text) s1))
    with (textPrompts uid s1).
  cbn [reply updateDraft setHeap heap broadcastDrafts].
  rewrite Hm, Hp', Hp, lookup_alter_eq, Hhp, Hheap.
  split_and!; try done. by exists h.
Qed.

(** The preview sends no request for text and leaves drafts and timers. *)
Lemma sendBroadcastPreview_timerPending uid r g st photos txt d prompts now shown s :
  timerPending uid r g st photos txt d prompts s →
  timerPending uid r g st photos txt d prompts (sendBroadcastPreview now uid shown s).
Proof.
  intros Hs.
  assert (Hquiet : ∀ n s', isTextPrompt n = false →
            timerPending uid r g st photos txt d prompts s' →
            timerPending uid r g st photos txt d prompts (reply now uid n s')).
  { intros n s' Hn (? & ? & h' & o' & ? & ? & ? & Hp').
    split; [done|]. split; [done|]. exists h', o'.
    rewrite textPrompts_reply.
    rewrite decide_False by (intros [_ ?]; congruence).
    rewrite app_nil_r. by split_and!. }
  unfold sendBroadcastPreview.
  destruct (photoFileIds shown) as [|p1 [|p2 rest]];
    [by apply Hquiet; [|apply Hquiet]| |by apply Hquiet; [|apply Hquiet]].
  destruct (truthy_string p1); cbn [negb]; [by apply Hquiet|done].
Qed.

(** X12.  The album timer is not disarmed when a photo sent outside the
    album moves the draft on.  If the operator then sends the text before
    the timer is due, the draft reaches preview, and when the timer fires
    it is set back to [await_text], text in place, with a second request
    for text. *)
Theorem pending_album_timer_undoes_preview
    uid r g base photos d s t1 photo t2 msg T :
  collecting uid r g base photos d s →
  (length photos < MAX_BROADCAST_PHOTOS)%nat →
  truthy_string (largest photo) = true → truthy_string (trim msg) = true →
  t1 < d → t2 < d → d <= T →
  let s2 := runTimeline [(t1, Photo (Some uid) photo None);
                         (t2, Text (Some uid) (Some msg))] s in
  let final st h :=
    {| step := st; photoFileIds := photos ++ [largest photo];
       text := Some (trim msg); mediaGroupId := Some g; mediaGroupTimer := Some h |} in
  (∃ h, getDraft uid s2 = Some (r, final preview h))
  ∧ (∃ h, getDraft uid (advance T s2) = Some (r, final await_text h))
  ∧ textPrompts uid (advance T s2)
    = base ++ [{| sentAt := t1; chat := uid; notice := TextPromptAfterPhoto |};
               {| sentAt := d; chat := uid; notice := TextPromptAfterAlbum |}].
Proof.
  intros Hs Hroom Hphoto Hmsg Ht1 Ht2 HT.
  apply collecting_timerPending in Hs.
  apply (advance_timerPending_early _ _ _ _ _ _ _ _ t1) in Hs; [|done].
  cbn zeta. unfold runTimeline. cbn [foldl fst snd dispatch].
  set (s0 := advance t1 s) in *.
  assert (Hs1 : timerPending uid r g await_text (photos ++ [largest photo]) None d
            (base ++ [{| sentAt := t1; chat := uid; notice := TextPromptAfterPhoto |}])
            (on_photo t1 (Some uid) photo None s0)).
  { destruct Hs as (Hne & Hmap & h & others & Hheap & Htimers & Hothers & Hp).
    unfold on_photo.
    rewrite (getDraft_lookup uid r s0 _ Hmap Hheap), (largest_readable _ Hphoto), Hphoto.
    cbn [step photoFileIds negb getMediaGroupId].
    rewrite bool_decide_eq_true_2 by done. cbn [negb].
    rewrite bool_decide_eq_false_2 by lia.
    unfold timerPending. rewrite textPrompts_reply, decide_True by done.
    cbn [reply updateDraft setHeap heap broadcastDrafts timers].
    split; [by destruct photos|]. split; [done|]. exists h, others.
    rewrite !lookup_alter_eq, Hheap. split_and!; try done.
    by rewrite <- Hp. }
  apply (advance_timerPending_early _ _ _ _ _ _ _ _ t2) in Hs1; [|done].
  set (s1 := advance t2 (on_photo t1 (Some uid) photo None s0)) in *.
  assert (Hs2 : timerPending uid r g preview (photos ++ [largest photo])
            (Some (trim msg)) d
            (base ++ [{| sentAt := t1; chat := uid; notice := TextPromptAfterPhoto |}])
            (on_text t2 (Some uid) (Some msg) s1)).
  { destruct Hs1 as (Hne & Hmap & h & others & Hheap & Htimers & Hothers & Hp).
    assert (Hor : or_string (trim msg) "" = trim msg).
    { unfold or_string. by rewrite Hmsg. }
    unfold on_text. cbn zeta. rewrite (getDraft_lookup uid r s1 _ Hmap Hheap).
    cbn [step fmap option_fmap option_map default id].
    change (id (trim msg)) with (trim msg). rewrite Hor.
    rewrite bool_decide_eq_false_2 by done.
    rewrite bool_decide_eq_true_2 by done. cbn [negb]. rewrite Hmsg. cbn [negb].
    apply sendBroadcastPreview_timerPending.
    split; [done|]. split; [done|]. exists h, others.
    cbn [updateDraft setHeap heap timers]. rewrite !lookup_alter_eq, Hheap.
    by split_and!. }
  split_and!.
  - destruct Hs2 as (_ & Hmap & h & others & Hheap & _). exists h.
    by apply (getDraft_lookup uid r).
  - destruct (advance_timerPending_due _ _ _ _ _ _ _ _ T _ Hs2 HT)
      as (Hmap & [h Hheap] & _).
    exists h. by apply (getDraft_lookup uid r).
  - destruct (advance_timerPending_due _ _ _ _ _ _ _ _ T _ Hs2 HT)
      as (_ & _ & ->).
    by rewrite <- app_assoc.
Qed.

Lemma albumOfTwo_collecting :
  collecting 7 0 "album-1" [] ["a"; "b"] 810 (runTimeline albumOfTwo startState).
Proof.
  split; [done|]. split; [vm_compute; reflexivity|].
  exists 1%nat, []. split_and!; try (vm_compute; reflexivity).
  all: first [by constructor | vm_compute; lia].
Qed.

Lemma pending_album_timer_undoes_preview_witness :
  let s2 := runTimeline [(200, Photo (Some 7) ["x"] None);
                         (400, Text (Some 7) (Some " hello "))]
              (runTimeline albumOfTwo startState) in
  let final st h :=
    {| step := st; photoFileIds := ["a"; "b"] ++ [largest ["x"]];
       text := Some (trim " hello "); mediaGroupId := Some "album-1";
       mediaGroupTimer := Some h |} in
  (∃ h, getDraft 7 s2 = Some (0%nat, final preview h))
  ∧ (∃ h, getDraft 7 (advance 900 s2) = Some (0%nat, final await_text h))
  ∧ textPrompts 7 (advance 900 s2)
    = [] ++ [{| sentAt := 200; chat := 7; notice := TextPromptAfterPhoto |};
             {| sentAt := 810; chat := 7; notice := TextPromptAfterAlbum |}].
Proof.
  apply (pending_album_timer_undoes_preview 7 0 "album-1" [] ["a"; "b"] 810
           (runTimeline albumOfTwo startState) 200 ["x"] 400 " hello " 900).
  - apply albumOfTwo_collecting.
  - vm_compute; lia.
  - reflexivity.
  - reflexivity.
  - lia.
  - lia.
  - lia.
Defined.

End BotMoreFacts.


Module DataUrlFacts.
Import Js DataUrl.

Lemma append_nil s : "" +:+ s = s.
Proof. reflexivity. Qed.

Lemma append_cons a s t : String a s +:+ t = String a (s +:+ t).
Proof. reflexivity. Qed.

Lemma append_assoc s t u : (s +:+ t) +:+ u = s +:+ (t +:+ u).
Proof.
  induction s as [|a s IH]; [done|]. by rewrite !append_cons, IH.
Qed.

Lemma length_append s t :
  String.length (s +:+ t) = (String.length s + String.length t)%nat.
Proof.
  induction s as [|a s IH]; [done|]. rewrite append_cons. cbn. by rewrite IH.
Qed.

Lemma indexOf_append_free c s rest :
  free c s → indexOf c (s +:+ String c rest) = Some (String.length s).
Proof.
  induction s as [|a s IH]; intros Hfree.
  - rewrite append_nil. cbn [indexOf]. by rewrite bool_decide_eq_true_2.
  - destruct Hfree as [Ha Hs]. rewrite append_cons. cbn [indexOf].
    rewrite bool_decide_eq_false_2 by done. by rewrite IH.
Qed.

Lemma dropChars_append s rest : dropChars (String.length s) (s +:+ rest) = rest.
Proof. induction s as [|a s IH]; [done|]. rewrite append_cons. exact IH. Qed.

Lemma takeChars_append s rest : takeChars (String.length s) (s +:+ rest) = s.
Proof.
  induction s as [|a s IH].
  - rewrite append_nil. by destruct rest.
  - rewrite append_cons. cbn [String.length takeChars]. by rewrite IH.
Qed.

Lemma split_free c s : free c s → split c s = [s].
Proof.
  induction s as [|a s IH]; cbn [split free]; [done|].
  intros [Ha Hs]. rewrite bool_decide_eq_false_2 by done. by rewrite IH.
Qed.

Lemma split_append_free c s rest :
  free c s → split c (s +:+ String c rest) = s :: split c rest.
Proof.
  induction s as [|a s IH]; intros Hfree.
  - rewrite append_nil. cbn [split]. by rewrite bool_decide_eq_true_2.
  - destruct Hfree as [Ha Hs]. rewrite append_cons. cbn [split].
    rewrite bool_decide_eq_false_2 by done. by rewrite IH.
Qed.

Lemma join_cons sep p q parts :
  join sep (p :: q :: parts) = p +:+ sep +:+ join sep (q :: parts).
Proof. reflexivity. Qed.

(** Splitting undoes joining. *)
Lemma split_join c parts :
  parts ≠ [] → Forall (free c) parts →
  split c (join (String c EmptyString) parts) = parts.
Proof.
  intros Hne Hfree. induction Hfree as [|p parts Hp Hparts IH]; [done|].
  destruct parts as [|q parts].
  - by apply split_free.
  - rewrite join_cons, append_cons, append_nil.
    rewrite split_append_free by done. by rewrite IH.
Qed.

Lemma free_append c s t : free c s → free c t → free c (s +:+ t).
Proof.
  induction s as [|a s IH]; [done|]. rewrite append_cons. cbn [free].
  intros [? ?] ?. auto.
Qed.

Lemma free_join c sep parts :
  free c sep → Forall (free c) parts → free c (join sep parts).
Proof.
  intros Hsep Hparts. induction Hparts as [|p parts Hp _ IH]; [done|].
  destruct parts as [|q parts]; [done|]. rewrite join_cons.
  apply free_append; [done|]. by apply free_append.
Qed.

(** X13.  Parsing a data URL gives back what it was built from: the first
    non-empty part of the meta section as the MIME type, and everything
    after the first comma as the payload, provided [base64] is among the
    parts; without that marker no payload is reported.  The parts hold no
    comma and no semicolon; the payload may hold either. *)
Theorem parseDataUrl_round_trip (parts : list string) (payload : string) :
  parts ≠ [] → Forall (free ","%char) parts → Forall (free ";"%char) parts →
  parseDataUrl (Some (dataUrl parts payload))
  = {| mimeType := head (filter (fun part => truthy_string part = true) parts);
       base64 := if bool_decide ("base64" ∈ parts) then Some payload else None |}.
Proof.
  intros Hne Hcomma Hsemi. unfold parseDataUrl, dataUrl.
  set (meta := join ";" parts).
  assert (Hmeta : free ","%char meta).
  { apply free_join; [|done]. by split. }
  assert (Hprefix : free ","%char ("data:" +:+ meta)).
  { apply free_append; [|done]. cbn. by split_and!. }
  assert (Hurl : "data:" +:+ meta +:+ "," +:+ payload
                 = ("data:" +:+ meta) +:+ String "," payload).
  { by rewrite append_assoc. }
  assert (Hstarts : startsWith "data:" ("data:" +:+ meta +:+ "," +:+ payload) = true).
  { rewrite !append_cons. cbn [startsWith].
    by rewrite !bool_decide_eq_true_2 by done. }
  assert (Htruthy : truthy_string ("data:" +:+ meta +:+ "," +:+ payload) = true).
  { by rewrite append_cons. }
  rewrite Hstarts, Htruthy. cbn [negb orb].
  rewrite Hurl, indexOf_append_free by done. cbn zeta.
  unfold slice, sliceFrom.
  assert (Hmid : takeChars (String.length ("data:" +:+ meta) - 5)
                   (dropChars 5 (("data:" +:+ meta) +:+ String "," payload)) = meta).
  { rewrite length_append. rewrite !append_cons, append_nil.
    cbn [dropChars String.length].
    replace (5 + String.length meta - 5)%nat with (String.length meta) by lia.
    apply takeChars_append. }
  assert (Hend : dropChars (String.length ("data:" +:+ meta) + 1)
                   (("data:" +:+ meta) +:+ String "," payload) = payload).
  { replace (String.length ("data:" +:+ meta) + 1)%nat
      with (String.length (("data:" +:+ meta) +:+ ",")).
    2:{ rewrite !length_append. cbn. lia. }
    replace (("data:" +:+ meta) +:+ String "," payload)
      with ((("data:" +:+ meta) +:+ ",") +:+ payload).
    2:{ by rewrite !append_assoc. }
    apply dropChars_append. }
  rewrite Hmid, Hend. unfold meta. rewrite split_join by done.
  f_equal.
  - destruct (head _) as [m|] eqn:Hhead; [|done].
    apply head_Some_elem_of, list_elem_of_filter in Hhead as [-> _]. done.
  - assert (Hin : "base64" ∈ filter (fun part => truthy_string part = true) parts
                  ↔ "base64" ∈ parts).
    { rewrite list_elem_of_filter. split; [by intros [_ ?]|done]. }
    by rewrite (bool_decide_ext _ _ Hin).
Qed.

Lemma parseDataUrl_round_trip_witness :
  parseDataUrl (Some (dataUrl ["application/vnd.ms-excel"; "base64"] "0M8R,4A=="))
  = {| mimeType := head (filter (fun part => truthy_string part = true)
                           ["application/vnd.ms-excel"; "base64"]);
       base64 := if bool_decide ("base64" ∈ ["application/vnd.ms-excel"; "base64"])
                 then Some "0M8R,4A==" else None |}.
Proof.
  apply (parseDataUrl_round_trip ["application/vnd.ms-excel"; "base64"] "0M8R,4A==").
  - done.
  - repeat (constructor; [cbn; by split_and!|]). constructor.
  - repeat (constructor; [cbn; by split_and!|]). constructor.
Defined.

End DataUrlFacts.


(** ** The attachment views, continued *)

Module MiniappMoreFacts.
Import Js Miniapp MiniappFacts MiniappViews.

Section ViewFacts.
Variable Number : string -> option Z.
Variable basename : string -> string.
Variable readWorkbook : string -> Workbook.

Abbreviation resolve := (resolveTelegramUserId Number).
Abbreviation build := (buildTrainingFileViewData basename readWorkbook).
Abbreviation serve := (fileRoute Number basename readWorkbook).

Lemma foldl_max_le (cells : list (list string)) m :
  (m ≤ foldl (fun m row => Nat.max m (length row)) m cells)%nat
  ∧ Forall (fun row => (length row ≤ foldl (fun m row => Nat.max m (length row)) m cells)%nat) cells.
Proof.
  revert m. induction cells as [|row cells IH]; intros m; cbn [foldl].
  - split; [done|constructor].
  - destruct (IH (Nat.max m (length row))) as [Hm Hall].
    split; [lia|]. constructor; [lia|done].
Qed.

(** The width is the length of some row. *)
Lemma foldl_max_attained (cells : list (list string)) m :
  foldl (fun m row => Nat.max m (length row)) m cells = m
  ∨ Exists (fun row => length row = foldl (fun m row => Nat.max m (length row)) m cells) cells.
Proof.
  revert m. induction cells as [|row cells IH]; intros m; cbn [foldl]; [by left|].
  destruct (IH (Nat.max m (length row))) as [Heq|Hex].
  - rewrite Heq. destruct (Nat.max_spec m (length row)) as [[_ ->]|[_ ->]].
    + right. by left.
    + by left.
  - right. by right.
Qed.

Lemma length_padRow width row :
  (length row ≤ width)%nat → length (padRow width row) = width.
Proof.
  intros Hle. unfold padRow. case_bool_decide; [lia|].
  rewrite length_app, length_replicate. lia.
Qed.

Lemma padRow_pads width row :
  (length row ≤ width)%nat →
  padRow width row = row ++ replicate (width - length row) "".
Proof.
  intros Hle. unfold padRow. case_bool_decide; [|done].
  replace (width - length row)%nat with 0%nat by lia. by rewrite app_nil_r.
Qed.

(** What the view shows of a readable sheet. *)
Lemma build_sheet order url name cells :
  attachmentUrl order = Some url → truthy_string url = true →
  readWorkbook (basename url) = Sheet name cells →
  build (Some order)
  = {| error := "";
       fileName := or_string (default "" (attachmentFileName order)) (basename url);
       vd_attachmentUrl := url; sheetName := or_string name "";
       header := default [] (head (padRow (maxColumns cells) <$> cells));
       rows := tail (padRow (maxColumns cells) <$> cells) |}.
Proof.
  intros Hurl Htruthy Hbook. unfold buildTrainingFileViewData.
  by rewrite Hurl, Htruthy, Hbook.
Qed.

(** Apart from a readable sheet, the view is an error message over an
    empty table. *)
Lemma build_cases order :
  (truthy_string (error (build order)) = true
   ∧ header (build order) = [] ∧ rows (build order) = [])
  ∨ (∃ o url name cells,
       order = Some o ∧ attachmentUrl o = Some url ∧ truthy_string url = true
       ∧ readWorkbook (basename url) = Sheet name cells).
Proof.
  unfold buildTrainingFileViewData.
  destruct order as [o|]; [|by left].
  destruct (attachmentUrl o) as [url|] eqn:Hurl; [|by left].
  destruct (truthy_string url) eqn:Htruthy; cbn [negb]; [|by left].
  destruct (readWorkbook (basename url)) as [|name|name cells] eqn:Hbook;
    [by left|by left|].
  right. by exists o, url, name, cells.
Qed.

End ViewFacts.

(** X14.  The table of a file view is rectangular: every row below the
    header is as long as the header, for any order and any stored file. *)
Theorem view_table_is_rectangular
    (basename : string → string) (readWorkbook : string → Workbook)
    (order : option OrderDoc) :
  let viewData := buildTrainingFileViewData basename readWorkbook order in
  Forall (fun row => length row = length (header viewData)) (rows viewData).
Proof.
  cbn zeta.
  destruct (build_cases basename readWorkbook order)
    as [(_ & _ & ->)|(o & url & name & cells & -> & Hurl & Htruthy & Hbook)];
    [constructor|].
  rewrite (build_sheet _ _ _ _ _ _ Hurl Htruthy Hbook). cbn [header rows].
  destruct (foldl_max_le cells 0) as [_ Hall]. fold (maxColumns cells) in Hall.
  generalize dependent (maxColumns cells). intros width Hall.
  destruct Hall as [|row cells' Hrow Hrest]; [constructor|].
  cbn [fmap list_fmap head tail default id].
  change (id (padRow width row)) with (padRow width row).
  rewrite length_padRow by done.
  apply Forall_fmap. eapply Forall_impl; [exact Hrest|].
  intros r Hr. cbn. by apply length_padRow.
Qed.

(** X15.  A readable sheet is shown cell for cell: the header and the rows
    are the rows of the sheet in their order, each filled up with empty
    cells to the length of the longest one, and the view carries no
    error. *)
Theorem view_table_pads_cells
    (basename : string → string) (readWorkbook : string → Workbook)
    (order : OrderDoc) (url name : string) (cells : list (list string)) :
  attachmentUrl order = Some url → truthy_string url = true →
  readWorkbook (basename url) = Sheet name cells → cells ≠ [] →
  let viewData := buildTrainingFileViewData basename readWorkbook (Some order) in
  error viewData = ""
  ∧ ∃ width,
      header viewData :: rows viewData
      = (fun row => row ++ replicate (width - length row) "") <$> cells
      ∧ Forall (fun row => (length row ≤ width)%nat) cells
      ∧ Exists (fun row => length row = width) cells.
Proof.
  intros Hurl Htruthy Hbook Hne. cbn zeta.
  rewrite (build_sheet _ _ _ _ _ _ Hurl Htruthy Hbook). cbn [error header rows].
  split; [done|]. exists (maxColumns cells).
  destruct (foldl_max_le cells 0) as [_ Hall]. fold (maxColumns cells) in Hall.
  split_and!; [|done|].
  - assert (Hpad : padRow (maxColumns cells) <$> cells
                   = (fun row => row ++ replicate (maxColumns cells - length row) "") <$> cells).
    { apply Forall_fmap_ext. eapply Forall_impl; [exact Hall|].
      intros row Hrow. by apply padRow_pads. }
    rewrite <- Hpad. by destruct cells.
  - destruct (foldl_max_attained cells 0) as [Hzero|Hex]; [|done].
    fold (maxColumns cells) in Hzero. destruct cells as [|row cells']; [done|].
    left. apply Forall_cons in Hall as [Hrow _]. lia.
Qed.

Lemma view_table_pads_cells_witness :
  let viewData := buildTrainingFileViewData sampleBasename sampleWorkbook
                    (sampleOrders !! "o1") in
  error viewData = ""
  ∧ ∃ width,
      header viewData :: rows viewData
      = (fun row => row ++ replicate (width - length row) "")
          <$> [["Day"; "Load"]; ["Mon"]]
      ∧ Forall (fun row => (length row ≤ width)%nat) [["Day"; "Load"]; ["Mon"]]
      ∧ Exists (fun row => length row = width) [["Day"; "Load"]; ["Mon"]].
Proof.
  apply (view_table_pads_cells sampleBasename sampleWorkbook
           {| telegramUserId := 7; attachmentUrl := Some "/uploads/plan.xlsx";
              attachmentFileName := Some "Plan.xlsx" |}
           "/uploads/plan.xlsx" "Week 1" [["Day"; "Load"]; ["Mon"]]).
  - reflexivity.
  - reflexivity.
  - reflexivity.
  - done.
Defined.

(** X16.  A file view answers 200, 403, 404 or 500, and 200 exactly when
    the view carries no error message; every other answer comes with an
    empty table. *)
Theorem file_view_failure_shows_no_table
    (Number : string → option Z) (basename : string → string)
    (readWorkbook : string → Workbook)
    (template : string) (orders : gmap string OrderDoc) (req : Request) :
  let response := fileRoute Number basename readWorkbook template orders req in
  (status response = 200 ∨ status response = 403
   ∨ status response = 404 ∨ status response = 500)
  ∧ (status response = 200 ↔ error (locals response) = "")
  ∧ (status response ≠ 200 →
       header (locals response) = [] ∧ rows (locals response) = []).
Proof.
  assert (Hempty : ∀ s, truthy_string s = false ↔ s = "").
  { intros s. by destruct s. }
  cbn zeta. unfold fileRoute.
  destruct (findRejected req); [cbn; split_and!; [tauto|done|done]|].
  destruct (orders !! params_id req) as [order|]; [|cbn; split_and!; [tauto|done|done]].
  destruct (match resolveTelegramUserId Number req with
            | Some id => truthy_number id && negb (bool_decide (telegramUserId order = id))
            | None => false
            end); [cbn; split_and!; [tauto|done|done]|].
  destruct (build_cases basename readWorkbook (Some order))
    as [(Herr & Hheader & Hrows)|(o & url & name & cells & [= <-] & Hurl & Htruthy & Hbook)].
  - rewrite Herr. cbn [status locals]. split_and!; [tauto| |done].
    split; [done|]. intros Hnone%Hempty. by rewrite Hnone in Herr.
  - rewrite (build_sheet _ _ _ _ _ _ Hurl Htruthy Hbook). cbn.
    split_and!; [tauto|done|done].
Qed.

(** X17.  An order that exists is shown to a request that resolves to no
    Telegram id, to the id 0 or to the owner's id, and to no other: any
    other id gets the blank view of the 403 answer. *)
Theorem file_view_shown_to_owner_zero_or_anonymous
    (Number : string → option Z) (basename : string → string)
    (readWorkbook : string → Workbook)
    (template : string) (orders : gmap string OrderDoc) (req : Request)
    (order : OrderDoc) :
  findRejected req = false → orders !! params_id req = Some order →
  let response := fileRoute Number basename readWorkbook template orders req in
  let resolved := resolveTelegramUserId Number req in
  (resolved = None ∨ resolved = Some 0 ∨ resolved = Some (telegramUserId order) →
     locals response = buildTrainingFileViewData basename readWorkbook (Some order)
     ∧ status response ≠ 403)
  ∧ (¬ (resolved = None ∨ resolved = Some 0 ∨ resolved = Some (telegramUserId order)) →
     locals response = blankView "Нет доступа к этому файлу."
     ∧ status response = 403).
Proof.
  intros Hfind Horder. cbn zeta. unfold fileRoute. rewrite Hfind, Horder.
  destruct (resolveTelegramUserId Number req) as [id|]; cbn [andb].
  - unfold truthy_number. destruct (Z.eqb_spec id 0) as [->|Hid]; cbn [negb andb].
    { split; [|by intros []; auto]. intros _. split; [done|].
      cbn. by destruct (truthy_string _). }
    case_bool_decide as Hown; cbn [negb].
    + split; [|intros []; subst; auto]. intros _. split; [done|].
      cbn. by destruct (truthy_string _).
    + split; [|done].
      intros [?|[[= ?]|[= ?]]]; [done|done|]. by subst.
  - split; [|by intros []; auto]. intros _. split; [done|].
    cbn. by destruct (truthy_string _).
Qed.

Lemma file_view_shown_to_owner_zero_or_anonymous_witness :
  let response := fileRoute sampleNumber sampleBasename sampleWorkbook
                    "miniapp/training-file" sampleOrders strangerRequest in
  let resolved := resolveTelegramUserId sampleNumber strangerRequest in
  (resolved = None ∨ resolved = Some 0 ∨ resolved = Some 7 →
     locals response
     = buildTrainingFileViewData sampleBasename sampleWorkbook
         (Some {| telegramUserId := 7; attachmentUrl := Some "/uploads/plan.xlsx";
                  attachmentFileName := Some "Plan.xlsx" |})
     ∧ status response ≠ 403)
  ∧ (¬ (resolved = None ∨ resolved = Some 0 ∨ resolved = Some 7) →
     locals response = blankView "Нет доступа к этому файлу."
     ∧ status response = 403).
Proof.
  apply (file_view_shown_to_owner_zero_or_anonymous sampleNumber sampleBasename
           sampleWorkbook "miniapp/training-file" sampleOrders strangerRequest
           {| telegramUserId := 7; attachmentUrl := Some "/uploads/plan.xlsx";
              attachmentFileName := Some "Plan.xlsx" |}).
  - reflexivity.
  - reflexivity.
Defined.

End MiniappMoreFacts.


Module AdminMoreFacts.
Import Js Admin AdminFacts AdminViews.

(** The shared tail of the three routes, with its answer. *)
Lemma decide_order_outcome req wanted update userStatus answer notFound failure db :
  let '(resp, db') :=
    decide_order req wanted update userStatus answer notFound failure db in
  (db' = db ∧ code resp ≠ 200
   ∧ (updateRejected req = false →
        code resp = 404
        ∧ ∀ d, d ∈ orders db → ¬ (_id d = params_id req ∧ status d = wanted)))
  ∨ (∃ before d after,
       orders db = before ++ d :: after
       ∧ _id d = params_id req ∧ status d = wanted
       ∧ orders db' = before ++ update d :: after
       ∧ updateRejected req = false
       ∧ ((userUpdateRejected req = true ∧ code resp = 500 ∧ users db' = users db)
          ∨ (userUpdateRejected req = false ∧ code resp = 200
             ∧ users db'
               = setTrainingStatus (telegramUserId (update d)) userStatus (users db)))).
Proof.
  unfold decide_order.
  destruct (updateRejected req) eqn:Hrej; [by left|].
  destruct (findOneAndUpdate_spec (byIdAndStatus (params_id req) wanted) update (orders db))
    as [[-> Hall]|(before & d & after & Hdocs & Hsel & _ & ->)].
  - left. split_and!; [done|done|]. intros _. split; [done|].
    intros d Hd Hmatch%byIdAndStatus_true. by rewrite (Hall d Hd) in Hmatch.
  - apply byIdAndStatus_true in Hsel as [Hid Hst].
    destruct (userUpdateRejected req); right; exists before, d, after;
      split_and!; try done; [by left|by right].
Qed.

(** What a decision route does: nothing, with an answer other than 200
    (a 404 if the request gets as far as the update), or the update of
    the one matching order, answered 200, or 500 if the update of the
    user fails afterwards. *)
Lemma route_outcome d req db :
  ((route d req db).2 = db ∧ code (route d req db).1 ≠ 200
   ∧ (reachesUpdate d req →
        code (route d req db).1 = 404
        ∧ ∀ o, o ∈ orders db → ¬ (_id o = params_id req ∧ status o = wantedStatus d)))
  ∨ (∃ before o o' after,
       orders db = before ++ o :: after
       ∧ _id o = params_id req ∧ status o = wantedStatus d
       ∧ orders (route d req db).2 = before ++ o' :: after
       ∧ _id o' = _id o ∧ status o' = newStatus d
       ∧ telegramUserId o' = telegramUserId o
       ∧ reachesUpdate d req
       ∧ ((userUpdateRejected req = true ∧ code (route d req db).1 = 500
           ∧ users (route d req db).2 = users db)
          ∨ (userUpdateRejected req = false ∧ code (route d req db).1 = 200
             ∧ users (route d req db).2
               = setTrainingStatus (telegramUserId o) (userStatus d) (users db)))).
Proof.
  destruct d; cbn [route wantedStatus newStatus userStatus];
    unfold requests_accept, requests_decline, trainings_complete, reachesUpdate;
    (destruct (truthy_id (resolvedAdminTelegramId req)) as [admin|];
       [|left; cbn; split_and!; [done|done|by intros [[? [=]] _]]]).
  - destruct (truthy_string (attachmentData req)); cbn [negb];
      [|left; cbn; split_and!; [done|done|];
        by intros (_ & _ & Hacc); destruct (Hacc eq_refl) as [[=] _]].
    destruct (excelAttachment req); cbn [negb];
      [|left; cbn; split_and!; [done|done|];
        by intros (_ & _ & Hacc); destruct (Hacc eq_refl) as (_ & [=] & _)].
    destruct (saveAttachment req) as [saved|e];
      [|left; cbn; split_and!; [done|done|];
        by intros (_ & _ & Hacc); destruct (Hacc eq_refl) as (_ & _ & ? & [=])].
    pose proof (decide_order_outcome req "pending" (acceptUpdate admin req saved)
      "active" "accepted" "Request not found" "Failed to accept request" db) as H.
    destruct (decide_order _ _ _ _ _ _ _ _) as [resp db']. cbn [fst snd].
    destruct H as [(-> & Hcode & H404)
                  |(before & o & after & Hdocs & Hid & Hst & Hnew & Hrej & Husers)].
    + left. split_and!; [done|done|]. intros (_ & Hrej & _). by apply H404.
    + right. exists before, o, (acceptUpdate admin req saved o), after.
      split_and!; try done; eauto.
  - pose proof (decide_order_outcome req "pending" (declineUpdate admin req)
      "declined" "declined" "Request not found" "Failed to decline request" db) as H.
    destruct (decide_order _ _ _ _ _ _ _ _) as [resp db']. cbn [fst snd].
    destruct H as [(-> & Hcode & H404)
                  |(before & o & after & Hdocs & Hid & Hst & Hnew & Hrej & Husers)].
    + left. split_and!; [done|done|]. intros (_ & Hrej & _). by apply H404.
    + right. exists before, o, (declineUpdate admin req o), after.
      split_and!; try done; eauto.
  - pose proof (decide_order_outcome req "accepted" (completeUpdate admin req)
      "completed" "completed" "Training not found" "Failed to complete training" db) as H.
    destruct (decide_order _ _ _ _ _ _ _ _) as [resp db']. cbn [fst snd].
    destruct H as [(-> & Hcode & H404)
                  |(before & o & after & Hdocs & Hid & Hst & Hnew & Hrej & Husers)].
    + left. split_and!; [done|done|]. intros (_ & Hrej & _). by apply H404.
    + right. exists before, o, (completeUpdate admin req o), after.
      split_and!; try done; eauto.
Qed.

Lemma filter_none {A} (P : A → Prop) `{∀ x, base.Decision (P x)} (l : list A) :
  (∀ x, x ∈ l → ¬ P x) → filter P l = [].
Proof.
  induction l as [|x l IH]; intros Hall; [done|].
  rewrite filter_cons_False by (apply Hall; by left).
  apply IH. intros y Hy. apply Hall. by right.
Qed.

(** With ids unique, the orders of one id are the one order found. *)
Lemma ordersWithId_unique (docs before after : list OrderDoc) o o' :
  NoDup (_id <$> docs) → docs = before ++ o :: after → _id o' = _id o →
  filter (fun x => _id x = _id o) (before ++ o' :: after) = [o'].
Proof.
  intros Hnodup -> Hid.
  rewrite fmap_app, fmap_cons in Hnodup.
  apply NoDup_app in Hnodup as (_ & Hbefore & Hafter%NoDup_cons).
  destruct Hafter as [Hafter _].
  rewrite filter_app, filter_cons_True by done.
  assert (Hb : filter (fun x => _id x = _id o) before = []).
  { apply filter_none. intros x Hx Hxid.
    apply (Hbefore (_id x)); [by apply list_elem_of_fmap_2|]. rewrite Hxid. by left. }
  assert (Ha : filter (fun x => _id x = _id o) after = []).
  { apply filter_none. intros x Hx Hxid.
    apply Hafter. rewrite <- Hxid. by apply list_elem_of_fmap_2. }
  by rewrite Hb, Ha.
Qed.

Lemma route_keeps_ids d req db :
  _id <$> orders (route d req db).2 = _id <$> orders db.
Proof.
  destruct (route_outcome d req db)
    as [(-> & _)|(before & o & o' & after & -> & _ & _ & -> & Hid & _)]; [done|].
  by rewrite !fmap_app, !fmap_cons, Hid.
Qed.

(** After a decision took effect the order carries the new status, and
    it is the only order of its id. *)
Lemma route_applied d req db :
  NoDup (_id <$> orders db) → code (route d req db).1 ≠ 404 →
  (route d req db).2 ≠ db ∨ code (route d req db).1 = 200 →
  ∃ o', ordersWithId (params_id req) (route d req db).2 = [o']
        ∧ status o' = newStatus d.
Proof.
  intros Hnodup H404 Hchanged.
  destruct (route_outcome d req db)
    as [(Hsame & Hcode & _)
       |(before & o & o' & after & Hdocs & Hid & Hst & Hnew & Hid' & Hst' & _)].
  { by destruct Hchanged. }
  exists o'. split; [|done]. unfold ordersWithId. rewrite Hnew, <- Hid.
  by apply (ordersWithId_unique (orders db)).
Qed.

(** X18.  An order is decided once.  When ids are unique and a decision
    was answered 200, a later request for the same order that asks for a
    status the order no longer has is answered 404 and changes nothing:
    an accepted order cannot be accepted again or declined, a declined
    order cannot be accepted, declined or completed, a completed order
    cannot be decided at all. *)
Theorem decided_order_is_closed (d1 d2 : Decision) (req1 req2 : Request) (db : Db) :
  NoDup (_id <$> orders db) →
  code (route d1 req1 db).1 = 200 →
  params_id req2 = params_id req1 →
  wantedStatus d2 ≠ newStatus d1 →
  reachesUpdate d2 req2 →
  let db1 := (route d1 req1 db).2 in
  code (route d2 req2 db1).1 = 404 ∧ (route d2 req2 db1).2 = db1.
Proof.
  intros Hnodup Hok Hsame Hstatus Hreach. cbn zeta.
  destruct (route_applied d1 req1 db Hnodup) as (o' & Honly & Hst');
    [by rewrite Hok|by right|].
  destruct (route_outcome d2 req2 (route d1 req1 db).2)
    as [(Hdb & _ & H404)|(before & o & o2 & after & Hdocs & Hid & Hst & _)].
  { split; [|done]. by apply H404. }
  exfalso. apply Hstatus. rewrite <- Hst, <- Hst'.
  assert (Hin : o ∈ ordersWithId (params_id req1) (route d1 req1 db).2).
  { unfold ordersWithId. apply list_elem_of_filter. split; [congruence|].
    rewrite Hdocs. apply elem_of_app. right. by left. }
  rewrite Honly in Hin. by apply list_elem_of_singleton in Hin as ->.
Qed.

Lemma decided_order_is_closed_witness :
  let db1 := (route Accept (sampleRequest "o1") sampleDb).2 in
  code (route Decline (sampleRequest "o1") db1).1 = 404
  ∧ (route Decline (sampleRequest "o1") db1).2 = db1.
Proof.
  apply (decided_order_is_closed Accept Decline (sampleRequest "o1")
           (sampleRequest "o1") sampleDb).
  - apply NoDup_singleton.
  - reflexivity.
  - reflexivity.
  - discriminate.
  - split_and!; [by exists 1|reflexivity|intros [=]].
Defined.

(** X19.  Accepting and then completing an order takes it through its
    life: when ids are unique and the accept was answered 200, a complete
    request for the same order that reaches the update and whose user
    update goes through is answered 200, the order ends as completed, the
    ids of the collection are unchanged, and the user's training status
    is set to completed. *)
Theorem accepted_order_can_be_completed (req1 req2 : Request) (db : Db) :
  NoDup (_id <$> orders db) →
  code (route Accept req1 db).1 = 200 →
  params_id req2 = params_id req1 →
  reachesUpdate Complete req2 → userUpdateRejected req2 = false →
  let db1 := (route Accept req1 db).2 in
  let db2 := (route Complete req2 db1).2 in
  code (route Complete req2 db1).1 = 200
  ∧ (∃ o, ordersWithId (params_id req1) db2 = [o] ∧ status o = "completed"
          ∧ users db2 = setTrainingStatus (telegramUserId o) "completed" (users db1))
  ∧ _id <$> orders db2 = _id <$> orders db.
Proof.
  intros Hnodup Hok Hsame Hreach Huser. cbn zeta.
  destruct (route_applied Accept req1 db Hnodup) as (o1 & Honly & Hst1);
    [by rewrite Hok|by right|].
  set (db1 := (route Accept req1 db).2) in *.
  assert (Hnodup1 : NoDup (_id <$> orders db1)).
  { unfold db1. by rewrite route_keeps_ids. }
  assert (Hin1 : o1 ∈ orders db1).
  { assert (Hin : o1 ∈ ordersWithId (params_id req1) db1) by (rewrite Honly; by left).
    by apply list_elem_of_filter in Hin as [_ ?]. }
  assert (Hid1 : _id o1 = params_id req1).
  { assert (Hin : o1 ∈ ordersWithId (params_id req1) db1) by (rewrite Honly; by left).
    by apply list_elem_of_filter in Hin as [? _]. }
  destruct (route_outcome Complete req2 db1)
    as [(_ & _ & H404)
       |(before & o & o' & after & Hdocs & Hid & Hst & Hnew & Hid' & Hst' & Hu & _ & Hres)].
  { destruct (H404 Hreach) as [_ Hnone]. exfalso.
    apply (Hnone o1 Hin1). split; [congruence|done]. }
  destruct Hres as [(Hrej & _)|(_ & Hcode & Husers)]; [congruence|].
  split_and!; [done| |].
  - exists o'. split_and!; [|done|by rewrite Hu].
    unfold ordersWithId. rewrite Hnew, <- Hsame, <- Hid.
    by apply (ordersWithId_unique (orders db1)).
  - rewrite route_keeps_ids. unfold db1. by rewrite route_keeps_ids.
Qed.

Lemma accepted_order_can_be_completed_witness :
  let db1 := (route Accept (sampleRequest "o1") sampleDb).2 in
  let db2 := (route Complete (sampleRequest "o1") db1).2 in
  code (route Complete (sampleRequest "o1") db1).1 = 200
  ∧ (∃ o, ordersWithId "o1" db2 = [o] ∧ status o = "completed"
          ∧ users db2 = setTrainingStatus (telegramUserId o) "completed" (users db1))
  ∧ _id <$> orders db2 = _id <$> orders sampleDb.
Proof.
  apply (accepted_order_can_be_completed (sampleRequest "o1") (sampleRequest "o1")
           sampleDb).
  - apply NoDup_singleton.
  - reflexivity.
  - reflexivity.
  - split_and!; [by exists 1|reflexivity|intros [=]].
  - reflexivity.
Defined.

(** X20.  The order and the user are not updated as one.  When the update
    of the user fails after the order was found, the answer is 500 and
    the users are as before, but the order keeps its new status, so that
    with unique ids the same request sent again is answered 404. *)
Theorem decision_survives_failed_user_update (d : Decision) (req : Request) (db : Db)
    (o : OrderDoc) :
  NoDup (_id <$> orders db) →
  reachesUpdate d req → userUpdateRejected req = true →
  o ∈ orders db → _id o = params_id req → status o = wantedStatus d →
  let db1 := (route d req db).2 in
  code (route d req db).1 = 500
  ∧ users db1 = users db
  ∧ (∃ o', ordersWithId (params_id req) db1 = [o'] ∧ status o' = newStatus d)
  ∧ code (route d req db1).1 = 404.
Proof.
  intros Hnodup Hreach Huser Hin Hid Hst. cbn zeta.
  destruct (route_outcome d req db)
    as [(_ & _ & H404)
       |(before & o1 & o' & after & Hdocs & Hid1 & Hst1 & Hnew & Hid' & Hst' & _ & _ & Hres)].
  { destruct (H404 Hreach) as [_ Hnone]. by destruct (Hnone o Hin). }
  destruct Hres as [(_ & Hcode & Husers)|(Hok & _)]; [|congruence].
  assert (Honly : ordersWithId (params_id req) (route d req db).2 = [o']).
  { unfold ordersWithId. rewrite Hnew, <- Hid1.
    by apply (ordersWithId_unique (orders db)). }
  split_and!; [done|done|by exists o'|].
  destruct (route_outcome d req (route d req db).2)
    as [(_ & _ & H404)|(before2 & o2 & o2' & after2 & Hdocs2 & Hid2 & Hst2 & _)].
  { by apply H404. }
  exfalso.
  assert (Hin2 : o2 ∈ ordersWithId (params_id req) (route d req db).2).
  { unfold ordersWithId. apply list_elem_of_filter. split; [done|].
    rewrite Hdocs2. apply elem_of_app. right. by left. }
  rewrite Honly in Hin2. apply list_elem_of_singleton in Hin2 as ->.
  rewrite Hst' in Hst2. by destruct d.
Qed.

Lemma decision_survives_failed_user_update_witness :
  let db1 := (route Decline (halfFailingRequest "o1") sampleDb).2 in
  code (route Decline (halfFailingRequest "o1") sampleDb).1 = 500
  ∧ users db1 = users sampleDb
  ∧ (∃ o', ordersWithId "o1" db1 = [o'] ∧ status o' = "declined")
  ∧ code (route Decline (halfFailingRequest "o1") db1).1 = 404.
Proof.
  apply (decision_survives_failed_user_update Decline (halfFailingRequest "o1")
           sampleDb pendingOrder).
  - apply NoDup_singleton.
  - split_and!; [by exists 1|reflexivity|intros [=]].
  - reflexivity.
  - by left.
  - reflexivity.
  - reflexivity.
Defined.

Lemma foldl_refreshOne_tally counts users :
  foldl refreshOne counts users
  = ((counts.1 + length (turnsEnding isRefreshed users))%nat,
     (counts.2 + length (turnsEnding (fun o => negb (isRefreshed o)) users))%nat).
Proof.
  revert counts. induction users as [|u users IH]; intros [n m]; cbn [foldl].
  - cbn. f_equal; lia.
  - rewrite IH. unfold turnsEnding, refreshOne. rewrite !filter_cons.
    destruct (truthy_id (userTelegramId u)) as [id|].
    + destruct (outcome u); cbn [isRefreshed negb fst snd].
      all: repeat match goal with
           | |- context [decide (?P ∧ ?b = true)] =>
               first [rewrite (decide_True (P := P ∧ b = true)) by eauto
                     |rewrite (decide_False (P := P ∧ b = true)) by (by intros [_ ?])]
           end.
      all: cbn [length]; f_equal; lia.
    + rewrite !decide_False by (by intros [[? [=]] _]). done.
Qed.

(** X21.  The refresh report counts each user once: [updated] is the
    number of users with a Telegram id whose chat lookup and update went
    through, [failed] the number of those for whom one of the two threw
    or the lookup came back empty, and users without an id are in
    [processed] only. *)
Theorem users_refresh_tally (users : list RefreshTurn) :
  let report := users_refresh users in
  updated report = length (turnsEnding isRefreshed users)
  ∧ failed report = length (turnsEnding (fun o => negb (isRefreshed o)) users)
  ∧ processed report
    = (updated report + failed report
       + length (filter (fun u => truthy_id (userTelegramId u) = None) users))%nat.
Proof.
  unfold users_refresh. cbn zeta. cbn [processed updated failed].
  rewrite foldl_refreshOne_tally. cbn [fst snd]. split_and!; [done|done|].
  unfold turnsEnding. induction users as [|u users IH]; [done|].
  rewrite !filter_cons. cbn [length]. rewrite IH at 1.
  destruct (truthy_id (userTelegramId u)) as [id|].
  - rewrite (decide_False (P := Some id = None)) by done.
    destruct (isRefreshed (outcome u)); cbn [negb].
    + rewrite (decide_True (P := is_Some (Some id) ∧ true = true)) by eauto.
      rewrite (decide_False (P := is_Some (Some id) ∧ false = true)) by (by intros [_ ?]).
      cbn [length]. lia.
    + rewrite (decide_False (P := is_Some (Some id) ∧ false = true)) by (by intros [_ ?]).
      rewrite (decide_True (P := is_Some (Some id) ∧ true = true)) by eauto.
      cbn [length]. lia.
  - rewrite (decide_True (P := None = None)) by done.
    rewrite !decide_False by (by intros [[? [=]] _]). cbn [length]. lia.
Qed.

End AdminMoreFacts.


Module TrainingsFacts.
Import Js Admin Trainings.

Lemma findOne_Some selects docs d :
  findOne selects docs = Some d →
  ∃ before after, docs = before ++ d :: after ∧ selects d = true
                  ∧ ∀ x, x ∈ before → selects x = false.
Proof.
  induction docs as [|x docs IH]; cbn [findOne]; [done|].
  destruct (selects x) eqn:Hx.
  - intros [= ->]. exists [], docs. split_and!; [done|done|].
    by intros y Hy%elem_of_nil.
  - intros (before & after & -> & Hsel & Hbefore)%IH.
    exists (x :: before), after. split_and!; [done|done|].
    intros y [->|Hy]%elem_of_cons; auto.
Qed.

Lemma findOne_None selects docs :
  findOne selects docs = None ↔ ∀ x, x ∈ docs → selects x = false.
Proof.
  induction docs as [|x docs IH]; cbn [findOne].
  - split; [by intros _ y Hy%elem_of_nil|done].
  - destruct (selects x) eqn:Hx.
    + split; [done|]. intros Hall.
      assert (selects x = false) as Hno by (apply Hall; by left). congruence.
    + rewrite IH. split.
      * intros Hall y [->|Hy]%elem_of_cons; auto.
      * intros Hall y Hy. apply Hall. by right.
Qed.

(** With ids unique, [deleteOne] takes out the one order of that id. *)
Lemma deleteOne_unique id before d after :
  NoDup (_id <$> (before ++ d :: after)) → _id d = id →
  deleteOne id (before ++ d :: after) = before ++ after.
Proof.
  intros Hnodup Hid. induction before as [|x before IH]; cbn [deleteOne app].
  - by rewrite bool_decide_eq_true_2.
  - cbn in Hnodup. apply NoDup_cons in Hnodup as [Hx Hnodup].
    rewrite bool_decide_eq_false_2.
    + by rewrite IH.
    + intros Hxid. apply Hx. rewrite Hxid, <- Hid.
      apply list_elem_of_fmap_2, elem_of_app. right. by left.
Qed.

Lemma hasStatus_spec wanted remaining :
  truthy_string wanted = true →
  hasStatus wanted remaining = true ↔ ∃ o, o ∈ remaining ∧ status o = wanted.
Proof.
  intros Hwanted. unfold hasStatus.
  destruct (findOne _ remaining) as [item|] eqn:Hfind.
  - apply findOne_Some in Hfind as (before & after & -> & Hsel & _).
    apply bool_decide_eq_true in Hsel. rewrite Hsel, Hwanted. split; [|done].
    intros _. exists item. split; [|done]. apply elem_of_app. right. by left.
  - split; [done|]. intros (o & Ho & Hst).
    rewrite findOne_None in Hfind. specialize (Hfind o Ho).
    by apply bool_decide_eq_false in Hfind.
Qed.

(** What the route does to the orders: nothing, or it takes out the
    order found. *)
Lemma trainings_delete_outcome req db :
  NoDup (_id <$> orders db) →
  ((trainings_delete req db).2 = db ∧ code (trainings_delete req db).1 ≠ 200)
  ∨ (∃ admin before o after,
       truthy_id (delete_admin req) = Some admin
       ∧ orders db = before ++ o :: after
       ∧ mayDelete (delete_id req) admin o = true
       ∧ orders (trainings_delete req db).2 = before ++ after
       ∧ ((code (trainings_delete req db).1 = 500
           ∧ users (trainings_delete req db).2 = users db)
          ∨ (code (trainings_delete req db).1 = 200
             ∧ users (trainings_delete req db).2
               = setTrainingStatus (telegramUserId o)
                   (nextStatus (filter (fun x => telegramUserId x = telegramUserId o)
                                  (before ++ after)))
                   (users db)))).
Proof.
  intros Hnodup. unfold trainings_delete.
  destruct (truthy_id (delete_admin req)) as [admin|]; [|by left].
  case_bool_decide; [by left|].
  destruct (findOne _ (orders db)) as [o|] eqn:Hfind; [|by left].
  apply findOne_Some in Hfind as (before & after & Hdocs & Hsel & _).
  case_bool_decide; [by left|].
  assert (Hdel : deleteOne (delete_id req) (orders db) = before ++ after).
  { rewrite Hdocs in *. apply deleteOne_unique; [done|].
    unfold mayDelete in Hsel. apply andb_true_iff in Hsel as [Hid _].
    by apply bool_decide_eq_true in Hid. }
  right. exists admin, before, o, after.
  repeat case_bool_decide; cbn [fst snd orders users code];
    rewrite ?Hdel; split_and!; try done; auto.
Qed.

(** X22.  No admin deletes a training assigned to another.  With ids
    unique, an order that carries the id of an admin other than the one
    the request resolves to is still there after the delete route ran;
    if it is the order the request names, nothing at all has changed and
    the answer is not 200. *)
Theorem delete_spares_foreign_training (req : DeleteRequest) (db : Db)
    (o : OrderDoc) (assigned : Z) :
  NoDup (_id <$> orders db) →
  o ∈ orders db → adminTelegramId o = Some assigned →
  truthy_id (delete_admin req) ≠ Some assigned →
  o ∈ orders (trainings_delete req db).2
  ∧ (_id o = delete_id req →
       (trainings_delete req db).2 = db ∧ code (trainings_delete req db).1 ≠ 200).
Proof.
  intros Hnodup Hin Hassigned Hother.
  destruct (trainings_delete_outcome req db Hnodup)
    as [[-> Hcode]|(admin & before & x & after & Hadmin & Hdocs & Hsel & -> & _)];
    [done|].
  assert (Hx : x ≠ o).
  { intros ->. unfold mayDelete in Hsel. rewrite Hassigned in Hsel.
    apply andb_true_iff in Hsel as [_ Heq]. apply bool_decide_eq_true in Heq.
    apply Hother. by rewrite Hadmin, Heq. }
  assert (Hstays : o ∈ before ++ after).
  { rewrite Hdocs in Hin. apply elem_of_app in Hin as [?|[->|?]%elem_of_cons];
      [apply elem_of_app; by left|done|apply elem_of_app; by right]. }
  split; [done|]. intros Hid. exfalso.
  unfold mayDelete in Hsel. apply andb_true_iff in Hsel as [Hxid _].
  apply bool_decide_eq_true in Hxid.
  rewrite Hdocs, fmap_app, fmap_cons in Hnodup.
  apply NoDup_app in Hnodup as (_ & Hbefore & Hafter%NoDup_cons).
  destruct Hafter as [Hafter _].
  apply elem_of_app in Hstays as [Hb|Ha].
  - apply (Hbefore (_id o)); [by apply list_elem_of_fmap_2|].
    rewrite Hid, <- Hxid. by left.
  - apply Hafter. rewrite Hxid, <- Hid. by apply list_elem_of_fmap_2.
Qed.

Lemma delete_spares_foreign_training_witness :
  assignedOrder ∈ orders (trainings_delete (deleteBy 2 "o2") twoOrders).2
  ∧ (_id assignedOrder = delete_id (deleteBy 2 "o2") →
       (trainings_delete (deleteBy 2 "o2") twoOrders).2 = twoOrders
       ∧ code (trainings_delete (deleteBy 2 "o2") twoOrders).1 ≠ 200).
Proof.
  apply (delete_spares_foreign_training (deleteBy 2 "o2") twoOrders assignedOrder 1).
  - cbn. apply NoDup_cons. split; [|apply NoDup_singleton].
    intros Hin%list_elem_of_singleton. discriminate Hin.
  - right. by left.
  - reflexivity.
  - discriminate.
Defined.

(** The status worked out from the orders a user has left. *)
Lemma nextStatus_spec (remaining : list OrderDoc) :
  (nextStatus remaining = "active" ↔ ∃ x, x ∈ remaining ∧ status x = "accepted")
  ∧ (nextStatus remaining = "requested" ↔
       (∃ x, x ∈ remaining ∧ status x = "pending")
       ∧ ¬ ∃ x, x ∈ remaining ∧ status x = "accepted")
  ∧ (nextStatus remaining = "none" ↔
       ∀ x, x ∈ remaining →
         status x ≠ "accepted" ∧ status x ≠ "pending"
         ∧ status x ≠ "completed" ∧ status x ≠ "declined").
Proof.
  pose proof (hasStatus_spec "accepted" remaining eq_refl) as Hacc.
  pose proof (hasStatus_spec "pending" remaining eq_refl) as Hpen.
  pose proof (hasStatus_spec "completed" remaining eq_refl) as Hcom.
  pose proof (hasStatus_spec "declined" remaining eq_refl) as Hdec.
  unfold nextStatus.
  destruct (hasStatus "accepted" remaining).
  { destruct Hacc as [Hacc _]. specialize (Hacc eq_refl).
    split_and!.
    - by split.
    - split; [done|]. by intros [_ []].
    - split; [done|]. intros Hall. destruct Hacc as (x & Hx & Hs).
      by destruct (Hall x Hx) as (? & _). }
  assert (Hna : ¬ ∃ x, x ∈ remaining ∧ status x = "accepted").
  { intros Hex. by apply Hacc in Hex. }
  destruct (hasStatus "pending" remaining).
  { destruct Hpen as [Hpen _]. specialize (Hpen eq_refl).
    split_and!.
    - split; [done|]. intros Hex. by destruct Hna.
    - by split.
    - split; [done|]. intros Hall. destruct Hpen as (x & Hx & Hs).
      by destruct (Hall x Hx) as (_ & ? & _). }
  assert (Hnp : ¬ ∃ x, x ∈ remaining ∧ status x = "pending").
  { intros Hex. by apply Hpen in Hex. }
  destruct (hasStatus "completed" remaining).
  { destruct Hcom as [Hcom _]. specialize (Hcom eq_refl).
    split_and!.
    - split; [done|]. intros Hex. by destruct Hna.
    - split; [done|]. intros [Hex _]. by destruct Hnp.
    - split; [done|]. intros Hall. destruct Hcom as (x & Hx & Hs).
      by destruct (Hall x Hx) as (_ & _ & ? & _). }
  assert (Hnc : ¬ ∃ x, x ∈ remaining ∧ status x = "completed").
  { intros Hex. by apply Hcom in Hex. }
  destruct (hasStatus "declined" remaining).
  { destruct Hdec as [Hdec _]. specialize (Hdec eq_refl).
    split_and!.
    - split; [done|]. intros Hex. by destruct Hna.
    - split; [done|]. intros [Hex _]. by destruct Hnp.
    - split; [done|]. intros Hall. destruct Hdec as (x & Hx & Hs).
      by destruct (Hall x Hx) as (_ & _ & _ & ?). }
  assert (Hnd : ¬ ∃ x, x ∈ remaining ∧ status x = "declined").
  { intros Hex. by apply Hdec in Hex. }
  split_and!.
  - split; [done|]. intros Hex. by destruct Hna.
  - split; [done|]. intros [Hex _]. by destruct Hnp.
  - split; [|done]. intros _ x Hx. split_and!; intros Hs.
    + apply Hna. eauto.
    + apply Hnp. eauto.
    + apply Hnc. eauto.
    + apply Hnd. eauto.
Qed.

(** X23.  A training deleted with answer 200 is gone, every other order
    stays, and the training status of its user is worked out from the
    orders that user has left: active if one of them is accepted,
    otherwise requested if one is pending, and none if there is no
    accepted, pending, completed or declined order left. *)
Theorem delete_resets_training_status (req : DeleteRequest) (db : Db) :
  NoDup (_id <$> orders db) →
  code (trainings_delete req db).1 = 200 →
  let db' := (trainings_delete req db).2 in
  ∃ before o after next,
    orders db = before ++ o :: after ∧ _id o = delete_id req
    ∧ orders db' = before ++ after
    ∧ users db' = setTrainingStatus (telegramUserId o) next (users db)
    ∧ let left := filter (fun x => telegramUserId x = telegramUserId o) (orders db') in
      (next = "active" ↔ ∃ x, x ∈ left ∧ status x = "accepted")
      ∧ (next = "requested" ↔
           (∃ x, x ∈ left ∧ status x = "pending")
           ∧ ¬ ∃ x, x ∈ left ∧ status x = "accepted")
      ∧ (next = "none" ↔
           ∀ x, x ∈ left →
             status x ≠ "accepted" ∧ status x ≠ "pending"
             ∧ status x ≠ "completed" ∧ status x ≠ "declined").
Proof.
  intros Hnodup Hok. cbn zeta.
  destruct (trainings_delete_outcome req db Hnodup)
    as [[_ Hcode]|(admin & before & o & after & _ & Hdocs & Hsel & Hnew & Hres)];
    [done|].
  destruct Hres as [[Hcode _]|[_ Husers]]; [congruence|].
  exists before, o, after,
    (nextStatus (filter (fun x => telegramUserId x = telegramUserId o) (before ++ after))).
  refine (conj Hdocs (conj _ (conj Hnew (conj Husers _)))).
  - unfold mayDelete in Hsel. apply andb_true_iff in Hsel as [Hid _].
    by apply bool_decide_eq_true in Hid.
  - rewrite Hnew. apply nextStatus_spec.
Qed.

Lemma delete_resets_training_status_witness :
  let db' := (trainings_delete (deleteBy 1 "o2") twoOrders).2 in
  ∃ before o after next,
    orders twoOrders = before ++ o :: after ∧ _id o = delete_id (deleteBy 1 "o2")
    ∧ orders db' = before ++ after
    ∧ users db' = setTrainingStatus (telegramUserId o) next (users twoOrders)
    ∧ let left := filter (fun x => telegramUserId x = telegramUserId o) (orders db') in
      (next = "active" ↔ ∃ x, x ∈ left ∧ status x = "accepted")
      ∧ (next = "requested" ↔
           (∃ x, x ∈ left ∧ status x = "pending")
           ∧ ¬ ∃ x, x ∈ left ∧ status x = "accepted")
      ∧ (next = "none" ↔
           ∀ x, x ∈ left →
             status x ≠ "accepted" ∧ status x ≠ "pending"
             ∧ status x ≠ "completed" ∧ status x ≠ "declined").
Proof.
  apply (delete_resets_training_status (deleteBy 1 "o2") twoOrders).
  - cbn. apply NoDup_cons. split; [|apply NoDup_singleton].
    intros Hin%list_elem_of_singleton. discriminate Hin.
  - reflexivity.
Defined.

End TrainingsFacts.


Module JsFacts.
Import Js JsViews.

Lemma rev_app_append s t u : String.rev_app s (t +:+ u) = String.rev_app s t +:+ u.
Proof.
  revert t. induction s as [|a s IH]; intros t; cbn [String.rev_app]; [done|].
  by rewrite <- IH.
Qed.

Lemma rev_cons a s : String.rev (String a s) = String.rev s +:+ String a "".
Proof.
  unfold String.rev. cbn [String.rev_app].
  by rewrite <- rev_app_append.
Qed.

Lemma append_empty_r s : s +:+ "" = s.
Proof.
  induction s as [|a s IH]; [done|].
  change (String a s +:+ "") with (String a (s +:+ "")). by rewrite IH.
Qed.

Lemma append_assoc' s t u : (s +:+ t) +:+ u = s +:+ (t +:+ u).
Proof.
  induction s as [|a s IH]; [done|].
  change (String a (s +:+ t) +:+ u = String a (s +:+ (t +:+ u))).
  change (String a ((s +:+ t) +:+ u) = String a (s +:+ (t +:+ u))). by rewrite IH.
Qed.

Lemma rev_append s t : String.rev (s +:+ t) = String.rev t +:+ String.rev s.
Proof.
  induction s as [|a s IH].
  - change ("" +:+ t) with t. by rewrite append_empty_r.
  - change (String a s +:+ t) with (String a (s +:+ t)).
    by rewrite !rev_cons, IH, append_assoc'.
Qed.

Lemma rev_involutive s : String.rev (String.rev s) = s.
Proof.
  induction s as [|a s IH]; [done|].
  by rewrite rev_cons, rev_append, IH.
Qed.

Lemma trimStart_headOk s : headOk (trimStart s).
Proof.
  induction s as [|a s IH]; [done|]. cbn [trimStart].
  by destruct (Ascii.is_space a) eqn:Ha.
Qed.

Lemma trimStart_fixed s : headOk s → trimStart s = s.
Proof. destruct s as [|a s]; [done|]. cbn. by intros ->. Qed.

(** [trimStart] takes off a prefix. *)
Lemma trimStart_suffix s : ∃ w, s = w +:+ trimStart s.
Proof.
  induction s as [|a s [w IH]]; [by exists ""|]. cbn [trimStart].
  destruct (Ascii.is_space a).
  - exists (String a w). change (String a w +:+ ?x) with (String a (w +:+ x)).
    by rewrite <- IH.
  - by exists "".
Qed.

Lemma headOk_append s t : headOk s → s ≠ "" → headOk (s +:+ t).
Proof. by destruct s. Qed.

(** Trimming twice is trimming once. *)
Lemma trim_idemp s : trim (trim s) = trim s.
Proof.
  unfold trim.
  set (u := trimStart s). set (v := trimStart (String.rev u)).
  assert (Hv : headOk v) by apply trimStart_headOk.
  assert (Hrev : headOk (String.rev v)).
  { destruct (trimStart_suffix (String.rev u)) as [w Hw]. fold v in Hw.
    assert (Hu : u = String.rev v +:+ String.rev w).
    { by rewrite <- rev_append, <- Hw, rev_involutive. }
    destruct v as [|a v']; [done|].
    assert (Hhead : headOk u) by apply trimStart_headOk.
    rewrite Hu in Hhead.
    destruct (String.rev (String a v')) as [|b r] eqn:Hr; [done|]. exact Hhead. }
  rewrite (trimStart_fixed (String.rev v)) by done.
  rewrite rev_involutive. by rewrite (trimStart_fixed v).
Qed.

End JsFacts.


Module GoalsFacts.
Import Js Goals JsFacts.

Lemma findByTitle_Some wanted docs g :
  findByTitle wanted docs = Some g → g ∈ docs ∧ title g = wanted.
Proof.
  induction docs as [|x docs IH]; cbn [findByTitle]; [done|].
  case_bool_decide as Hx.
  - intros [= ->]. split; [by left|done].
  - intros [Hin Ht]%IH. split; [by right|done].
Qed.

Lemma findByTitle_None wanted docs :
  findByTitle wanted docs = None → wanted ∉ title <$> docs.
Proof.
  induction docs as [|x docs IH]; cbn [findByTitle].
  - intros _ Hin. by apply elem_of_nil in Hin.
  - case_bool_decide as Hx; [done|]. intros Hnone%IH.
    rewrite fmap_cons. intros [Heq|Hin]%elem_of_cons; [by apply Hx|done].
Qed.

Lemma findById_Some id docs g :
  findById id docs = Some g → g ∈ docs ∧ goal_id g = id.
Proof.
  induction docs as [|x docs IH]; cbn [findById]; [done|].
  case_bool_decide as Hx.
  - intros [= ->]. split; [by left|done].
  - intros [Hin Ht]%IH. split; [by right|done].
Qed.

Section Split.
Context (before after : list GoalDoc) (g : GoalDoc).

Lemma findByTitle_split :
  NoDup (title <$> (before ++ g :: after)) →
  findByTitle (title g) (before ++ g :: after) = Some g.
Proof.
  induction before as [|x before' IH]; cbn [findByTitle app]; intros Hnodup.
  - by rewrite bool_decide_eq_true_2.
  - cbn in Hnodup. apply NoDup_cons in Hnodup as [Hx Hnodup].
    rewrite bool_decide_eq_false_2; [by apply IH|].
    intros Heq. apply Hx. rewrite Heq.
    apply list_elem_of_fmap_2, elem_of_app. right. by left.
Qed.

Lemma findById_split :
  NoDup (goal_id <$> (before ++ g :: after)) →
  findById (goal_id g) (before ++ g :: after) = Some g.
Proof.
  induction before as [|x before' IH]; cbn [findById app]; intros Hnodup.
  - by rewrite bool_decide_eq_true_2.
  - cbn in Hnodup. apply NoDup_cons in Hnodup as [Hx Hnodup].
    rewrite bool_decide_eq_false_2; [by apply IH|].
    intros Heq. apply Hx. rewrite Heq.
    apply list_elem_of_fmap_2, elem_of_app. right. by left.
Qed.

Lemma saveActive_split active :
  NoDup (goal_id <$> (before ++ g :: after)) →
  saveActive (goal_id g) active (before ++ g :: after)
  = before ++ withActive active g :: after.
Proof.
  induction before as [|x before' IH]; cbn [saveActive app]; intros Hnodup.
  - by rewrite bool_decide_eq_true_2.
  - cbn in Hnodup. apply NoDup_cons in Hnodup as [Hx Hnodup].
    rewrite bool_decide_eq_false_2; [by rewrite IH|].
    intros Heq. apply Hx. rewrite Heq.
    apply list_elem_of_fmap_2, elem_of_app. right. by left.
Qed.

End Split.

Lemma withActive_same g : withActive (isActive g) g = g.
Proof. by destruct g. Qed.

Lemma withActive_twice a b g : withActive a (withActive b g) = withActive a g.
Proof. done. Qed.

(** Saving the flag changes neither titles nor ids. *)
Lemma goalsOk_flag before g after next active :
  goalsOk {| goals := before ++ g :: after; nextGoalId := next |} →
  goalsOk {| goals := before ++ withActive active g :: after; nextGoalId := next |}.
Proof.
  intros (Htitles & Hids & Hall). unfold goalsOk in *. cbn [goals nextGoalId] in *.
  rewrite !fmap_app, !fmap_cons in *. cbn [withActive title goal_id].
  split_and!; [done|done|].
  apply Forall_app in Hall as [Hb Ha]. apply Forall_cons in Ha as [Hg Ha].
  apply Forall_app. split; [done|]. by apply Forall_cons.
Qed.

(** What a POST does: it refuses and changes nothing, it switches an
    inactive goal of that title on, or it adds a goal. *)
Lemma goals_post_outcome now body_title fault db :
  goalsOk db →
  let wanted := match body_title with Some t => trim t | None => "" end in
  ((goals_post now body_title fault db).2 = db
   ∧ (∃ code message, (goals_post now body_title fault db).1 = Message code message)
   ∧ (rejectedAt FindGoal fault = None → truthy_string wanted = true →
      (∀ g, g ∈ goals db → title g = wanted → isActive g = false) →
      rejectedAt SaveGoal fault ≠ None ∨ rejectedAt CreateGoal fault ≠ None))
  ∨ (∃ before g after,
       goals db = before ++ g :: after ∧ title g = wanted ∧ isActive g = false
       ∧ goals_post now body_title fault db
         = (Json 200 (goal_id g) wanted,
            {| goals := before ++ withActive true g :: after;
               nextGoalId := nextGoalId db |}))
  ∨ ((wanted ∉ title <$> goals db) ∧ truthy_string wanted = true
     ∧ goals_post now body_title fault db
       = (Json 201 (nextGoalId db) wanted,
          {| goals := goals db ++ [{| goal_id := nextGoalId db; title := wanted;
                                      isActive := true; sortOrder := 0;
                                      goalCreatedAt := now |}];
             nextGoalId := S (nextGoalId db) |})).
Proof.
  intros (Htitles & Hids & Hall). cbn zeta. unfold goals_post.
  set (wanted := match body_title with Some t => trim t | None => "" end).
  assert (Htrim : trim wanted = wanted).
  { unfold wanted. destruct body_title; [apply trim_idemp|done]. }
  destruct (truthy_string wanted) eqn:Htruthy; cbn [negb];
    [|left; split_and!; [done|by eauto|done]].
  destruct (rejectedAt FindGoal fault) as [f|] eqn:Hfind.
  { left. split_and!; [done| |done]. unfold createFailed.
    destruct (errorCode f) as [c|]; [destruct (c =? 11000)|]; by eauto. }
  destruct (findByTitle wanted (goals db)) as [g|] eqn:Hfound.
  - apply findByTitle_Some in Hfound as [Hin Htitle].
    destruct (isActive g) eqn:Hactive.
    { left. split_and!; [done|by eauto|]. intros _ _ Hinactive.
      rewrite (Hinactive g Hin Htitle) in Hactive. done. }
    destruct (rejectedAt SaveGoal fault) as [f|] eqn:Hsave.
    { left. split_and!; [done| |by left]. unfold createFailed.
      destruct (errorCode f) as [c|]; [destruct (c =? 11000)|]; by eauto. }
    right. left. apply list_elem_of_split in Hin as (before & after & Hdocs).
    exists before, g, after. split_and!; [done|done|done|].
    rewrite Hdocs in Hids |- *. by rewrite saveActive_split.
  - apply findByTitle_None in Hfound.
    destruct (rejectedAt CreateGoal fault) as [f|] eqn:Hcreate.
    { left. split_and!; [done| |by right]. unfold createFailed.
      destruct (errorCode f) as [c|]; [destruct (c =? 11000)|]; by eauto. }
    right. right. cbn [goal_id title]. rewrite Htrim. by split_and!.
Qed.

(** What a DELETE does: it refuses and changes nothing, or it switches
    the goal of that id off. *)
Lemma goals_delete_outcome param fault db :
  goalsOk db →
  ((goals_delete param fault db).2 = db
   ∧ (∃ code message, (goals_delete param fault db).1 = Message code message))
  ∨ (∃ id before g after,
       param = GoalId id ∧ goal_id g = id
       ∧ goals db = before ++ g :: after
       ∧ goals_delete param fault db
         = (NoContent, {| goals := before ++ withActive false g :: after;
                          nextGoalId := nextGoalId db |})).
Proof.
  intros (Htitles & Hids & Hall). unfold goals_delete.
  destruct param as [| |id]; [left; by eauto|left; by eauto|].
  destruct (rejectedAt FindGoal fault); [left; by eauto|].
  destruct (findById id (goals db)) as [g|] eqn:Hfound; [|left; by eauto].
  apply findById_Some in Hfound as [Hin Hid].
  destruct (rejectedAt SaveGoal fault); [left; by eauto|].
  right. apply list_elem_of_split in Hin as (before & after & Hdocs).
  exists id, before, g, after. split_and!; [done|done|done|].
  rewrite Hdocs in Hids |- *. by rewrite saveActive_split.
Qed.

Lemma goalsOk_post now body_title fault db :
  goalsOk db → goalsOk (goals_post now body_title fault db).2.
Proof.
  intros Hok.
  destruct (goals_post_outcome now body_title fault db Hok)
    as [(-> & _)|[(before & g & after & Hdocs & _ & _ & ->)
                 |(Hfresh & Htruthy & ->)]]; [done| |].
  - cbn [snd]. apply goalsOk_flag. destruct db as [docs next].
    cbn [goals nextGoalId] in *. by subst docs.
  - cbn [snd]. destruct Hok as (Htitles & Hids & Hall).
    unfold goalsOk. cbn [goals nextGoalId].
    rewrite !fmap_app. cbn [fmap list_fmap title goal_id].
    set (wanted := match body_title with Some t => trim t | None => "" end) in *.
    assert (Htrim : trim wanted = wanted).
    { unfold wanted. destruct body_title; [apply trim_idemp|done]. }
    split_and!.
    + apply NoDup_app. split_and!; [done| |apply NoDup_singleton].
      intros t Ht ->%list_elem_of_singleton. done.
    + apply NoDup_app. split_and!; [done| |apply NoDup_singleton].
      intros i Hi ->%list_elem_of_singleton.
      apply list_elem_of_fmap in Hi as (g & Hg & Hin).
      rewrite Forall_forall in Hall. destruct (Hall g Hin) as [Hlt _]. lia.
    + apply Forall_app. split.
      * eapply Forall_impl; [done|]. intros g (? & ? & ?). split_and!; [lia|done|done].
      * apply Forall_singleton. cbn. split_and!; [lia|done|done].
Qed.

Lemma goalsOk_delete param fault db :
  goalsOk db → goalsOk (goals_delete param fault db).2.
Proof.
  intros Hok.
  destruct (goals_delete_outcome param fault db Hok)
    as [(-> & _)|(id & before & g & after & _ & _ & Hdocs & ->)]; [done|].
  cbn [snd]. apply goalsOk_flag. destruct db as [docs next].
  cbn [goals nextGoalId] in *. by subst docs.
Qed.

Lemma goalsOk_run rs db : goalsOk db → goalsOk (goals_run rs db).
Proof.
  revert db. induction rs as [|r rs IH]; intros db Hok; [done|].
  cbn [goals_run foldl]. apply IH.
  destruct r; cbn [goals_route]; [by apply goalsOk_post|by apply goalsOk_delete].
Qed.

(** X24.  Whatever is posted and deleted, and whichever calls fail, no two
    goals share a title or an id, and every title is trimmed and not
    empty. *)
Theorem goals_stay_unique (rs : list GoalRequest) :
  goalsOk (goals_run rs noGoals).
Proof.
  apply goalsOk_run. unfold goalsOk, noGoals. cbn. split_and!; constructor.
Qed.

(** X25.  Deleting a goal only switches it off, and posting its title
    again switches it back on: the DELETE is answered 204, the POST 200
    with the id the goal had, and the collection is as it was before the
    two. *)
Theorem deleted_goal_is_restored (db : GoalDb) (g : GoalDoc) (now : Z) (raw : string) :
  goalsOk db → g ∈ goals db → isActive g = true → trim raw = title g →
  (goals_delete (GoalId (goal_id g)) None db).1 = NoContent
  ∧ goals_post now (Some raw) None (goals_delete (GoalId (goal_id g)) None db).2
    = (Json 200 (goal_id g) (title g), db).
Proof.
  intros Hok Hin Hactive Hraw.
  pose proof Hok as (Htitles & Hids & Hall).
  apply list_elem_of_split in Hin as (before & after & Hdocs).
  destruct db as [docs next]. cbn [goals nextGoalId] in *. subst docs.
  assert (Hdel : goals_delete (GoalId (goal_id g)) None
                   {| goals := before ++ g :: after; nextGoalId := next |}
                 = (NoContent, {| goals := before ++ withActive false g :: after;
                                  nextGoalId := next |})).
  { unfold goals_delete. cbn [rejectedAt goals nextGoalId].
    rewrite findById_split by done. by rewrite saveActive_split. }
  rewrite Hdel. cbn [fst snd]. split; [done|].
  assert (Htruthy : truthy_string (title g) = true).
  { rewrite Forall_forall in Hall.
    destruct (Hall g) as (_ & ? & _); [|done]. apply elem_of_app. right. by left. }
  unfold goals_post. cbn [rejectedAt goals nextGoalId].
  rewrite Hraw, Htruthy. cbn [negb].
  change (title g) with (title (withActive false g)) at 1.
  rewrite findByTitle_split by (by rewrite fmap_app, fmap_cons in *).
  cbn [isActive withActive goal_id title].
  change (goal_id g) with (goal_id (withActive false g)) at 2.
  rewrite saveActive_split by (by rewrite fmap_app, fmap_cons in *).
  rewrite withActive_twice, <- Hactive, withActive_same. done.
Qed.

Lemma deleted_goal_is_restored_witness :
  let g := {| goal_id := 0; title := "Strength"; isActive := true;
              sortOrder := 0; goalCreatedAt := 5 |} in
  let db := {| goals := [g]; nextGoalId := 1 |} in
  (goals_delete (GoalId 0) None db).1 = NoContent
  ∧ goals_post 9 (Some "  Strength ") None (goals_delete (GoalId 0) None db).2
    = (Json 200 0%nat "Strength", db).
Proof.
  apply (deleted_goal_is_restored
           {| goals := [{| goal_id := 0; title := "Strength"; isActive := true;
                           sortOrder := 0; goalCreatedAt := 5 |}];
              nextGoalId := 1 |}
           {| goal_id := 0; title := "Strength"; isActive := true;
              sortOrder := 0; goalCreatedAt := 5 |} 9 "  Strength ").
  - split_and!; cbn; [apply NoDup_singleton|apply NoDup_singleton|].
    apply Forall_singleton. cbn. split_and!; [lia|done|done].
  - by left.
  - reflexivity.
  - reflexivity.
Defined.

(** A goal is listed when it is stored and active. *)
Lemma goals_list_elem db item :
  item ∈ goals_list db
  ↔ ∃ g, g ∈ goals db ∧ isActive g = true ∧ item = (goal_id g, title g).
Proof.
  unfold goals_list. rewrite list_elem_of_fmap. split.
  - intros (g & -> & Hin). rewrite merge_sort_Permutation in Hin.
    apply list_elem_of_filter in Hin as [? ?]. by exists g.
  - intros (g & Hin & Hactive & ->). exists g. split; [done|].
    rewrite merge_sort_Permutation. by apply list_elem_of_filter.
Qed.

(** X26.  A goal posted with answer 200 or 201 is listed under the id and
    the title of the answer, the goals listed before are still listed,
    and posting the same title again is answered 409 and changes
    nothing. *)
Theorem posted_goal_is_listed (db : GoalDb) (now now' : Z) (body_title : option string)
    (fault fault' : option Fault) (code : Z) (id : nat) (shown : string) :
  goalsOk db →
  (goals_post now body_title fault db).1 = Json code id shown →
  rejectedAt FindGoal fault' = None →
  let db' := (goals_post now body_title fault db).2 in
  (id, shown) ∈ goals_list db'
  ∧ (∀ item, item ∈ goals_list db → item ∈ goals_list db')
  ∧ goals_post now' body_title fault' db' = (Message 409 "Goal already exists", db').
Proof.
  intros Hok Hanswer Hfault'. cbn zeta.
  pose proof (goalsOk_post now body_title fault db Hok) as Hok'.
  set (wanted := match body_title with Some t => trim t | None => "" end).
  assert (Hagain : ∀ db1 g, goalsOk db1 → g ∈ goals db1 → title g = wanted →
            isActive g = true → truthy_string wanted = true →
            goals_post now' body_title fault' db1
            = (Message 409 "Goal already exists", db1)).
  { intros db1 g (Htitles & _) Hin Htitle Hactive Htruthy.
    unfold goals_post. fold wanted. rewrite Htruthy, Hfault'. cbn [negb].
    apply list_elem_of_split in Hin as (before & after & Hdocs).
    rewrite Hdocs in Htitles |- *. rewrite <- Htitle.
    rewrite findByTitle_split by done. by rewrite Hactive. }
  destruct (goals_post_outcome now body_title fault db Hok)
    as [(_ & (c & m & Hmsg) & _)
       |[(before & g & after & Hdocs & Htitle & Hinactive & Hpost)
        |(Hfresh & Htruthy & Hpost)]].
  { rewrite Hmsg in Hanswer. done. }
  - fold wanted in Htitle, Hpost. rewrite Hpost in Hanswer, Hok' |- *.
    cbn [fst snd] in *. injection Hanswer as <- <- <-.
    assert (Htruthy : truthy_string wanted = true).
    { destruct Hok as (_ & _ & Hall). rewrite Forall_forall in Hall.
      destruct (Hall g) as (_ & ? & _); [|by rewrite <- Htitle].
      rewrite Hdocs. apply elem_of_app. right. by left. }
    split_and!.
    + apply goals_list_elem. exists (withActive true g). cbn [goals].
      split_and!; [|done|by rewrite <- Htitle].
      apply elem_of_app. right. by left.
    + intros item (x & Hx & Hactive & ->)%goals_list_elem.
      apply goals_list_elem. exists x. cbn [goals]. split_and!; [|done|done].
      rewrite Hdocs in Hx.
      apply elem_of_app in Hx as [?|[->|?]%elem_of_cons];
        [apply elem_of_app; by left|congruence|apply elem_of_app; right; by right].
    + apply (Hagain _ (withActive true g)); [done| |done|done|done].
      cbn [goals]. apply elem_of_app. right. by left.
  - fold wanted in Hfresh, Htruthy, Hpost. rewrite Hpost in Hanswer, Hok' |- *.
    cbn [fst snd] in *. injection Hanswer as <- <- <-.
    split_and!.
    + apply goals_list_elem. eexists. cbn [goals].
      split_and!; [apply elem_of_app; right; by left|done|done].
    + intros item (x & Hx & Hactive & ->)%goals_list_elem.
      apply goals_list_elem. exists x. cbn [goals]. split_and!; [|done|done].
      apply elem_of_app. by left.
    + apply (Hagain _ {| goal_id := nextGoalId db; title := wanted; isActive := true;
                         sortOrder := 0; goalCreatedAt := now |});
        [done| |done|done|done].
      cbn [goals]. apply elem_of_app. right. by left.
Qed.

Lemma posted_goal_is_listed_witness :
  let db' := (goals_post 5 (Some " Strength ") None noGoals).2 in
  (0%nat, "Strength") ∈ goals_list db'
  ∧ (∀ item, item ∈ goals_list noGoals → item ∈ goals_list db')
  ∧ goals_post 9 (Some " Strength ") None db' = (Message 409 "Goal already exists", db').
Proof.
  apply (posted_goal_is_listed noGoals 5 9 (Some " Strength ") None None 201 0 "Strength").
  - split_and!; constructor.
  - reflexivity.
  - reflexivity.
Defined.

(** X27.  A goal deleted with answer 204 is no longer listed, every other
    goal is listed as before, and deleting it again is answered 204
    again. *)
Theorem deleted_goal_is_not_listed (db : GoalDb) (id : nat) (fault fault' : option Fault) :
  goalsOk db →
  (goals_delete (GoalId id) fault db).1 = NoContent →
  rejectedAt FindGoal fault' = None → rejectedAt SaveGoal fault' = None →
  let db' := (goals_delete (GoalId id) fault db).2 in
  (∀ shown, (id, shown) ∉ goals_list db')
  ∧ (∀ item, item.1 ≠ id → item ∈ goals_list db ↔ item ∈ goals_list db')
  ∧ goals_delete (GoalId id) fault' db' = (NoContent, db').
Proof.
  intros Hok Hanswer Hfind' Hsave'. cbn zeta.
  pose proof (goalsOk_delete (GoalId id) fault db Hok) as Hok'.
  destruct (goals_delete_outcome (GoalId id) fault db Hok)
    as [(_ & (c & m & Hmsg))
       |(id' & before & g & after & [= <-] & Hid & Hdocs & Hdel)].
  { rewrite Hmsg in Hanswer. done. }
  rewrite Hdel in Hok' |- *. cbn [fst snd] in *.
  pose proof Hok' as (_ & Hids' & _). cbn [goals] in Hids'.
  split_and!.
  - intros shown (x & Hx & Hactive & [= Hxid _])%goals_list_elem.
    cbn [goals] in Hx.
    assert (Hsame : x = withActive false g).
    { rewrite fmap_app, fmap_cons in Hids'.
      apply NoDup_app in Hids' as (_ & Hb & Ha%NoDup_cons). destruct Ha as [Ha _].
      cbn [withActive goal_id] in Hb, Ha.
      apply elem_of_app in Hx as [Hx|[->|Hx]%elem_of_cons]; [|done|].
      - destruct (Hb (goal_id x)); [by apply list_elem_of_fmap_2|].
        rewrite <- Hxid, Hid. by left.
      - destruct Ha. rewrite Hid, Hxid. by apply list_elem_of_fmap_2. }
    by rewrite Hsame in Hactive.
  - intros item Hother. rewrite !goals_list_elem. cbn [goals]. rewrite Hdocs.
    split; intros (x & Hx & Hactive & ->); exists x; (split_and!; [|done|done]).
    + apply elem_of_app in Hx as [?|[->|?]%elem_of_cons];
        [apply elem_of_app; by left|by destruct Hother
        |apply elem_of_app; right; by right].
    + apply elem_of_app in Hx as [?|[->|?]%elem_of_cons];
        [apply elem_of_app; by left|done|apply elem_of_app; right; by right].
  - unfold goals_delete. rewrite Hfind', Hsave'. cbn [goals nextGoalId].
    rewrite <- Hid. change (goal_id g) with (goal_id (withActive false g)).
    rewrite findById_split by done.
    by rewrite saveActive_split.
Qed.

Lemma deleted_goal_is_not_listed_witness :
  let db := (goals_post 5 (Some "Strength") None noGoals).2 in
  let db' := (goals_delete (GoalId 0) None db).2 in
  (∀ shown, (0%nat, shown) ∉ goals_list db')
  ∧ (∀ item, item.1 ≠ 0%nat → item ∈ goals_list db ↔ item ∈ goals_list db')
  ∧ goals_delete (GoalId 0) None db' = (NoContent, db').
Proof.
  apply (deleted_goal_is_not_listed (goals_post 5 (Some "Strength") None noGoals).2
           0 None None).
  - apply goalsOk_post. split_and!; constructor.
  - reflexivity.
  - reflexivity.
  - reflexivity.
Defined.

End GoalsFacts.


Module OrdersFacts.
Import Js Goals JsFacts Orders.

Section NumberFacts.
Context {num : Type}.
Variable below : num -> num -> bool.
Variable lit : Z -> num.
Variable Number : string -> option num.

Abbreviation post := (orders_post below lit Number).

Lemma findUser_Some id docs u :
  findUser id docs = Some u → u ∈ docs ∧ telegramId u = id.
Proof.
  induction docs as [|x docs IH]; cbn [findUser]; [done|].
  case_bool_decide as Hx.
  - intros [= ->]. split; [by left|done].
  - intros [Hin Ht]%IH. split; [by right|done].
Qed.

(** After the update the user found first has an open request. *)
Lemma findUser_markRequested id name phone docs u :
  findUser id docs = Some u →
  ∃ u', findUser id (markRequested id name phone docs) = Some u'
        ∧ trainingStatus u' = Some "requested" ∧ isAdmin u' = isAdmin u.
Proof.
  induction docs as [|x docs IH]; cbn [findUser markRequested]; [done|].
  case_bool_decide as Hx.
  - intros [= ->]. cbn [findUser telegramId].
    rewrite bool_decide_eq_true_2 by done. by eexists.
  - intros Hfound. cbn [findUser]. rewrite bool_decide_eq_false_2 by done. by apply IH.
Qed.

Lemma findActiveGoal_Some id docs g :
  findActiveGoal id docs = Some g → g ∈ docs ∧ goal_id g = id ∧ isActive g = true.
Proof.
  induction docs as [|x docs IH]; cbn [findActiveGoal]; [done|].
  destruct (bool_decide (goal_id x = id) && isActive x) eqn:Hx.
  - intros [= ->]. apply andb_true_iff in Hx as [Hid%bool_decide_eq_true ?].
    split_and!; [by left|done|done].
  - intros (? & ? & ?)%IH. split_and!; [by right|done|done].
Qed.

Lemma findActiveGoal_None id docs :
  findActiveGoal id docs = None ↔ ∀ g, g ∈ docs → goal_id g = id → isActive g = false.
Proof.
  induction docs as [|x docs IH]; cbn [findActiveGoal].
  - split; [by intros _ g Hg%elem_of_nil|done].
  - destruct (bool_decide (goal_id x = id) && isActive x) eqn:Hx.
    + split; [done|]. intros Hall.
      apply andb_true_iff in Hx as [Hid%bool_decide_eq_true Hactive].
      rewrite (Hall x) in Hactive; [done|by left|done].
    + rewrite IH. split.
      * intros Hall g [->|Hg]%elem_of_cons Hid; [|by apply Hall].
        apply andb_false_iff in Hx as [Hx%bool_decide_eq_false|Hx]; [done|done].
      * intros Hall g Hg. apply Hall. by right.
Qed.

Lemma inside_Some low high value n :
  inside below lit low high value = Some n →
  value = Some n ∧ below n (lit low) = false ∧ below (lit high) n = false.
Proof.
  destruct value as [m|]; cbn; [|done].
  destruct (below m (lit low) || below (lit high) m) eqn:Hout; [done|].
  intros [= ->]. by apply orb_false_iff in Hout as [? ?].
Qed.

(** What the route does: it refuses and changes nothing; or the order is
    created and the update of the user fails, answered 500; or both go
    through, answered 201. *)
Lemma orders_post_outcome now resolved body rejected db :
  ((post now resolved body rejected db).2 = db
   ∧ ∃ code message, (post now resolved body rejected db).1 = Message code message)
  ∨ (∃ id order goal phone name,
       resolved = Some id ∧ id ≠ 0
       ∧ mayRequest id db
       ∧ body_goal body = Some (goal_id goal)
       ∧ goal ∈ trainingGoals db ∧ isActive goal = true
       ∧ body_fullName body = Some name ∧ body_phoneNumber body = Some phone
       ∧ order_id order = nextOrderId db
       ∧ order_fullName order = trim name ∧ truthy_string (trim name) = true
       ∧ order_phoneNumber order = trim phone
       ∧ (6 ≤ String.length (digits (trim phone)) ≤ 15)%nat
       ∧ telegramUserId order = id ∧ goalId order = goal_id goal
       ∧ status order = "pending" ∧ createdAt order = now
       ∧ withinBounds below lit order
       ∧ ((rejected = Some UpdateUser
           ∧ post now resolved body rejected db
             = (Message 500 "Failed to create order",
                {| orders := orders db ++ [order]; users := users db;
                   trainingGoals := trainingGoals db;
                   nextOrderId := S (nextOrderId db) |}))
          ∨ (rejected ≠ Some UpdateUser
             ∧ post now resolved body rejected db
               = (Created (nextOrderId db),
                  {| orders := orders db ++ [order];
                     users := markRequested id (trim name) (trim phone) (users db);
                     trainingGoals := trainingGoals db;
                     nextOrderId := S (nextOrderId db) |})))).
Proof.
  unfold orders_post.
  destruct resolved as [id|]; [|left; by eauto].
  unfold truthy_number. destruct (Z.eqb_spec id 0) as [->|Hid]; cbn [negb];
    [left; by eauto|].
  case_bool_decide as Hfu; [left; by eauto|].
  destruct (findUser id (users db)) as [user|] eqn:Huser; [|left; by eauto].
  destruct (isAdmin user) eqn:Hadmin; [left; by eauto|].
  case_bool_decide as Hactive; cbn [orb]; [left; by eauto|].
  case_bool_decide as Hrequested; [left; by eauto|].
  destruct (body_fullName body) as [name|] eqn:Hname; cbn [truthy_string negb];
    [|left; by eauto].
  destruct (truthy_string (trim name)) eqn:Hnamed; cbn [negb]; [|left; by eauto].
  destruct (body_phoneNumber body) as [phone|] eqn:Hphone;
    cbn [truthy_string negb orb]; [|left; by eauto].
  destruct (truthy_string (trim phone)) eqn:Hphoned; cbn [negb orb];
    [|left; by eauto].
  case_bool_decide as Hfew; cbn [orb]; [left; by eauto|].
  case_bool_decide as Hmany; [left; by eauto|].
  case_bool_decide as Hfg; [left; by eauto|].
  destruct (body_goal body) as [goalId_|] eqn:Hgoal; [|left; by eauto].
  destruct (findActiveGoal goalId_ (trainingGoals db)) as [goal|] eqn:Hfound;
    [|left; by eauto].
  apply findActiveGoal_Some in Hfound as (Hgin & Hgid & Hgactive).
  destruct (inside below lit 1 120 _) as [a|] eqn:Hage; [|left; by eauto].
  destruct (inside below lit 50 250 _) as [h|] eqn:Hheight; [|left; by eauto].
  destruct (inside below lit 20 300 _) as [w|] eqn:Hweight; [|left; by eauto].
  apply inside_Some in Hage as (_ & Ha1 & Ha2).
  apply inside_Some in Hheight as (_ & Hh1 & Hh2).
  apply inside_Some in Hweight as (_ & Hw1 & Hw2).
  case_bool_decide as Hco; [left; by eauto|].
  right.
  exists id,
    {| order_id := nextOrderId db; order_fullName := trim (trim name);
       order_phoneNumber := trim (trim phone); telegramUserId := id;
       goalId := goalId_; status := "pending"; age := a; weightKg := w; heightCm := h;
       medicalContraindications :=
         match body_medicalContraindications body with
         | Some m => if truthy_string m then Some (trim m) else None
         | None => None
         end;
       createdAt := now |}, goal, phone, name.
  cbn [order_id order_fullName order_phoneNumber telegramUserId goalId status
       createdAt orders users trainingGoals nextOrderId].
  unfold withinBounds. cbn [age weightKg heightCm].
  rewrite !trim_idemp.
  split_and!; try done; try lia.
  - by exists user.
  - by rewrite Hgid.
  - case_bool_decide as Huu; [by left|by right].
Qed.

Lemma goalsOffered_elem (db : Db num) goal :
  goal ∈ trainingGoals db → isActive goal = true →
  (goal_id goal, title goal) ∈ goalsOffered db.
Proof.
  intros Hin Hactive. unfold goalsOffered, goals_list.
  apply list_elem_of_fmap. exists goal. split; [done|].
  rewrite merge_sort_Permutation. by apply list_elem_of_filter.
Qed.

End NumberFacts.

(** X28.  An order is created only from a request that passes every check
    of the route.  After a 201 the collection has one more order, with
    the id of the answer: it is pending, belongs to the Telegram id the
    request resolved to, names a goal that is on offer, carries a name
    that is not blank and a phone number of 6 to 15 digits, and its age,
    height and weight are not below and not above the bounds.  The user
    was known, no admin and without an open request, and has one now. *)
Theorem created_order_is_valid {num : Type}
    (below : num → num → bool) (lit : Z → num) (Number : string → option num)
    (now : Z) (resolved : option Z) (body : Body num) (rejected : option OrderStep)
    (db : Db num) (id : nat) :
  (orders_post below lit Number now resolved body rejected db).1 = Created id →
  let db' := (orders_post below lit Number now resolved body rejected db).2 in
  ∃ order,
    orders db' = orders db ++ [order]
    ∧ order_id order = id ∧ status order = "pending"
    ∧ resolved = Some (telegramUserId order)
    ∧ (∃ shown, (goalId order, shown) ∈ goalsOffered db)
    ∧ truthy_string (order_fullName order) = true
    ∧ (6 ≤ String.length (digits (order_phoneNumber order)) ≤ 15)%nat
    ∧ withinBounds below lit order
    ∧ mayRequest (telegramUserId order) db
    ∧ ∃ user, findUser (telegramUserId order) (users db') = Some user
              ∧ trainingStatus user = Some "requested".
Proof.
  intros Hanswer. cbn zeta.
  destruct (orders_post_outcome below lit Number now resolved body rejected db)
    as [(_ & c & m & Hmsg)
       |(uid & order & goal & phone & name & -> & Huid & Hmay & Hgoal & Hgin & Hgactive
         & Hname & Hphone & Hoid & Hfull & Hnamed & Hphoned & Hdigits & Htid & Hgid
         & Hstatus & _ & Hbounds & Hres)].
  { rewrite Hmsg in Hanswer. done. }
  destruct Hres as [[_ Hpost]|[_ Hpost]]; rewrite Hpost in Hanswer |- *; [done|].
  cbn [fst snd orders users] in *. injection Hanswer as <-.
  exists order. rewrite Htid, Hfull, Hphoned, Hgid.
  split_and!; try done; try lia.
  - exists (title goal). by apply goalsOffered_elem.
  - destruct Hmay as (user & Huser & _).
    destruct (findUser_markRequested uid (trim name) (trim phone) _ _ Huser)
      as (u' & Hu' & Hreq & _).
    by exists u'.
Qed.

Lemma created_order_is_valid_witness :
  let db' := (orders_post Z.ltb id sampleNumberOf 100 (Some 7) sampleBody None
                sampleShop).2 in
  ∃ order,
    orders db' = orders sampleShop ++ [order]
    ∧ order_id order = 0%nat ∧ status order = "pending"
    ∧ Some 7 = Some (telegramUserId order)
    ∧ (∃ shown, (goalId order, shown) ∈ goalsOffered sampleShop)
    ∧ truthy_string (order_fullName order) = true
    ∧ (6 ≤ String.length (digits (order_phoneNumber order)) ≤ 15)%nat
    ∧ withinBounds Z.ltb id order
    ∧ mayRequest (telegramUserId order) sampleShop
    ∧ ∃ user, findUser (telegramUserId order) (users db') = Some user
              ∧ trainingStatus user = Some "requested".
Proof.
  apply (created_order_is_valid Z.ltb id sampleNumberOf 100 (Some 7) sampleBody
           None sampleShop 0).
  reflexivity.
Defined.

(** X29.  One open request per user: after a 201, a further request of
    the same user is answered 409 and changes nothing, whatever its
    body, as long as the lookup of the user is not rejected. *)
Theorem second_order_is_refused {num : Type}
    (below : num → num → bool) (lit : Z → num) (Number : string → option num)
    (now now' : Z) (resolved : option Z) (body body' : Body num)
    (rejected rejected' : option OrderStep) (db : Db num) (id : nat) :
  (orders_post below lit Number now resolved body rejected db).1 = Created id →
  rejected' ≠ Some FindUser →
  let db' := (orders_post below lit Number now resolved body rejected db).2 in
  orders_post below lit Number now' resolved body' rejected' db'
  = (Message 409 "User already has an open request", db').
Proof.
  intros Hanswer Hfind. cbn zeta.
  destruct (orders_post_outcome below lit Number now resolved body rejected db)
    as [(_ & c & m & Hmsg)
       |(uid & order & goal & phone & name & -> & Huid & Hmay & _ & _ & _
         & _ & _ & _ & _ & _ & _ & _ & _ & _ & _ & _ & _ & Hres)].
  { rewrite Hmsg in Hanswer. done. }
  destruct Hres as [[_ Hpost]|[_ Hpost]]; rewrite Hpost in Hanswer |- *; [done|].
  cbn [fst snd]. destruct Hmay as (user & Huser & Hadmin & _).
  destruct (findUser_markRequested uid (trim name) (trim phone) _ _ Huser)
    as (u' & Hu' & Hreq & Hadmin').
  unfold orders_post at 1. cbn [users].
  unfold truthy_number. rewrite (proj2 (Z.eqb_neq uid 0)) by done. cbn [negb].
  rewrite bool_decide_eq_false_2 by done.
  rewrite Hu', Hadmin', Hadmin, Hreq.
  rewrite (bool_decide_eq_true_2 (Some "requested" = Some "requested")) by done.
  by rewrite orb_true_r.
Qed.

Lemma second_order_is_refused_witness :
  let db' := (orders_post Z.ltb id sampleNumberOf 100 (Some 7) sampleBody None
                sampleShop).2 in
  orders_post Z.ltb id sampleNumberOf 200 (Some 7) sampleBody None db'
  = (Message 409 "User already has an open request", db').
Proof.
  apply (second_order_is_refused Z.ltb id sampleNumberOf 100 200 (Some 7)
           sampleBody sampleBody None None sampleShop 0).
  - reflexivity.
  - discriminate.
Defined.

(** X30.  A request that is not answered 201 leaves users and goals as
    they were.  It leaves the orders as they were too, except when the
    update of the user is what failed: then the answer is 500 and the
    pending order it created stays. *)
Theorem refused_order_changes_nothing {num : Type}
    (below : num → num → bool) (lit : Z → num) (Number : string → option num)
    (now : Z) (resolved : option Z) (body : Body num) (rejected : option OrderStep)
    (db : Db num) (code : Z) (message : string) :
  (orders_post below lit Number now resolved body rejected db).1 = Message code message →
  let db' := (orders_post below lit Number now resolved body rejected db).2 in
  users db' = users db ∧ trainingGoals db' = trainingGoals db
  ∧ (db' = db
     ∨ (code = 500 ∧ rejected = Some UpdateUser
        ∧ ∃ order, orders db' = orders db ++ [order] ∧ status order = "pending"
                   ∧ resolved = Some (telegramUserId order))).
Proof.
  intros Hanswer. cbn zeta.
  destruct (orders_post_outcome below lit Number now resolved body rejected db)
    as [(-> & _)
       |(uid & order & goal & phone & name & -> & Huid & Hmay & _ & _ & _
         & _ & _ & _ & _ & _ & _ & _ & Htid & _ & Hstatus & _ & _ & Hres)].
  { split_and!; [done|done|by left]. }
  destruct Hres as [[Hrej Hpost]|[_ Hpost]]; rewrite Hpost in Hanswer |- *; [|done].
  cbn [fst snd users trainingGoals orders]. injection Hanswer as <- _.
  split_and!; [done|done|]. right. split_and!; [done|done|].
  exists order. by rewrite Htid.
Qed.

Lemma refused_order_changes_nothing_witness :
  let db' := (orders_post Z.ltb id sampleNumberOf 100 (Some 7) sampleBody
                (Some UpdateUser) sampleShop).2 in
  users db' = users sampleShop ∧ trainingGoals db' = trainingGoals sampleShop
  ∧ (db' = sampleShop
     ∨ (500 = 500 ∧ Some UpdateUser = Some UpdateUser
        ∧ ∃ order, orders db' = orders sampleShop ++ [order] ∧ status order = "pending"
                   ∧ Some 7 = Some (telegramUserId order))).
Proof.
  apply (refused_order_changes_nothing Z.ltb id sampleNumberOf 100 (Some 7) sampleBody
           (Some UpdateUser) sampleShop 500 "Failed to create order").
  reflexivity.
Defined.

End OrdersFacts.

